(** * sanitizationjs: the sanitization and normalization engines

    A shallow embedding of [src/core/sanitization-rules.ts] and of the two
    engines of [src/core/normalization-engine.ts] (the [NormalizationEngine]
    and the [SanitizationEngine] classes), followed by the properties of the
    specification that were checked against them.  Two callers of the
    sanitization engine are embedded as well, the NestJS pipe
    ([src/nestjs/sanitization.pipe.ts]) and the Express middleware
    ([createSanitizationMiddleware]), and the test [isAlreadyNormalized] of
    the normalization adapters; the last modules of the file state further
    properties of the engines and of these callers.

    Conventions of the embedding:
    - a JavaScript string is a [string] of code units; the embedding covers
      the code units below 256 (Latin-1), on which [toLowerCase], [trim],
      [\s], [\w], [\d] and the default ordering of [Array.prototype.sort] are
      given exactly;
    - a JavaScript number is an integer, an infinity or NaN ([number]);
    - a JSON-like value is a [value]; an object is the list of its own
      enumerable properties in the order [Object.entries] lists them;
    - exceptions are explicit ([completion]); the mutable caches of the
      sanitization engine and the array that [sanitize] sorts in place are
      threaded through explicitly. *)

From Stdlib Require Import ZArith Ascii String List Bool Lia.
From Stdlib Require Import Sorting.Permutation Sorting.Sorted.
From Stdlib Require Import Numbers.DecimalString.
From stdpp Require Import gmap strings sorting.

Import ListNotations.
Local Open Scope bool_scope.
Set Warnings "-register-all".
Local Set Default Proof Using "Type".

(* ===================================================================== *)
(** ** JavaScript strings *)
(* ===================================================================== *)

Module JsString.

Definition code (c : ascii) : N := N_of_ascii c.

Definition in_range (lo hi : N) (c : ascii) : bool :=
  ((lo <=? code c) && (code c <=? hi))%N.

Definition is_char (x : ascii) (c : ascii) : bool := (code c =? code x)%N.

(** [\s], which is also what [String.prototype.trim] strips: TAB, LF, VT,
    FF, CR, SPACE and NO-BREAK SPACE are the members below 256. *)
Definition isWhiteSpace (c : ascii) : bool :=
  in_range 9 13 c || (code c =? 32)%N || (code c =? 160)%N.

(** [\d] and [\w]. *)
Definition isDigit (c : ascii) : bool := in_range 48 57 c.
Definition isWordChar (c : ascii) : bool :=
  in_range 97 122 c || in_range 65 90 c || isDigit c || (code c =? 95)%N.

(** [toLowerCase] on one code unit: A-Z and the Latin-1 capitals
    U+00C0..U+00DE (without the multiplication sign U+00D7). *)
Definition lowerChar (c : ascii) : ascii :=
  if in_range 65 90 c || (in_range 192 222 c && negb (code c =? 215)%N)
  then ascii_of_N (code c + 32) else c.

(** The case folding of a regular expression with the [i] flag
    ([Canonicalize] without the [u] flag): upper-casing, which below 256
    moves a-z and U+00E0..U+00FE (without the division sign U+00F7). *)
Definition canonicalize (c : ascii) : ascii :=
  if in_range 97 122 c || (in_range 224 254 c && negb (code c =? 247)%N)
  then ascii_of_N (code c - 32) else c.

Fixpoint toLowerCase (s : string) : string :=
  match s with
  | EmptyString => EmptyString
  | String c s' => String (lowerChar c) (toLowerCase s')
  end.

Fixpoint trimStart (s : string) : string :=
  match s with
  | EmptyString => EmptyString
  | String c s' => if isWhiteSpace c then trimStart s' else s
  end.

Fixpoint trimEnd (s : string) : string :=
  match s with
  | EmptyString => EmptyString
  | String c s' =>
      match trimEnd s' with
      | EmptyString => if isWhiteSpace c then EmptyString else String c EmptyString
      | r => String c r
      end
  end.

Definition trim (s : string) : string := trimEnd (trimStart s).

(** [s.includes(sub)] *)
Fixpoint includes (sub s : string) : bool :=
  String.prefix sub s ||
  match s with
  | EmptyString => false
  | String _ s' => includes sub s'
  end.

(** [parts.join(sep)] on an array of strings. *)
Fixpoint join (sep : string) (parts : list string) : string :=
  match parts with
  | [] => EmptyString
  | [p] => p
  | p :: rest => p +:+ sep +:+ join sep rest
  end.

(** The decimal text of an array index, as a template literal prints it. *)
Definition ofIndex (n : nat) : string := NilEmpty.string_of_uint (Nat.to_uint n).

(** [names.sort()] with the default comparison: ascending order of code
    units.  The order is total and antisymmetric, so the sorted array does
    not depend on the algorithm of the engine. *)
Definition sort (names : list string) : list string := merge_sort String.le names.

End JsString.

(* ===================================================================== *)
(** ** Regular expressions *)
(* ===================================================================== *)

(** The patterns of the rule table are kept as syntax and run by a
    backtracking matcher in continuation-passing style, which is how
    ECMAScript defines pattern matching: greedy quantifiers, ordered
    alternatives, and an iteration of [*] that consumes nothing is refused. *)

Module Regex.
Import JsString.

Inductive regex : Type :=
| Empty                              (* the empty pattern *)
| Class (p : ascii -> bool)          (* one code unit of a class *)
| Seq (r1 r2 : regex)                (* r1 r2 *)
| Alt (r1 r2 : regex)                (* r1|r2 *)
| Star (r : regex)                   (* r*, greedy *)
| NotAhead (r : regex)               (* (?!r) *)
| Bol                                (* ^ *)
| Eol                                (* $ *)
| WordBoundary.                      (* \b *)

Definition Plus (r : regex) : regex := Seq r (Star r).          (* r+ *)
Definition Opt (r : regex) : regex := Alt r Empty.              (* r? *)

(** [r{0,n}], greedy. *)
Fixpoint UpTo (n : nat) (r : regex) : regex :=
  match n with
  | O => Empty
  | S n' => Opt (Seq r (UpTo n' r))
  end.

(** [r{lo,hi}] *)
Fixpoint Repeat (lo extra : nat) (r : regex) : regex :=
  match lo with
  | O => UpTo extra r
  | S lo' => Seq r (Repeat lo' extra r)
  end.

(** A literal, and a literal under the [i] flag. *)
Fixpoint Lit (s : string) : regex :=
  match s with
  | EmptyString => Empty
  | String c s' => Seq (Class (is_char c)) (Lit s')
  end.

Definition ci_char (x : ascii) (c : ascii) : bool :=
  (code (canonicalize c) =? code (canonicalize x))%N.

Fixpoint LitI (s : string) : regex :=
  match s with
  | EmptyString => Empty
  | String c s' => Seq (Class (ci_char c)) (LitI s')
  end.

Definition isWord (o : option ascii) : bool :=
  match o with Some c => isWordChar c | None => false end.

Definition next (s : string) : option ascii :=
  match s with EmptyString => None | String c _ => Some c end.

(** The loop of a greedy [*]: try one more iteration of the body, which must
    consume something, and fall back to the continuation.  An iteration
    shortens the input, so the fuel [S (length s)] is never used up. *)
Section Iterate.
Context {A : Type}.
Variable body : option ascii -> string -> (option ascii -> string -> option A) -> option A.
Variable k : option ascii -> string -> option A.

Fixpoint iterate (fuel : nat) (prev : option ascii) (s : string) : option A :=
  match fuel with
  | O => k prev s
  | S fuel' =>
      match body prev s
              (fun prev1 s1 =>
                 if (String.length s1 <? String.length s)%nat
                 then iterate fuel' prev1 s1 else None) with
      | Some a => Some a
      | None => k prev s
      end
  end.
End Iterate.

(** [run r prev s k]: match [r] at the front of [s], where [prev] is the
    code unit just before [s] in the whole input ([None] at its start), and
    hand the position after the match to the continuation [k];
    backtrack into [r] when [k] fails. *)
Fixpoint run {A : Type} (r : regex) (prev : option ascii) (s : string)
         (k : option ascii -> string -> option A) {struct r} : option A :=
  match r with
  | Empty => k prev s
  | Class p =>
      match s with
      | String c s' => if p c then k (Some c) s' else None
      | EmptyString => None
      end
  | Seq r1 r2 => run r1 prev s (fun prev1 s1 => run r2 prev1 s1 k)
  | Alt r1 r2 =>
      match run r1 prev s k with
      | Some a => Some a
      | None => run r2 prev s k
      end
  | Star r1 => iterate (run r1) k (S (String.length s)) prev s
  | NotAhead r1 =>
      match run r1 prev s (fun _ _ => Some tt) with
      | Some _ => None
      | None => k prev s
      end
  | Bol => match prev with None => k prev s | Some _ => None end
  | Eol => match s with EmptyString => k prev s | String _ _ => None end
  | WordBoundary =>
      if xorb (isWord prev) (isWord (next s)) then k prev s else None
  end.

(** The first match of [r] that starts exactly here: the code unit before
    the position after it, and the rest of the input. *)
Definition matchHere (r : regex) (prev : option ascii) (s : string)
  : option (option ascii * string) :=
  run r prev s (fun prev' s' => Some (prev', s')).

(** [r.test(s)] from position [prev|s] on (the literal is evaluated afresh
    at each call, so [lastIndex] is 0 even with the [g] flag). *)
Fixpoint testFrom (r : regex) (prev : option ascii) (s : string) : bool :=
  match matchHere r prev s with
  | Some _ => true
  | None =>
      match s with
      | EmptyString => false
      | String c s' => testFrom r (Some c) s'
      end
  end.

Definition test (r : regex) (s : string) : bool := testFrom r None s.

(** [s.replace(r, by)] for a pattern with the [g] flag and a replacement
    text without [$]: every match, left to right, is replaced; after an
    empty match the scan steps over one code unit. *)
Fixpoint replaceFrom (fuel : nat) (r : regex) (by_ : string)
         (prev : option ascii) (s : string) : string :=
  match fuel with
  | O => s
  | S fuel' =>
      match matchHere r prev s with
      | Some (prev', s') =>
          if (String.length s' <? String.length s)%nat
          then by_ +:+ replaceFrom fuel' r by_ prev' s'
          else
            match s with
            | EmptyString => by_
            | String c s1 => by_ +:+ String c (replaceFrom fuel' r by_ (Some c) s1)
            end
      | None =>
          match s with
          | EmptyString => EmptyString
          | String c s1 => String c (replaceFrom fuel' r by_ (Some c) s1)
          end
      end
  end.

Definition replaceAll (r : regex) (by_ : string) (s : string) : string :=
  replaceFrom (S (String.length s)) r by_ None s.

(** The code unit before the position reached by reading [w] from a
    position that has [prev] before it. *)
Fixpoint after (prev : option ascii) (w : string) : option ascii :=
  match w with
  | EmptyString => prev
  | String c w' => after (Some c) w'
  end.

(** Every code unit of [w] is in the class [p]. *)
Fixpoint allOf (p : ascii -> bool) (w : string) : bool :=
  match w with
  | EmptyString => true
  | String c w' => p c && allOf p w'
  end.

(** [s] without the code units of the class [p]. *)
Fixpoint without (p : ascii -> bool) (s : string) : string :=
  match s with
  | EmptyString => EmptyString
  | String c s' => if p c then without p s' else String c (without p s')
  end.

(** What the matcher decides: [matches r prev s prev' s'] when [r] can match
    the front of [prev|s] and stop at [prev'|s']. *)
Inductive matches : regex -> option ascii -> string -> option ascii -> string -> Prop :=
| matches_Empty prev s : matches Empty prev s prev s
| matches_Class p c prev s : p c = true -> matches (Class p) prev (String c s) (Some c) s
| matches_Seq r1 r2 prev s prev1 s1 prev2 s2 :
    matches r1 prev s prev1 s1 -> matches r2 prev1 s1 prev2 s2 ->
    matches (Seq r1 r2) prev s prev2 s2
| matches_Alt_l r1 r2 prev s prev1 s1 :
    matches r1 prev s prev1 s1 -> matches (Alt r1 r2) prev s prev1 s1
| matches_Alt_r r1 r2 prev s prev1 s1 :
    matches r2 prev s prev1 s1 -> matches (Alt r1 r2) prev s prev1 s1
| matches_Star_stop r prev s : matches (Star r) prev s prev s
| matches_Star_more r prev s prev1 s1 prev2 s2 :
    matches r prev s prev1 s1 ->
    (String.length s1 < String.length s)%nat ->
    matches (Star r) prev1 s1 prev2 s2 ->
    matches (Star r) prev s prev2 s2
| matches_NotAhead r prev s :
    run r prev s (fun _ _ => Some tt) = None -> matches (NotAhead r) prev s prev s
| matches_Bol s : matches Bol None s None s
| matches_Eol prev : matches Eol prev EmptyString prev EmptyString
| matches_WordBoundary prev s :
    xorb (isWord prev) (isWord (next s)) = true -> matches WordBoundary prev s prev s.

End Regex.

(* ===================================================================== *)
(** ** Values, numbers, completions *)
(* ===================================================================== *)

(** A call either returns or throws. *)
Inductive exn : Type :=
| JsError (message : string)      (* [new Error(message)] *)
| TypeError (what : string).      (* raised by the runtime *)

Inductive completion (A : Type) : Type :=
| Returns (a : A)
| Throws (e : exn).
Arguments Returns {A} a.
Arguments Throws {A} e.

(** JSON-like values.  [VObj] lists the own enumerable properties. *)
Inductive value : Type :=
| VUndefined
| VNull
| VBool (b : bool)
| VNum (n : Z)
| VStr (s : string)
| VArr (items : list value)
| VObj (props : list (string * value)).

(** [!v] is [negb (truthy v)]. *)
Definition truthy (v : value) : bool :=
  match v with
  | VUndefined | VNull => false
  | VBool b => b
  | VNum n => negb (n =? 0)%Z
  | VStr s => negb (String.eqb s "")
  | VArr _ | VObj _ => true
  end.

(** [a || b] *)
Definition js_or (a b : value) : value := if truthy a then a else b.

(** The members every object literal inherits from [Object.prototype]; a
    lookup [table[key]] on an object literal reaches them when [key] is not
    an own property. *)
Definition objectPrototypeMembers : list string :=
  [ "constructor"; "__defineGetter__"; "__defineSetter__"; "hasOwnProperty";
    "__lookupGetter__"; "__lookupSetter__"; "isPrototypeOf";
    "propertyIsEnumerable"; "toString"; "valueOf"; "__proto__";
    "toLocaleString" ].

Definition inherited (key : string) : bool :=
  existsb (String.eqb key) objectPrototypeMembers.

(** [String(x)] for an inherited member [x], as the engine prints it. *)
Definition inheritedText (member : string) : string :=
  if String.eqb member "__proto__" then "[object Object]"
  else if String.eqb member "constructor" then "function Object() { [native code] }"
  else "function " +:+ member +:+ "() { [native code] }".

(** Own properties of an object value. *)
Fixpoint assoc {A : Type} (key : string) (props : list (string * A)) : option A :=
  match props with
  | [] => None
  | (k, v) :: rest => if String.eqb k key then Some v else assoc key rest
  end.

(** [obj[key] = v] on an object built from a literal: an existing property
    keeps its place, a new one comes last, and the key ["__proto__"] goes to
    the inherited setter, which creates no own property. *)
Fixpoint assign (props : list (string * value)) (key : string) (v : value)
  : list (string * value) :=
  match props with
  | [] => [(key, v)]
  | (k, w) :: rest =>
      if String.eqb k key then (k, v) :: rest else (k, w) :: assign rest key v
  end.

Definition setProperty (props : list (string * value)) (key : string) (v : value)
  : list (string * value) :=
  if String.eqb key "__proto__" then props else assign props key v.

(** [x?.key] for a key that [Object.prototype], [Array.prototype] and the
    wrappers of the primitives do not define (such as [message], [code]). *)
Definition optionalGet (x : value) (key : string) : value :=
  match x with
  | VObj props => match assoc key props with Some v => v | None => VUndefined end
  | _ => VUndefined
  end.

(** [items.map((item, index) => ...)] where the callback also updates a
    state (here: arrays it pushes to): the elements are visited in order. *)
Section MapIndexed.
Context {St A B : Type}.
Variable visit : nat -> A -> St -> B * St.

Fixpoint mapIndexed (index : nat) (items : list A) (st : St) : list B * St :=
  match items with
  | [] => ([], st)
  | item :: rest =>
      let '(item', st1) := visit index item st in
      let '(rest', st2) := mapIndexed (S index) rest st1 in
      (item' :: rest', st2)
  end.
End MapIndexed.

(** Numbers: the integers and the three values a division adds. *)
Inductive number : Type :=
| Int (z : Z)
| PosInf
| NegInf
| NaN.

Module JsMath.

(** [Math.max(a, b)] and [Math.min(a, b)] *)
Definition max (a b : number) : number :=
  match a, b with
  | NaN, _ | _, NaN => NaN
  | PosInf, _ | _, PosInf => PosInf
  | NegInf, x | x, NegInf => x
  | Int x, Int y => Int (Z.max x y)
  end.

Definition min (a b : number) : number :=
  match a, b with
  | NaN, _ | _, NaN => NaN
  | NegInf, _ | _, NegInf => NegInf
  | PosInf, x | x, PosInf => x
  | Int x, Int y => Int (Z.min x y)
  end.

(** [Math.ceil(a / b)]: the quotient of two integers is rounded up; a zero
    divisor gives an infinity or NaN. *)
Definition ceilDiv (a b : number) : number :=
  match a, b with
  | NaN, _ | _, NaN => NaN
  | Int x, Int y =>
      if (y =? 0)%Z then
        if (0 <? x)%Z then PosInf else if (x <? 0)%Z then NegInf else NaN
      else Int (- ((- x) / y))
  | Int _, (PosInf | NegInf) => Int 0
  | PosInf, Int y => if (0 <=? y)%Z then PosInf else NegInf
  | NegInf, Int y => if (0 <=? y)%Z then NegInf else PosInf
  | (PosInf | NegInf), (PosInf | NegInf) => NaN
  end.

(** [a < b] and [a > b] *)
Definition lt (a b : number) : bool :=
  match a, b with
  | NaN, _ | _, NaN => false
  | Int x, Int y => (x <? y)%Z
  | NegInf, (Int _ | PosInf) => true
  | Int _, PosInf => true
  | _, _ => false
  end.

Definition gt (a b : number) : bool := lt b a.

End JsMath.

(* ===================================================================== *)
(** ** The rule table ([sanitization-rules.ts]) *)
(* ===================================================================== *)

Module Rules.
Import JsString Regex.

(** A rule.  [transform] and [validate] are functions that return, as those
    of the built-in rules do; a custom rule whose function throws is not
    covered, and the statements about what [sanitize] and its callers throw
    are made for engines that hold built-in rules only. *)
Record SanitizationRule : Type := {
  name : string;
  pattern : option regex;
  transform : option (string -> string);
  validate : option (string -> bool);
  description : option string
}.

Inductive SecurityViolationType : Type :=
| XSS
| SQL_INJECTION
| HTML_INJECTION
| SCRIPT_INJECTION
| PATH_TRAVERSAL
| COMMAND_INJECTION.

Inductive Severity : Type := low | medium | high | critical.

(** What [typeMap[ruleName] || XSS] evaluates to: a member of the
    enumeration, or a member inherited from [Object.prototype]. *)
Inductive ViolationType : Type :=
| Enum (t : SecurityViolationType)
| Inherited (member : string).

Fixpoint oneOf (set : string) (c : ascii) : bool :=
  match set with
  | EmptyString => false
  | String x set' => is_char x c || oneOf set' c
  end.

Definition noneOf (set : string) (c : ascii) : bool := negb (oneOf set c).

Definition lowerLetter : ascii -> bool := in_range 97 122.
Definition upperLetter : ascii -> bool := in_range 65 90.
Definition alnum (c : ascii) : bool := lowerLetter c || upperLetter c || isDigit c.

Definition anyOf (rs : list regex) : regex :=
  match rs with
  | [] => Empty
  | r :: rest => fold_left Alt rest r
  end.

(** /<[^>]*>/ *)
Definition htmlPattern : regex :=
  Seq (Lit "<") (Seq (Star (Class (noneOf ">"))) (Lit ">")).

(** /<script\b[^<]* (?:(?!<\/script>)<[^<]* )* <\/script>/gi (spaces added
    between the pieces) *)
Definition scriptClose : regex := LitI "</script>".
Definition scriptInner : regex :=
  Seq (NotAhead scriptClose) (Seq (Class (is_char "<")) (Star (Class (noneOf "<")))).
Definition scriptPattern : regex :=
  Seq (LitI "<script")
    (Seq WordBoundary
       (Seq (Star (Class (noneOf "<")))
          (Seq (Star scriptInner) scriptClose))).

(** /(\b(ALTER|CREATE|DELETE|DROP|EXEC(UTE)?|INSERT|SELECT|UNION|UPDATE)\b)/gi *)
Definition sqlPattern : regex :=
  Seq WordBoundary
    (Seq (anyOf [ LitI "ALTER"; LitI "CREATE"; LitI "DELETE"; LitI "DROP";
                  Seq (LitI "EXEC") (Opt (LitI "UTE"));
                  LitI "INSERT"; LitI "SELECT"; LitI "UNION"; LitI "UPDATE" ])
       WordBoundary).

(** /(javascript:|vbscript:|onload|onerror|onclick|onmouseover)/gi *)
Definition xssPattern : regex :=
  anyOf [ LitI "javascript:"; LitI "vbscript:"; LitI "onload";
          LitI "onerror"; LitI "onclick"; LitI "onmouseover" ].

(** /^[^\s@]+@[^\s@]+\.[^\s@]+$/ *)
Definition emailLocal (c : ascii) : bool := negb (isWhiteSpace c || is_char "@" c).
Definition emailPattern : regex :=
  Seq Bol
    (Seq (Plus (Class emailLocal))
       (Seq (Lit "@")
          (Seq (Plus (Class emailLocal))
             (Seq (Lit ".") (Seq (Plus (Class emailLocal)) Eol))))).

(** /[\s\-\(\)]/g and /^\+?[\d]+$/ *)
Definition phoneFormatting (c : ascii) : bool := isWhiteSpace c || oneOf "-()" c.
Definition phoneDigits : regex :=
  Seq Bol (Seq (Opt (Lit "+")) (Seq (Plus (Class isDigit)) Eol)).
(** /^\+?[\d\s\-\(\)]+$/ *)
Definition phonePattern : regex :=
  Seq Bol
    (Seq (Opt (Lit "+"))
       (Seq (Plus (Class (fun c => isDigit c || phoneFormatting c))) Eol)).

(** /^https?:\/\/(www\.)?[-a-zA-Z0-9@:%._\+~#=]{1,256}\.[a-zA-Z0-9()]{1,6}\b
    ([-a-zA-Z0-9()@:%_\+.~#?&//=]* )$/ (spaces added between the pieces) *)
Definition urlPattern : regex :=
  Seq Bol
    (Seq (Lit "http")
       (Seq (Opt (Lit "s"))
          (Seq (Lit "://")
             (Seq (Opt (Lit "www."))
                (Seq (Repeat 1 255 (Class (fun c => alnum c || oneOf "-@:%._+~#=" c)))
                   (Seq (Lit ".")
                      (Seq (Repeat 1 5 (Class (fun c => alnum c || oneOf "()" c)))
                         (Seq WordBoundary
                            (Seq (Star (Class (fun c => alnum c || oneOf "-()@:%_+.~#?&/=" c)))
                               Eol))))))))).

(** /(\.\.[\/\\]|\.\.%2f|\.\.%5c)/gi *)
Definition pathTraversalPattern : regex :=
  anyOf [ Seq (Lit "..") (Class (oneOf "/\")); LitI "..%2f"; LitI "..%5c" ].

(** /[;&|`$(){}[\]]/g *)
Definition commandChars (c : ascii) : bool := oneOf ";&|`$(){}[]" c.
Definition commandPattern : regex := Class commandChars.

Definition html : SanitizationRule := {|
  name := "html";
  pattern := Some htmlPattern;
  transform := Some (fun value => replaceAll htmlPattern "" value);
  validate := Some (fun value => negb (test htmlPattern value));
  description := Some "Removes HTML tags from input" |}.

Definition script : SanitizationRule := {|
  name := "script";
  pattern := Some scriptPattern;
  transform := Some (fun value => replaceAll scriptPattern "" value);
  validate := Some (fun value => negb (test scriptPattern value));
  description := Some "Removes script tags to prevent XSS" |}.

Definition sql : SanitizationRule := {|
  name := "sql";
  pattern := Some sqlPattern;
  transform := None;
  validate := Some (fun value => negb (test sqlPattern value));
  description := Some "Detects potential SQL injection patterns" |}.

Definition xss : SanitizationRule := {|
  name := "xss";
  pattern := Some xssPattern;
  transform := Some (fun value => replaceAll xssPattern "" value);
  validate := Some (fun value => negb (test xssPattern value));
  description := Some "Removes common XSS attack vectors" |}.

Definition trim : SanitizationRule := {|
  name := "trim";
  pattern := None;
  transform := Some (fun value => JsString.trim value);
  validate := Some (fun _ => true);
  description := Some "Removes leading and trailing whitespace" |}.

Definition email_normalize : SanitizationRule := {|
  name := "email-normalize";
  pattern := Some emailPattern;
  transform := Some (fun value => JsString.trim (toLowerCase value));
  validate := Some (fun value => test emailPattern value);
  description := Some "Normalizes email addresses to lowercase" |}.

Definition phone_normalize : SanitizationRule := {|
  name := "phone-normalize";
  pattern := Some phonePattern;
  transform := Some (fun value => replaceAll (Class phoneFormatting) "" value);
  validate := Some (fun value =>
                      test phoneDigits (replaceAll (Class phoneFormatting) "" value));
  description := Some "Normalizes phone numbers by removing formatting" |}.

Definition url_validate : SanitizationRule := {|
  name := "url-validate";
  pattern := Some urlPattern;
  transform := None;
  validate := Some (fun value => test urlPattern value);
  description := Some "Validates URL format" |}.

Definition path_traversal : SanitizationRule := {|
  name := "path-traversal";
  pattern := Some pathTraversalPattern;
  transform := None;
  validate := Some (fun value => negb (test pathTraversalPattern value));
  description := Some "Detects path traversal attempts" |}.

Definition command_injection : SanitizationRule := {|
  name := "command-injection";
  pattern := Some commandPattern;
  transform := Some (fun value => replaceAll commandPattern "" value);
  validate := Some (fun value => negb (test commandPattern value));
  description := Some "Removes command injection characters" |}.

(** [Object.values(DEFAULT_SANITIZATION_RULES)], in the order of the literal. *)
Definition DEFAULT_SANITIZATION_RULES : list SanitizationRule :=
  [ html; script; sql; xss; trim; email_normalize; phone_normalize;
    url_validate; path_traversal; command_injection ].

(** The own properties of [typeMap]. *)
Definition typeMap : list (string * SecurityViolationType) :=
  [ ("html", HTML_INJECTION);
    ("script", SCRIPT_INJECTION);
    ("xss", XSS);
    ("sql", SQL_INJECTION);
    ("path-traversal", PATH_TRAVERSAL);
    ("command-injection", COMMAND_INJECTION) ].

(** [typeMap[ruleName] || SecurityViolationType.XSS] *)
Definition getSecurityViolationType (ruleName : string) : ViolationType :=
  match assoc ruleName typeMap with
  | Some t => Enum t
  | None => if inherited ruleName then Inherited ruleName else Enum XSS
  end.

Definition severityMap (t : SecurityViolationType) : Severity :=
  match t with
  | XSS => high
  | SQL_INJECTION => critical
  | HTML_INJECTION => medium
  | SCRIPT_INJECTION => critical
  | PATH_TRAVERSAL => high
  | COMMAND_INJECTION => critical
  end.

(** [severityMap[violationType] || 'medium']: the six members of the
    enumeration are own keys; any other value is turned into a property
    key that the table does not have. *)
Definition getViolationSeverity (violationType : ViolationType) : Severity :=
  match violationType with
  | Enum t => severityMap t
  | Inherited _ => medium
  end.

(** The text of a violation type in a template literal or a [join]. *)
Definition typeText (t : ViolationType) : string :=
  match t with
  | Enum XSS => "XSS"
  | Enum SQL_INJECTION => "SQL_INJECTION"
  | Enum HTML_INJECTION => "HTML_INJECTION"
  | Enum SCRIPT_INJECTION => "SCRIPT_INJECTION"
  | Enum PATH_TRAVERSAL => "PATH_TRAVERSAL"
  | Enum COMMAND_INJECTION => "COMMAND_INJECTION"
  | Inherited member => inheritedText member
  end.

End Rules.

(* ===================================================================== *)
(** ** The sanitization engine ([class SanitizationEngine]) *)
(* ===================================================================== *)

Module SanitizationEngine.
Import JsString Rules.

Record SanitizationConfig : Type := {
  enabled : bool;
  rules : list string;
  customRules : list SanitizationRule;
  strictMode : bool;
  logViolations : bool;
  rejectOnViolation : bool       (* optional; absent is falsy *)
}.

Record SecurityViolation : Type := {
  type : ViolationType;
  field : string;
  originalValue : string;
  sanitizedValue : string;
  rule : string;
  severity : Severity
}.

Record SanitizationResult : Type := {
  sanitized : value;
  violations : list string;
  appliedRules : list string
}.

(** The two arrays that [sanitize] creates and that the traversal fills by
    [push]: [violations] and [appliedRules]. *)
Record Collected : Type := {
  found : list SecurityViolation;
  applied : list string
}.

Definition nothing : Collected := {| found := []; applied := [] |}.

(** The instance: its configuration, the external HTML sanitizer called
    with [ALLOWED_TAGS: []] and [ALLOWED_ATTR: []], and the two maps. *)
Record Engine : Type := {
  config : SanitizationConfig;
  purify : string -> string;
  rulesCache : gmap string SanitizationRule;
  compiledRulesCache : gmap string (list SanitizationRule)
}.

Definition withRules (c : SanitizationConfig) (names : list string) : SanitizationConfig :=
  {| enabled := enabled c; rules := names; customRules := customRules c;
     strictMode := strictMode c; logViolations := logViolations c;
     rejectOnViolation := rejectOnViolation c |}.

Definition register (m : gmap string SanitizationRule) (r : SanitizationRule)
  : gmap string SanitizationRule := <[name r := r]> m.

(** [initializeRules] *)
Definition initializeRules (c : SanitizationConfig) : gmap string SanitizationRule :=
  fold_left register (customRules c) (fold_left register DEFAULT_SANITIZATION_RULES ∅).

(** [new SanitizationEngine(config)] *)
Definition create (c : SanitizationConfig) (purifier : string -> string) : Engine :=
  {| config := c; purify := purifier;
     rulesCache := initializeRules c; compiledRulesCache := ∅ |}.

(** One turn of the loop of [sanitizeString]. *)
Definition applyRule (purifier : string -> string) (fieldPath : string)
           (st : string * Collected) (r : SanitizationRule) : string * Collected :=
  let '(sanitized0, acc) := st in
  let originalValue := sanitized0 in
  let found1 :=
    match validate r with
    | Some check =>
        if negb (check sanitized0) then
          let violationType := getSecurityViolationType (name r) in
          found acc ++ [ {| type := violationType;
                            field := fieldPath;
                            originalValue := originalValue;
                            sanitizedValue := sanitized0;
                            rule := name r;
                            severity := getViolationSeverity violationType |} ]
        else found acc
    | None => found acc
    end in
  let '(sanitized1, applied1) :=
    match transform r with
    | Some change =>
        let changed := change sanitized0 in
        (changed,
         if negb (String.eqb changed originalValue)
         then applied acc ++ [name r] else applied acc)
    | None => (sanitized0, applied acc)
    end in
  let sanitized2 :=
    if String.eqb (name r) "html" && includes "<" sanitized1
    then purifier sanitized1 else sanitized1 in
  (sanitized2, {| found := found1; applied := applied1 |}).

Definition sanitizeString (purifier : string -> string) (v : string)
           (compiled : list SanitizationRule) (fieldPath : string) (acc : Collected)
  : string * Collected :=
  fold_left (applyRule purifier fieldPath) compiled (v, acc).

Definition indexPath (fieldPath : string) (index : nat) : string :=
  fieldPath +:+ "[" +:+ ofIndex index +:+ "]".

Definition keyPath (fieldPath key : string) : string :=
  if negb (String.eqb fieldPath "") then fieldPath +:+ "." +:+ key else key.

Fixpoint sanitizeValue (purifier : string -> string) (v : value)
         (compiled : list SanitizationRule) (fieldPath : string) (acc : Collected)
         {struct v} : value * Collected :=
  match v with
  | VUndefined | VNull => (v, acc)
  | VStr s =>
      let '(s', acc') := sanitizeString purifier s compiled fieldPath acc in
      (VStr s', acc')
  | VArr items =>
      let '(items', acc') :=
        mapIndexed
          (fun index item acc0 =>
             sanitizeValue purifier item compiled (indexPath fieldPath index) acc0)
          O items acc in
      (VArr items', acc')
  | VObj props =>
      let '(sanitizedObj, acc') :=
        fold_left
          (fun '(sanitizedObj, acc0) '(key, val) =>
             let newFieldPath := keyPath fieldPath key in
             let '(val', acc1) :=
               sanitizeValue purifier val compiled newFieldPath acc0 in
             (setProperty sanitizedObj key val', acc1))
          props ([], acc) in
      (VObj sanitizedObj, acc')
  | VBool _ | VNum _ => (v, acc)
  end.

(** The argument [rules] of [sanitize]: left out (the default is the array
    [this.config.rules] itself), or an array of the caller. *)
Inductive RulesArg : Type :=
| ConfigRules
| Array (names : list string).

(** What a call of [sanitize] leaves behind and hands back: the instance,
    the array that was passed for [rules], what went to [console.warn], and
    the completion. *)
Record Outcome : Type := {
  engine : Engine;
  rulesAfter : list string;
  warned : option (list SecurityViolation);
  result : completion SanitizationResult
}.

(** [rules.map(ruleName => this.rulesCache.get(ruleName)).filter(rule => rule !== undefined)] *)
Definition resolve (registry : gmap string SanitizationRule) (names : list string)
  : list SanitizationRule :=
  omap (fun ruleName => registry !! ruleName) names.

Definition rejection (vs : list SecurityViolation) : exn :=
  JsError ("Sanitization violations detected: " +:+
           join ", " (map (fun v => typeText (type v)) vs)).

Definition report (v : SecurityViolation) : string :=
  field v +:+ ": " +:+ typeText (type v).

(** The part of [sanitize] after the rule set has been compiled. *)
Definition runCompiled (c : SanitizationConfig) (purifier : string -> string)
           (compiled : list SanitizationRule) (data : value)
  : option (list SecurityViolation) * completion SanitizationResult :=
  let '(sanitizedData, acc) := sanitizeValue purifier data compiled "" nothing in
  let some := negb (Nat.eqb (List.length (found acc)) 0) in
  if strictMode c && some && rejectOnViolation c
  then (None, Throws (rejection (found acc)))
  else
    (if logViolations c && some then Some (found acc) else None,
     Returns {| sanitized := sanitizedData;
                violations := map report (found acc);
                appliedRules := applied acc |}).

Definition sanitize (e : Engine) (data : value) (rulesArg : RulesArg) : Outcome :=
  let passed := match rulesArg with ConfigRules => rules (config e) | Array names => names end in
  (* [rules.sort()] sorts the array that was passed, in place *)
  let sortedRules := JsString.sort passed in
  let config' :=
    match rulesArg with
    | ConfigRules => withRules (config e) sortedRules
    | Array _ => config e
    end in
  let cacheKey := join "," sortedRules in
  let '(compiledRules, cache') :=
    match compiledRulesCache e !! cacheKey with
    | Some cached => (cached, compiledRulesCache e)
    | None =>
        let fresh := resolve (rulesCache e) sortedRules in
        (fresh, <[cacheKey := fresh]> (compiledRulesCache e))
    end in
  let '(log, completion) := runCompiled config' (purify e) compiledRules data in
  {| engine := {| config := config'; purify := purify e;
                  rulesCache := rulesCache e; compiledRulesCache := cache' |};
     rulesAfter := sortedRules;
     warned := log;
     result := completion |}.

(** [addCustomRule], [removeRule] *)
Definition addCustomRule (e : Engine) (r : SanitizationRule) : Engine :=
  {| config := config e; purify := purify e;
     rulesCache := <[name r := r]> (rulesCache e); compiledRulesCache := ∅ |}.

Definition removeRule (e : Engine) (ruleName : string) : Engine :=
  {| config := config e; purify := purify e;
     rulesCache := delete ruleName (rulesCache e); compiledRulesCache := ∅ |}.

(** [validateConfig] *)
Definition available (e : Engine) (ruleName : string) : bool :=
  match rulesCache e !! ruleName with Some _ => true | None => false end.

Definition validateConfig (e : Engine) (c : SanitizationConfig) : completion bool :=
  let invalidRules := List.filter (fun r => negb (available e r)) (rules c) in
  if negb (Nat.eqb (List.length invalidRules) 0)
  then Throws (JsError ("Invalid sanitization rules: " +:+ join ", " invalidRules))
  else Returns true.

(** The sanitizer the test suite puts in place of DOMPurify:
    [html.replace(/<[^>]*>/g, '')] *)
Definition mockPurify (html : string) : string := Regex.replaceAll htmlPattern "" html.

End SanitizationEngine.

(* ===================================================================== *)
(** ** The normalization engine ([class NormalizationEngine]) *)
(* ===================================================================== *)

Module NormalizationEngine.
Import JsString.

Inductive Format : Type := FormatMinimal | FormatStandard | FormatDetailed.
Inductive ErrorFormat : Type := ErrorSimple | ErrorStandard | ErrorDetailed.

Record NormalizationConfig : Type := {
  enabled : bool;
  format : Format;
  includeMetadata : bool;
  errorFormat : ErrorFormat;
  includeDebugInfo : bool;       (* optional; absent is falsy *)
  compressResponses : bool;      (* optional; never read *)
  includeLinks : bool            (* optional; absent is falsy *)
}.

Record Links : Type := {
  first : option string;
  prev : option string;
  next : option string;
  last : option string
}.

Record PaginationMeta : Type := {
  page : number;
  limit : number;
  total : number;
  totalPages : number;
  hasNext : bool;
  hasPrev : bool;
  links : option Links
}.

Record ResponseMetadata : Type := {
  timestamp : string;
  requestId : string;
  version : string;
  processingTime : option Z;
  server : option string;
  nodeVersion : option string
}.

(** A field of type [option] is a key that may be absent. *)
Record SuccessResponse (T : Type) : Type := {
  success : bool;
  data : T;
  metadata : option ResponseMetadata;
  pagination : option PaginationMeta
}.
Arguments success {T} _.
Arguments data {T} _.
Arguments metadata {T} _.
Arguments pagination {T} _.

(** [causesMap[errorCode] || [...]]: a list of the table, or a member
    inherited from [Object.prototype]. *)
Inductive Causes : Type :=
| CauseList (causes : list string)
| CauseInherited (member : string).

Record ErrorBody : Type := {
  code : value;
  message : value;
  details : option value;
  errorTimestamp : string;         (* the key [timestamp] *)
  errorRequestId : string;         (* the key [requestId] *)
  stack : option string;
  helpUrl : option string;
  possibleCauses : option Causes
}.

Record ErrorResponse : Type := {
  failure : bool;                (* the key [success], which is [false] *)
  error : ErrorBody;
  errorMetadata : ResponseMetadata (* the key [metadata] *)
}.

Record RequestContext : Type := {
  contextRequestId : string;     (* the key [requestId] *)
  contextTimestamp : Z;          (* the key [timestamp], a [Date] *)
  startTime : Z;
  userAgent : option string;
  ip : option string
}.

(** What the engine reads from the runtime: the clock ([now n] is its
    [n]-th reading, in milliseconds), the ISO text of an instant,
    [process.env.NODE_ENV] and [process.version]. *)
Record Host : Type := {
  now : nat -> Z;
  toISOString : Z -> string;
  NODE_ENV : option string;
  processVersion : string
}.

(** The argument [error]: an instance of [Error], or any other value. *)
Inductive Thrown : Type :=
| ErrorObject (name message : string) (stackText : option string)
| Plain (v : value).

Section Engine.
Variable host : Host.
Variable config : NormalizationConfig.

(** [createMetadata]; [tick] counts the readings of the clock. *)
Definition createMetadata (context : RequestContext) (tick : nat)
  : ResponseMetadata * nat :=
  let '(processing, tick1) :=
    if negb (startTime context =? 0)%Z
    then (Some (now host tick - startTime context)%Z, S tick)
    else (None, tick) in
  ({| timestamp := toISOString host (now host tick1);
      requestId := contextRequestId context;
      version := "v1";
      processingTime := if includeMetadata config then processing else None;
      server := None;
      nodeVersion := None |},
   S tick1).

(** [normalizePagination] *)
Definition normalizePagination (p : PaginationMeta) : PaginationMeta :=
  {| page := JsMath.max (Int 1) (page p);
     limit := JsMath.max (Int 1) (JsMath.min (Int 100) (limit p));
     total := JsMath.max (Int 0) (total p);
     totalPages := JsMath.max (Int 1) (JsMath.ceilDiv (total p) (limit p));
     hasNext := JsMath.lt (page p) (JsMath.ceilDiv (total p) (limit p));
     hasPrev := JsMath.gt (page p) (Int 1);
     links := if includeLinks config then links p else None |}.

(** [process.env.NODE_ENV || 'development'] *)
Definition serverLabel : string :=
  match NODE_ENV host with
  | Some env => if String.eqb env "" then "development" else env
  | None => "development"
  end.

Definition detailedMetadata (m : ResponseMetadata) : ResponseMetadata :=
  {| timestamp := timestamp m; requestId := requestId m; version := version m;
     processingTime := processingTime m;
     server := Some serverLabel;
     nodeVersion := Some (processVersion host) |}.

(** [applyFormatting] *)
Definition applyFormatting {T : Type} (response : SuccessResponse T) : SuccessResponse T :=
  match format config with
  | FormatMinimal =>
      {| success := success response; data := data response;
         metadata := None; pagination := None |}
  | FormatDetailed =>
      {| success := success response; data := data response;
         metadata := option_map detailedMetadata (metadata response);
         pagination := pagination response |}
  | FormatStandard => response
  end.

(** [normalizeSuccess] *)
Definition normalizeSuccess {T : Type} (payload : T) (context : RequestContext)
           (paging : option PaginationMeta) : SuccessResponse T :=
  let '(meta, _) := createMetadata context O in
  applyFormatting
    {| success := true; data := payload; metadata := Some meta;
       pagination := option_map normalizePagination paging |}.

(** [isSensitiveField] *)
Definition sensitiveFields : list string :=
  [ "password"; "token"; "secret"; "key"; "authorization"; "auth";
    "credential"; "ssn"; "social"; "credit"; "card" ].

Definition isSensitiveField (fieldName : string) : bool :=
  existsb (fun field => includes field (toLowerCase fieldName)) sensitiveFields.

(** [sanitizeErrorDetails] *)
Fixpoint sanitizeErrorDetails (d : value) {struct d} : value :=
  if negb (truthy d) then VUndefined
  else
    match d with
    | VStr _ => d
    | VArr items => VArr (List.map sanitizeErrorDetails items)
    | VObj props =>
        VObj
          (fold_left
             (fun sanitized '(key, val) =>
                if isSensitiveField key
                then setProperty sanitized key (VStr "[REDACTED]")
                else setProperty sanitized key (sanitizeErrorDetails val))
             props [])
    | _ => d
    end.

(** [generateHelpUrl] *)
Definition generateHelpUrl (errorCode : string) : string :=
  "https://docs.example.com/errors" +:+ "/" +:+ toLowerCase errorCode.

(** [getPossibleCauses] *)
Definition causesMap : list (string * list string) :=
  [ ("VALIDATION_ERROR",
     [ "Invalid input format"; "Missing required fields";
       "Field length constraints violated" ]);
    ("AUTHENTICATION_ERROR",
     [ "Invalid credentials"; "Expired token"; "Insufficient permissions" ]);
    ("NOT_FOUND",
     [ "Resource does not exist"; "Incorrect resource ID";
       "Resource has been deleted" ]);
    ("INTERNAL_ERROR",
     [ "Server configuration issue"; "Database connection problem";
       "Third-party service unavailable" ]) ].

Definition getPossibleCauses (errorCode : string) : Causes :=
  match assoc errorCode causesMap with
  | Some causes => CauseList causes
  | None =>
      if inherited errorCode then CauseInherited errorCode
      else CauseList ["Unknown error cause"]
  end.

(** [applyErrorFormatting] *)
Definition applyErrorFormatting (response : ErrorResponse) : completion ErrorResponse :=
  match errorFormat config with
  | ErrorSimple =>
      Returns
        {| failure := false;
           error := {| code := code (error response);
                       message := message (error response);
                       details := None;
                       errorTimestamp := errorTimestamp (error response);
                       errorRequestId := errorRequestId (error response);
                       stack := None; helpUrl := None; possibleCauses := None |};
           errorMetadata := errorMetadata response |}
  | ErrorDetailed =>
      match code (error response) with
      | VStr c =>
          Returns
            {| failure := failure response;
               error := {| code := code (error response);
                           message := message (error response);
                           details := details (error response);
                           errorTimestamp := errorTimestamp (error response);
                           errorRequestId := errorRequestId (error response);
                           stack := stack (error response);
                           helpUrl := Some (generateHelpUrl c);
                           possibleCauses := Some (getPossibleCauses c) |};
               errorMetadata := detailedMetadata (errorMetadata response) |}
      | _ =>
          (* [errorCode.toLowerCase()] on a value that is not a string *)
          Throws (TypeError "errorCode.toLowerCase is not a function")
      end
  | ErrorStandard => Returns response
  end.

Definition codeParam (c : option string) : value :=
  match c with Some s => VStr s | None => VUndefined end.

(** [normalizeError], with the argument [code] as it is at run time: any
    value (the type [string] is erased, and the callers of the repository
    pass [error.code]). *)
Definition normalizeErrorWith (thrown : Thrown) (context : RequestContext)
           (code : value) (detailsArg : value) : completion ErrorResponse :=
  let '(meta, tick) := createMetadata context O in
  let stamp := toISOString host (now host tick) in
  let '(errorMessage, errorCode, stackTrace) :=
    match thrown with
    | ErrorObject name msg stackText =>
        (VStr msg,
         js_or code (js_or (VStr name) (VStr "INTERNAL_ERROR")),
         if includeDebugInfo config then stackText else None)
    | Plain (VStr text) =>
        (VStr text, js_or code (VStr "VALIDATION_ERROR"), None)
    | Plain other =>
        (js_or (optionalGet other "message") (VStr "An unexpected error occurred"),
         js_or code (js_or (optionalGet other "code") (VStr "UNKNOWN_ERROR")),
         None)
    end in
  applyErrorFormatting
    {| failure := false;
       error := {| code := errorCode;
                   message := errorMessage;
                   details := Some (sanitizeErrorDetails detailsArg);
                   errorTimestamp := stamp;
                   errorRequestId := contextRequestId context;
                   stack := match stackTrace with
                            | Some text => if String.eqb text "" then None else Some text
                            | None => None
                            end;
                   helpUrl := None; possibleCauses := None |};
       errorMetadata := meta |}.

(** [normalizeError] for a caller that keeps to the declared type of [code]:
    a string, or nothing. *)
Definition normalizeError (thrown : Thrown) (context : RequestContext)
           (codeArg : option string) (detailsArg : value) : completion ErrorResponse :=
  normalizeErrorWith thrown context (codeParam codeArg) detailsArg.

End Engine.

End NormalizationEngine.

(* ===================================================================== *)
(** ** The NestJS pipe ([class SanitizationPipe]) *)
(* ===================================================================== *)

Module SanitizationPipe.
Import JsString.

(** [SanitizationOptions]: every key is optional. *)
Record SanitizationOptions : Type := {
  rules : option (list string);
  customRules : option (list string);
  strictMode : option bool
}.

(** The object injected as [config]: the one the engine was built with (as
    the module provides it), or another one. *)
Inductive ConfigObject : Type :=
| EngineConfig
| OtherConfig (c : SanitizationEngine.SanitizationConfig).

Record Pipe : Type := {
  sanitizationEngine : SanitizationEngine.Engine;
  config : ConfigObject;
  options : option SanitizationOptions
}.

(** [this.config] *)
Definition configOf (p : Pipe) : SanitizationEngine.SanitizationConfig :=
  match config p with
  | EngineConfig => SanitizationEngine.config (sanitizationEngine p)
  | OtherConfig c => c
  end.

(** The body of the [BadRequestException] that the pipe throws. *)
Record BadRequest : Type := {
  message : string;
  violations : option (list string);
  error : option string;
  code : string
}.

(** How the promise that [transform] returns settles. *)
Inductive Settled : Type :=
| Resolved (v : value)
| BadRequestException (body : BadRequest).

(** [error.message] of what the engine throws. *)
Definition messageOf (e : exn) : string :=
  match e with
  | JsError text => text
  | TypeError text => text
  end.

(** [this.options?.rules] *)
Definition optionRules (p : Pipe) : option (list string) :=
  match options p with
  | Some o => rules o
  | None => None
  end.

(** [const rules = this.options?.rules || this.config.rules] *)
Definition rulesArgument (p : Pipe) : SanitizationEngine.RulesArg :=
  match optionRules p with
  | Some names => SanitizationEngine.Array names
  | None =>
      match config p with
      | EngineConfig => SanitizationEngine.ConfigRules
      | OtherConfig c => SanitizationEngine.Array (SanitizationEngine.rules c)
      end
  end.

(** The pipe after the engine has sorted, in place, the array it was
    given. *)
Definition afterCall (p : Pipe) (out : SanitizationEngine.Outcome) : Pipe :=
  {| sanitizationEngine := SanitizationEngine.engine out;
     config :=
       match optionRules p, config p with
       | None, OtherConfig c =>
           OtherConfig (SanitizationEngine.withRules c (SanitizationEngine.rulesAfter out))
       | _, object => object
       end;
     options :=
       match options p with
       | Some o =>
           match rules o with
           | Some _ =>
               Some {| rules := Some (SanitizationEngine.rulesAfter out);
                       customRules := customRules o;
                       strictMode := strictMode o |}
           | None => Some o
           end
       | None => None
       end |}.

(** [transform] *)
Definition transform (p : Pipe) (v : value) : Pipe * Settled :=
  if negb (SanitizationEngine.enabled (configOf p)) then (p, Resolved v)
  else
    match v with
    | VNull | VUndefined => (p, Resolved v)
    | _ =>
        let out := SanitizationEngine.sanitize (sanitizationEngine p) v (rulesArgument p) in
        (afterCall p out,
         match SanitizationEngine.result out with
         | Returns r =>
             if SanitizationEngine.strictMode (configOf p)
                && negb (Nat.eqb (List.length (SanitizationEngine.violations r)) 0)
             then BadRequestException
                    {| message := "Input validation failed";
                       violations := Some (SanitizationEngine.violations r);
                       error := None;
                       code := "SANITIZATION_VIOLATION" |}
             else Resolved (SanitizationEngine.sanitized r)
         | Throws thrown =>
             BadRequestException
               {| message := "Input sanitization failed";
                  violations := None;
                  error := Some (messageOf thrown);
                  code := "SANITIZATION_ERROR" |}
         end)
    end.

End SanitizationPipe.

(* ===================================================================== *)
(** ** The Express middleware ([createSanitizationMiddleware]) *)
(* ===================================================================== *)

Module ExpressSanitization.
Import JsString.

(** [ExpressSanitizationOptions]: every key is optional; of [onViolation]
    the model keeps whether it is given, and records its calls. *)
Record ExpressSanitizationOptions : Type := {
  sanitizeBody : option bool;
  sanitizeQuery : option bool;
  sanitizeParams : option bool;
  sanitizeHeaders : option bool;
  rules : option (list string);
  onViolation : bool
}.

(** A default of the destructuring: it is taken when the key is absent. *)
Definition orDefault (given : option bool) (default : bool) : bool :=
  match given with
  | Some b => b
  | None => default
  end.

(** What the middleware reads and writes of the request. *)
Record Request : Type := {
  body : value;
  query : value;
  params : value;
  headers : list (string * value)
}.

Record ErrorJson : Type := {
  code : string;
  message : string;
  violations : option (list string);
  timestamp : string;
  requestId : value
}.

Record Body : Type := {
  success : bool;
  error : ErrorJson
}.

(** The middleware ends with [next()] or with [res.status(...).json(...)];
    the continuation [next] and the callback [onViolation] are taken to
    return. *)
Inductive Reply : Type :=
| Next
| Json (status : Z) (json : Body).

(** What the returned function closes over: the engine, the options and
    the array bound to [rules]. *)
Record Middleware : Type := {
  sanitizationEngine : SanitizationEngine.Engine;
  options : ExpressSanitizationOptions
}.

(** [createSanitizationMiddleware(config, options)] *)
Definition createSanitizationMiddleware (config : SanitizationEngine.SanitizationConfig)
           (purifier : string -> string) (given : ExpressSanitizationOptions) : Middleware :=
  {| sanitizationEngine := SanitizationEngine.create config purifier;
     options := given |}.

(** [rules = config.rules]: the array of the options, or the array
    [config.rules] itself, which is the one the engine holds. *)
Definition rulesArgument (m : Middleware) : SanitizationEngine.RulesArg :=
  match rules (options m) with
  | Some names => SanitizationEngine.Array names
  | None => SanitizationEngine.ConfigRules
  end.

(** The state inside the [try] block. *)
Record Progress : Type := {
  closure : Middleware;
  request : Request;
  hasViolations : bool;
  allViolations : list string
}.

(** A step of the [try] block goes on, or an exception reaches [catch]. *)
Inductive Try : Type :=
| Going (st : Progress)
| Caught (st : Progress).

Definition andThen (t : Try) (step : Progress -> Try) : Try :=
  match t with
  | Going st => step st
  | Caught st => Caught st
  end.

Notation "t >>> step" := (andThen t step) (at level 50, left associativity).

(** The closure after the engine has sorted, in place, the array bound to
    [rules]. *)
Definition afterCall (m : Middleware) (out : SanitizationEngine.Outcome) : Middleware :=
  {| sanitizationEngine := SanitizationEngine.engine out;
     options :=
       match rules (options m) with
       | Some _ =>
           {| sanitizeBody := sanitizeBody (options m);
              sanitizeQuery := sanitizeQuery (options m);
              sanitizeParams := sanitizeParams (options m);
              sanitizeHeaders := sanitizeHeaders (options m);
              rules := Some (SanitizationEngine.rulesAfter out);
              onViolation := onViolation (options m) |}
       | None => options m
       end |}.

(** [const result = sanitizationEngine.sanitize(data, rules)], the
    assignment [store] of [result.sanitized], and the [push] of the
    violations. *)
Definition sanitizePart (data : value) (store : Request -> value -> Request)
           (st : Progress) : Try :=
  let out := SanitizationEngine.sanitize (sanitizationEngine (closure st)) data
               (rulesArgument (closure st)) in
  match SanitizationEngine.result out with
  | Throws _ =>
      Caught {| closure := afterCall (closure st) out;
                request := request st;
                hasViolations := hasViolations st;
                allViolations := allViolations st |}
  | Returns r =>
      let some := negb (Nat.eqb (List.length (SanitizationEngine.violations r)) 0) in
      Going {| closure := afterCall (closure st) out;
               request := store (request st) (SanitizationEngine.sanitized r);
               hasViolations := if some then true else hasViolations st;
               allViolations :=
                 if some then allViolations st ++ SanitizationEngine.violations r
                 else allViolations st |}
  end.

Definition storeBody (req : Request) (v : value) : Request :=
  {| body := v; query := query req; params := params req; headers := headers req |}.

Definition storeQuery (req : Request) (v : value) : Request :=
  {| body := body req; query := v; params := params req; headers := headers req |}.

Definition storeParams (req : Request) (v : value) : Request :=
  {| body := body req; query := query req; params := v; headers := headers req |}.

(** [Object.assign(target, source)] for the object that the engine returns
    for an object. *)
Definition objectAssign (target : list (string * value)) (source : value)
  : list (string * value) :=
  match source with
  | VObj props => fold_left (fun o '(key, val) => setProperty o key val) props target
  | _ => target
  end.

Definition storeHeaders (req : Request) (v : value) : Request :=
  {| body := body req; query := query req; params := params req;
     headers := objectAssign (headers req) v |}.

Definition sensitiveHeaders : list string := [ "authorization"; "cookie"; "set-cookie" ].

(** [!sensitiveHeaders.includes(key.toLowerCase())] *)
Definition sanitizable (key : string) : bool :=
  negb (existsb (String.eqb (toLowerCase key)) sensitiveHeaders).

Definition headersToSanitize (req : Request) : value :=
  VObj (List.filter (fun '(key, _) => sanitizable key) (headers req)).

Definition bodyStep (st : Progress) : Try :=
  if orDefault (sanitizeBody (options (closure st))) true && truthy (body (request st))
  then sanitizePart (body (request st)) storeBody st
  else Going st.

Definition queryStep (st : Progress) : Try :=
  if orDefault (sanitizeQuery (options (closure st))) true && truthy (query (request st))
  then sanitizePart (query (request st)) storeQuery st
  else Going st.

Definition paramsStep (st : Progress) : Try :=
  if orDefault (sanitizeParams (options (closure st))) true && truthy (params (request st))
  then sanitizePart (params (request st)) storeParams st
  else Going st.

Definition headersStep (st : Progress) : Try :=
  if orDefault (sanitizeHeaders (options (closure st))) false
  then sanitizePart (headersToSanitize (request st)) storeHeaders st
  else Going st.

(** [req.headers["x-request-id"] || "unknown"] *)
Definition requestIdOf (req : Request) : value :=
  js_or (optionalGet (VObj (headers req)) "x-request-id") (VStr "unknown").

(** What a call of the middleware leaves behind and answers; [notified] is
    the argument of the call of [onViolation], if it was called. *)
Record Handled : Type := {
  after : Middleware;
  requestAfter : Request;
  notified : option (list string);
  reply : Reply
}.

(** The function that [createSanitizationMiddleware] returns; [stamp] is
    [new Date().toISOString()]. *)
Definition handle (m : Middleware) (stamp : string) (req : Request) : Handled :=
  let config := SanitizationEngine.config (sanitizationEngine m) in
  if negb (SanitizationEngine.enabled config)
  then {| after := m; requestAfter := req; notified := None; reply := Next |}
  else
    let start := {| closure := m; request := req;
                    hasViolations := false; allViolations := [] |} in
    match Going start >>> bodyStep >>> queryStep >>> paramsStep >>> headersStep with
    | Going st =>
        let config' := SanitizationEngine.config (sanitizationEngine (closure st)) in
        {| after := closure st;
           requestAfter := request st;
           notified :=
             if hasViolations st && onViolation (options (closure st))
             then Some (allViolations st) else None;
           reply :=
             if hasViolations st
                && (SanitizationEngine.strictMode config'
                    && SanitizationEngine.rejectOnViolation config')
             then Json 400
                    {| success := false;
                       error := {| code := "SANITIZATION_VIOLATION";
                                   message := "Input validation failed";
                                   violations := Some (allViolations st);
                                   timestamp := stamp;
                                   requestId := requestIdOf (request st) |} |}
             else Next |}
    | Caught st =>
        let config' := SanitizationEngine.config (sanitizationEngine (closure st)) in
        {| after := closure st;
           requestAfter := request st;
           notified := None;
           reply :=
             if SanitizationEngine.strictMode config'
             then Json 500
                    {| success := false;
                       error := {| code := "SANITIZATION_ERROR";
                                   message := "Internal sanitization error";
                                   violations := None;
                                   timestamp := stamp;
                                   requestId := requestIdOf (request st) |} |}
             else Next |}
    end.

End ExpressSanitization.

(* ===================================================================== *)
(** ** The test for a normalized envelope ([isAlreadyNormalized]) *)
(* ===================================================================== *)

Module Envelope.

(** [key in x] for one of the keys ['success'], ['metadata'] and
    ['requestId'], which no prototype defines: an own property of an
    object, never one of an array, and a [TypeError] on a primitive. *)
Definition hasKey (key : string) (x : value) : completion bool :=
  match x with
  | VObj props =>
      Returns (match assoc key props with Some _ => true | None => false end)
  | VArr _ => Returns false
  | _ => Throws (TypeError ("Cannot use 'in' operator to search for '" +:+ key +:+ "'"))
  end.

(** [isAlreadyNormalized]: the value of the chain of [&&], which is [data]
    itself when [data] is falsy. *)
Definition isAlreadyNormalized (data : value) : completion value :=
  if negb (truthy data) then Returns data
  else
    match data with
    | VObj _ | VArr _ =>
        match hasKey "success" data with
        | Returns true =>
            match hasKey "metadata" data with
            | Returns true =>
                match hasKey "requestId" (js_or (optionalGet data "metadata") (VObj [])) with
                | Returns found => Returns (VBool found)
                | Throws thrown => Throws thrown
                end
            | Returns false => Returns (VBool false)
            | Throws thrown => Throws thrown
            end
        | Returns false => Returns (VBool false)
        | Throws thrown => Throws thrown
        end
    | _ => Returns (VBool false)
    end.

End Envelope.

(* ===================================================================== *)
(** ** Notions used in the statements *)
(* ===================================================================== *)

Module Notions.
Import JsString.

(** What holds of a violation that the traversal records with a compiled
    rule set: it names one of the rules, its type and severity are the ones
    the two lookups give, and its two values are the same text. *)
Definition recordedBy (compiled : list Rules.SanitizationRule)
           (v : SanitizationEngine.SecurityViolation) : Prop :=
  (exists r, r ∈ compiled /\ SanitizationEngine.rule v = Rules.name r) /\
  SanitizationEngine.type v = Rules.getSecurityViolationType (SanitizationEngine.rule v) /\
  SanitizationEngine.severity v = Rules.getViolationSeverity (SanitizationEngine.type v) /\
  SanitizationEngine.originalValue v = SanitizationEngine.sanitizedValue v.

(** A value that holds, at any depth, a text with the property [P]. *)
Inductive hasText (P : string -> Prop) : value -> Prop :=
| hasText_here s : P s -> hasText P (VStr s)
| hasText_item items item :
    item ∈ items -> hasText P item -> hasText P (VArr items)
| hasText_property props key val :
    (key, val) ∈ props -> hasText P val -> hasText P (VObj props).

(** A text in which ["<script>"] is followed, somewhere, by ["</script>"]. *)
Definition closedScript (s : string) : Prop :=
  exists pre body post, s = pre +:+ "<script>" +:+ body +:+ "</script>" +:+ post.

(** The entry of the compiled cache for a list of names, if there is one,
    is what the registry resolves the sorted names to. *)
Definition cacheAgrees (e : SanitizationEngine.Engine) (names : list string) : Prop :=
  match SanitizationEngine.compiledRulesCache e !! join "," (JsString.sort names) with
  | Some cached =>
      cached = SanitizationEngine.resolve (SanitizationEngine.rulesCache e) (JsString.sort names)
  | None => True
  end.

(** [s] does not start with white space. *)
Definition noLeadingSpace (s : string) : Prop :=
  match s with
  | EmptyString => True
  | String c _ => JsString.isWhiteSpace c = false
  end.

(** [toLowerCase] leaves the code unit alone. *)
Definition lowered (c : ascii) : bool :=
  (JsString.code (JsString.lowerChar c) =? JsString.code c)%N.

(** The text after one turn of the loop of [sanitizeString]. *)
Definition stepText (purifier : string -> string) (r : Rules.SanitizationRule)
           (s : string) : string :=
  let s1 := match Rules.transform r with Some change => change s | None => s end in
  if String.eqb (Rules.name r) "html" && JsString.includes "<" s1 then purifier s1 else s1.

(** A turn of the loop for the rule [r] leaves the text [s] as it is. *)
Definition leaves (purifier : string -> string) (r : Rules.SanitizationRule)
           (s : string) : Prop :=
  match Rules.transform r with Some change => change s | None => s end = s /\
  stepText purifier r s = s.

(** A value on which a second traversal has nothing to do: every text in
    it is left alone by every rule of the compiled set, and every object in
    it is as the traversal builds objects. *)
Inductive settled (purifier : string -> string)
          (compiled : list Rules.SanitizationRule) : value -> Prop :=
| settled_undefined : settled purifier compiled VUndefined
| settled_null : settled purifier compiled VNull
| settled_bool b : settled purifier compiled (VBool b)
| settled_num n : settled purifier compiled (VNum n)
| settled_str s :
    Forall (fun r => leaves purifier r s) compiled -> settled purifier compiled (VStr s)
| settled_arr items :
    Forall (settled purifier compiled) items -> settled purifier compiled (VArr items)
| settled_obj props :
    NoDup (map fst props) -> "__proto__" ∉ map fst props ->
    Forall (fun kv => settled purifier compiled (snd kv)) props ->
    settled purifier compiled (VObj props).

(** The built-in rules whose changes are not undone or redone by a second
    pass: all but [html], [script] and [xss]. *)
Definition stableRules : list Rules.SanitizationRule :=
  [ Rules.command_injection; Rules.email_normalize; Rules.path_traversal;
    Rules.phone_normalize; Rules.sql; Rules.trim; Rules.url_validate ].

(** What the change of a stable rule establishes of a text. *)
Definition settledFor (ruleName : string) (s : string) : Prop :=
  if String.eqb ruleName "command-injection"
  then Regex.allOf (fun c => negb (Rules.commandChars c)) s = true
  else if String.eqb ruleName "email-normalize"
  then Regex.allOf lowered s = true /\ JsString.trim s = s
  else if String.eqb ruleName "phone-normalize"
  then Regex.allOf (fun c => negb (Rules.phoneFormatting c)) s = true
  else if String.eqb ruleName "trim"
  then JsString.trim s = s
  else True.

(** The order in which the sorted names put the rules. *)
Definition byName (a b : Rules.SanitizationRule) : Prop :=
  String.le (Rules.name a) (Rules.name b).

(** The registry holds built-in rules under their own names only. *)
Definition builtinRegistry (e : SanitizationEngine.Engine) : Prop :=
  forall ruleName r,
    SanitizationEngine.rulesCache e !! ruleName = Some r ->
    r ∈ Rules.DEFAULT_SANITIZATION_RULES /\ Rules.name r = ruleName.

End Notions.

(* ===================================================================== *)
(** ** Inputs and instances used in the examples *)
(* ===================================================================== *)

Module Examples.
Import JsString NormalizationEngine.

(** The instance of the test suite, with the two formats left open. *)
Definition configOf (f : Format) (ef : ErrorFormat) : NormalizationConfig :=
  {| enabled := true; format := f; includeMetadata := true; errorFormat := ef;
     includeDebugInfo := false; compressResponses := false; includeLinks := false |}.

Definition pagination_0_500_23 : PaginationMeta :=
  {| page := Int 0; limit := Int 500; total := Int 23; totalPages := Int 0;
     hasNext := false; hasPrev := false; links := None |}.

Definition pagination_1_500_150 : PaginationMeta :=
  {| page := Int 1; limit := Int 500; total := Int 150; totalPages := Int 0;
     hasNext := false; hasPrev := false; links := None |}.

Definition testHost : Host :=
  {| now := fun n => (1735689600000 + Z.of_nat n)%Z;
     toISOString := fun _ => "2025-01-01T00:00:00.000Z";
     NODE_ENV := None;
     processVersion := "v20.11.0" |}.

Definition testContext : RequestContext :=
  {| contextRequestId := "test-request-123"; contextTimestamp := 1735689600000;
     startTime := 1735689599990; userAgent := Some "test-agent";
     ip := Some "127.0.0.1" |}.

(** The configuration of the test suite of the sanitization engine, with
    the two switches of strict rejection left open. *)
Definition sanitizationConfig (strict reject : bool) : SanitizationEngine.SanitizationConfig :=
  {| SanitizationEngine.enabled := true;
     SanitizationEngine.rules := [ "html"; "script"; "xss"; "trim" ];
     SanitizationEngine.customRules := [];
     SanitizationEngine.strictMode := strict;
     SanitizationEngine.logViolations := false;
     SanitizationEngine.rejectOnViolation := reject |}.

(** The details of the redaction example, and what they become. *)
Definition detailsExample : value :=
  VObj [ ("password", VStr "x");
         ("nested", VObj [ ("token", VStr "y"); ("ok", VStr "z") ]) ].

Definition detailsExampleRedacted : value :=
  VObj [ ("password", VStr "[REDACTED]");
         ("nested", VObj [ ("token", VStr "[REDACTED]"); ("ok", VStr "z") ]) ].

End Examples.

(* ===================================================================== *)
(** ** Notions about whole values *)
(* ===================================================================== *)

Module Shapes.
Import JsString.

(** A value in which every object lists distinct keys, none of them
    ["__proto__"]. *)
Inductive plain : value -> Prop :=
| plain_undefined : plain VUndefined
| plain_null : plain VNull
| plain_bool b : plain (VBool b)
| plain_num n : plain (VNum n)
| plain_str s : plain (VStr s)
| plain_arr items : Forall plain items -> plain (VArr items)
| plain_obj props :
    NoDup (map fst props) -> "__proto__" ∉ map fst props ->
    Forall (fun kv => plain (snd kv)) props ->
    plain (VObj props).

(** The text after all the turns of the loop of [sanitizeString]. *)
Definition pipeline (purifier : string -> string)
           (compiled : list Rules.SanitizationRule) (s : string) : string :=
  fold_left (fun t r => Notions.stepText purifier r t) compiled s.

(** [v] with every text in it replaced by its image under [f]. *)
Fixpoint mapTexts (f : string -> string) (v : value) {struct v} : value :=
  match v with
  | VStr s => VStr (f s)
  | VArr items => VArr (List.map (mapTexts f) items)
  | VObj props => VObj (List.map (fun kv => (fst kv, mapTexts f (snd kv))) props)
  | _ => v
  end.

(** The field paths of the texts of [v], in the order of the traversal. *)
Fixpoint textPaths (v : value) (fieldPath : string) {struct v} : list string :=
  match v with
  | VStr _ => [ fieldPath ]
  | VArr items =>
      (fix each (items : list value) (index : nat) {struct items} : list string :=
         match items with
         | [] => []
         | item :: rest =>
             textPaths item (SanitizationEngine.indexPath fieldPath index)
             ++ each rest (S index)
         end) items O
  | VObj props =>
      List.flat_map
        (fun kv => textPaths (snd kv) (SanitizationEngine.keyPath fieldPath (fst kv)))
        props
  | _ => []
  end.

(** The field paths of the texts of [v] that satisfy [P], in the order of
    the traversal. *)
Fixpoint flagged (P : string -> bool) (v : value) (fieldPath : string) {struct v}
  : list string :=
  match v with
  | VStr s => if P s then [ fieldPath ] else []
  | VArr items =>
      (fix each (items : list value) (index : nat) {struct items} : list string :=
         match items with
         | [] => []
         | item :: rest =>
             flagged P item (SanitizationEngine.indexPath fieldPath index)
             ++ each rest (S index)
         end) items O
  | VObj props =>
      List.flat_map
        (fun kv => flagged P (snd kv) (SanitizationEngine.keyPath fieldPath (fst kv)))
        props
  | _ => []
  end.

(** The rule sets of the compiled cache hold built-in rules only, as the
    registry does under [Notions.builtinRegistry]. *)
Definition builtinCache (e : SanitizationEngine.Engine) : Prop :=
  forall key cached,
    SanitizationEngine.compiledRulesCache e !! key = Some cached ->
    Forall (fun r => r ∈ Rules.DEFAULT_SANITIZATION_RULES) cached.

(** The names of the rules of a list that have a [transform]. *)
Definition transforming (compiled : list Rules.SanitizationRule) : list string :=
  map Rules.name
      (List.filter (fun r => match Rules.transform r with Some _ => true | None => false end)
                   compiled).

(** The names of the rules of a list that have a [validate]. *)
Definition validating (compiled : list Rules.SanitizationRule) : list string :=
  map Rules.name
      (List.filter (fun r => match Rules.validate r with Some _ => true | None => false end)
                   compiled).

(** Details in which, at every depth, a property with a sensitive name holds
    the marker. *)
Inductive redacted : value -> Prop :=
| redacted_undefined : redacted VUndefined
| redacted_null : redacted VNull
| redacted_bool b : redacted (VBool b)
| redacted_num n : redacted (VNum n)
| redacted_str s : redacted (VStr s)
| redacted_arr items : Forall redacted items -> redacted (VArr items)
| redacted_obj props :
    Forall (fun kv => (NormalizationEngine.isSensitiveField (fst kv) = true ->
                       snd kv = VStr "[REDACTED]") /\
                      redacted (snd kv)) props ->
    redacted (VObj props).

(** The last rule of a list that has the name [ruleName]. *)
Fixpoint lastNamed (ruleName : string) (rs : list Rules.SanitizationRule)
  : option Rules.SanitizationRule :=
  match rs with
  | [] => None
  | r :: rest =>
      match lastNamed ruleName rest with
      | Some later => Some later
      | None => if String.eqb (Rules.name r) ruleName then Some r else None
      end
  end.

(** The violations of an accumulator point into [paths]. *)
Definition fieldsIn (paths : list string) (acc : SanitizationEngine.Collected) : Prop :=
  Forall (fun v => SanitizationEngine.field v ∈ paths) (SanitizationEngine.found acc).

(** The violations of an accumulator name rules of [compiled] that have a
    [validate], and its applied rules name rules that have a [transform]. *)
Definition namedIn (compiled : list Rules.SanitizationRule)
           (acc : SanitizationEngine.Collected) : Prop :=
  Forall (fun v => SanitizationEngine.rule v ∈ validating compiled)
         (SanitizationEngine.found acc) /\
  Forall (fun ruleName => ruleName ∈ transforming compiled) (SanitizationEngine.applied acc).

(** How many entries [appliedRules] has. *)
Definition count (acc : SanitizationEngine.Collected) : nat :=
  List.length (SanitizationEngine.applied acc).


(** What follows the first [>] of a text, if there is one. *)
Fixpoint afterGt (t : string) : option string :=
  match t with
  | EmptyString => None
  | String c t' => if is_char ">" c then Some t' else afterGt t'
  end.

(** [rule.transform(s)], or [s] for a rule without [transform]; and
    [rule.validate(s)], or [true] for a rule without [validate]. *)
Definition changeOf (r : Rules.SanitizationRule) (s : string) : string :=
  match Rules.transform r with
  | Some change => change s
  | None => s
  end.

Definition passes (r : Rules.SanitizationRule) (s : string) : bool :=
  match Rules.validate r with
  | Some check => check s
  | None => true
  end.

(** The built-in rules whose [transform] deletes what the pattern matches. *)
Definition deletingRules : list Rules.SanitizationRule :=
  [ Rules.html; Rules.script; Rules.xss; Rules.command_injection ].

(** The built-in rules whose [transform], applied twice, gives what it
    gives applied once. *)
Definition idempotentRules : list Rules.SanitizationRule :=
  [ Rules.html; Rules.trim; Rules.email_normalize; Rules.phone_normalize;
    Rules.command_injection ].

End Shapes.

(* ===================================================================== *)
(** ** More inputs and instances used in the examples *)
(* ===================================================================== *)

Module Samples.
Import JsString.

Definition profile : value :=
  VObj [ ("name", VStr "  Ann ");
         ("tags", VArr [ VStr " a"; VNum 3; VNull ]) ].

Definition profileTrimmed : value :=
  VObj [ ("name", VStr "Ann");
         ("tags", VArr [ VStr "a"; VNum 3; VNull ]) ].

Definition search : value := VObj [ ("q", VStr "select 1") ].

Definition comment : value := VObj [ ("text", VStr "<b>bold</b>") ].

(** An engine of the test suite's configuration, strict, with rejection
    switched on or off. *)
Definition strictEngine (reject : bool) : SanitizationEngine.Engine :=
  SanitizationEngine.create (Examples.sanitizationConfig true reject)
                            SanitizationEngine.mockPurify.

Definition pipeOf (strict reject : bool) : SanitizationPipe.Pipe :=
  {| SanitizationPipe.sanitizationEngine :=
       SanitizationEngine.create (Examples.sanitizationConfig strict reject)
                                 SanitizationEngine.mockPurify;
     SanitizationPipe.config := SanitizationPipe.EngineConfig;
     SanitizationPipe.options := None |}.

Definition withHeaders : ExpressSanitization.ExpressSanitizationOptions :=
  {| ExpressSanitization.sanitizeBody := None;
     ExpressSanitization.sanitizeQuery := None;
     ExpressSanitization.sanitizeParams := None;
     ExpressSanitization.sanitizeHeaders := Some true;
     ExpressSanitization.rules := None;
     ExpressSanitization.onViolation := true |}.

Definition middlewareOf (strict reject : bool) : ExpressSanitization.Middleware :=
  ExpressSanitization.createSanitizationMiddleware
    (Examples.sanitizationConfig strict reject) SanitizationEngine.mockPurify withHeaders.

Definition post : ExpressSanitization.Request :=
  {| ExpressSanitization.body := comment;
     ExpressSanitization.query := VObj [];
     ExpressSanitization.params := VObj [];
     ExpressSanitization.headers :=
       [ ("Authorization", VStr "Bearer <b>x</b>"); ("x-note", VStr "<i>hi</i>") ] |}.

(** The instance of the test suite with debug information switched on. *)
Definition debugConfig (ef : NormalizationEngine.ErrorFormat)
  : NormalizationEngine.NormalizationConfig :=
  {| NormalizationEngine.enabled := true;
     NormalizationEngine.format := NormalizationEngine.FormatStandard;
     NormalizationEngine.includeMetadata := true;
     NormalizationEngine.errorFormat := ef;
     NormalizationEngine.includeDebugInfo := true;
     NormalizationEngine.compressResponses := false;
     NormalizationEngine.includeLinks := false |}.

Definition pagination_1_0_5 : NormalizationEngine.PaginationMeta :=
  {| NormalizationEngine.page := Int 1; NormalizationEngine.limit := Int 0;
     NormalizationEngine.total := Int 5; NormalizationEngine.totalPages := Int 0;
     NormalizationEngine.hasNext := false; NormalizationEngine.hasPrev := false;
     NormalizationEngine.links := None |}.

End Samples.

(* ===================================================================== *)
(** ** Facts about strings and the matcher *)
(* ===================================================================== *)

Module StringFacts.

Lemma string_app_cons (c : ascii) (a b : string) : String c a +:+ b = String c (a +:+ b).
Proof. reflexivity. Qed.

Lemma string_app_nil_l (a : string) : "" +:+ a = a.
Proof. reflexivity. Qed.

Lemma string_app_assoc (a b c : string) : (a +:+ b) +:+ c = a +:+ (b +:+ c).
Proof.
  induction a as [ | x a IH ]; [ reflexivity | ].
  now rewrite !string_app_cons, IH.
Qed.

Lemma string_app_length (a b : string) :
  String.length (a +:+ b) = (String.length a + String.length b)%nat.
Proof.
  induction a as [ | x a IH ]; [ reflexivity | ].
  rewrite string_app_cons. cbn [String.length]. now rewrite IH.
Qed.

Lemma string_app_nil_r (a : string) : a +:+ "" = a.
Proof.
  induction a as [ | x a IH ]; [ reflexivity | ].
  now rewrite string_app_cons, IH.
Qed.

End StringFacts.

Module RegexFacts.
Import JsString Regex StringFacts.

Section Results.
Context {A : Type}.
Implicit Types (k : option ascii -> string -> option A).

Lemma iterate_ext body1 body2 k1 k2 :
  (forall p s c1 c2, (forall p' s', c1 p' s' = c2 p' s') -> body1 p s c1 = body2 p s c2) ->
  (forall p s, k1 p s = k2 p s) ->
  forall fuel p s, iterate body1 k1 fuel p s = iterate body2 k2 fuel p s.
Proof.
  intros Hb Hk. induction fuel as [ | fuel IH ]; intros p s; cbn; [ apply Hk | ].
  rewrite (Hb p s _ (fun prev1 s1 =>
                       if (String.length s1 <? String.length s)%nat
                       then iterate body2 k2 fuel prev1 s1 else None)).
  - now rewrite Hk.
  - intros p' s'. now rewrite IH.
Qed.

Lemma run_ext r : forall p s k1 k2,
  (forall p' s', k1 p' s' = k2 p' s') -> run r p s k1 = run r p s k2.
Proof.
  induction r as [ | c | r1 IH1 r2 IH2 | r1 IH1 r2 IH2 | r IH | r IH | | | ];
    intros p s k1 k2 Hk; cbn [run].
  - apply Hk.
  - destruct s as [ | x s ]; [ reflexivity | now rewrite Hk ].
  - apply IH1. intros p' s'. now apply IH2.
  - now rewrite (IH1 p s k1 k2 Hk), (IH2 p s k1 k2 Hk).
  - apply iterate_ext; [ | exact Hk ]. intros p0 s0 c1 c2 Hc. now apply IH.
  - now rewrite Hk.
  - now rewrite Hk.
  - destruct s; [ now rewrite Hk | reflexivity ].
  - now rewrite Hk.
Qed.

Lemma iterate_fuel r k : forall n m p s,
  (String.length s < n)%nat -> (String.length s < m)%nat ->
  iterate (run r) k n p s = iterate (run r) k m p s.
Proof.
  induction n as [ | n IH ]; intros m p s Hn Hm; [ lia | ].
  destruct m as [ | m ]; [ lia | ]. cbn [iterate].
  rewrite (run_ext r p s _ (fun prev1 s1 =>
                              if (String.length s1 <? String.length s)%nat
                              then iterate (run r) k m prev1 s1 else None)).
  - reflexivity.
  - intros p' s'. destruct (Nat.ltb_spec (String.length s') (String.length s)); [ | reflexivity ].
    apply IH; lia.
Qed.

(** The equation of the greedy star. *)
Lemma run_Star r p s k :
  run (Star r) p s k =
  match run r p s (fun p1 s1 =>
                     if (String.length s1 <? String.length s)%nat
                     then run (Star r) p1 s1 k else None) with
  | Some a => Some a
  | None => k p s
  end.
Proof.
  cbn [run iterate].
  rewrite (run_ext r p s _ (fun p1 s1 =>
                              if (String.length s1 <? String.length s)%nat
                              then iterate (run r) k (S (String.length s1)) p1 s1 else None)).
  - reflexivity.
  - intros p' s'. destruct (Nat.ltb_spec (String.length s') (String.length s)); [ | reflexivity ].
    apply iterate_fuel; lia.
Qed.

(** The matcher finds a match whenever there is one that the continuation
    accepts. *)
Lemma run_complete r p s p' s' :
  matches r p s p' s' -> forall k, is_Some (k p' s') -> is_Some (run r p s k).
Proof.
  induction 1 as [ p s | c x p s Hc | r1 r2 p s p1 s1 p2 s2 _ IH1 _ IH2
                 | r1 r2 p s p1 s1 _ IH | r1 r2 p s p1 s1 _ IH
                 | r p s | r p s p1 s1 p2 s2 _ IH1 Hlen _ IH2
                 | r p s Hno | s | p | p s Hb ]; intros k Hk.
  - exact Hk.
  - cbn [run]. now rewrite Hc.
  - cbn [run]. apply IH1. now apply IH2.
  - cbn [run]. destruct (IH k Hk) as [a ->]. eauto.
  - cbn [run]. destruct (run r1 p s k); [ eauto | auto ].
  - rewrite run_Star. destruct (run r p s _); [ eauto | exact Hk ].
  - rewrite run_Star.
    match goal with
    | |- is_Some (match run r p s ?c with _ => _ end) =>
        destruct (IH1 c) as [a ->]; [ | eauto ]
    end.
    apply Nat.ltb_lt in Hlen. rewrite Hlen. now apply IH2.
  - cbn [run]. now rewrite Hno.
  - exact Hk.
  - exact Hk.
  - cbn [run]. now rewrite Hb.
Qed.

(** What the matcher returns comes from a match that the continuation
    accepted. *)
Lemma run_sound r : forall p s k (a : A),
  run r p s k = Some a -> exists p' s', matches r p s p' s' /\ k p' s' = Some a.
Proof.
  induction r as [ | c | r1 IH1 r2 IH2 | r1 IH1 r2 IH2 | r IH | r IH | | | ];
    intros p s k a; cbn [run].
  - intros H. exists p, s. split; [ constructor | exact H ].
  - destruct s as [ | x s ]; [ discriminate | ].
    destruct (c x) eqn:Hc; [ | discriminate ]. intros H.
    exists (Some x), s. split; [ now constructor | exact H ].
  - intros H. apply IH1 in H as (p1 & s1 & H1 & H).
    apply IH2 in H as (p2 & s2 & H2 & H).
    exists p2, s2. split; [ econstructor; eauto | exact H ].
  - destruct (run r1 p s k) as [a1 | ] eqn:H1.
    + intros [= <-]. apply IH1 in H1 as (p1 & s1 & H1 & H).
      exists p1, s1. split; [ now apply matches_Alt_l | exact H ].
    + intros H. apply IH2 in H as (p2 & s2 & H2 & H).
      exists p2, s2. split; [ now apply matches_Alt_r | exact H ].
  - generalize (S (String.length s)). intros fuel. revert p s.
    induction fuel as [ | fuel IHf ]; intros p s; cbn [iterate].
    + intros H. exists p, s. split; [ constructor | exact H ].
    + destruct (run r p s _) as [a1 | ] eqn:H1.
      * intros [= <-]. apply IH in H1 as (p1 & s1 & H1 & H).
        destruct (Nat.ltb_spec (String.length s1) (String.length s)); [ | discriminate ].
        apply IHf in H as (p2 & s2 & H2 & H).
        exists p2, s2. split; [ econstructor; eauto | exact H ].
      * intros H. exists p, s. split; [ constructor | exact H ].
  - destruct (run r p s (fun _ _ => Some tt)) eqn:Hno; [ discriminate | ].
    intros H. exists p, s. split; [ now constructor | exact H ].
  - destruct p; [ discriminate | ]. intros H. exists None, s. split; [ constructor | exact H ].
  - destruct s; [ | discriminate ]. intros H. exists p, ""%string. split; [ constructor | exact H ].
  - destruct (xorb _ _) eqn:Hb; [ | discriminate ].
    intros H. exists p, s. split; [ now constructor | exact H ].
Qed.

End Results.

Lemma matchHere_complete r p s p' s' :
  matches r p s p' s' -> is_Some (matchHere r p s).
Proof. intros H. apply (run_complete r p s p' s' H). eauto. Qed.

Lemma testFrom_here r p s : is_Some (matchHere r p s) -> testFrom r p s = true.
Proof. intros [a Ha]. destruct s; cbn; now rewrite Ha. Qed.

Lemma testFrom_append r pre : forall p t,
  testFrom r (after p pre) t = true -> testFrom r p (pre +:+ t) = true.
Proof.
  induction pre as [ | c pre IH ]; intros p t H; [ exact H | ].
  rewrite string_app_cons. cbn [testFrom].
  destruct (matchHere r p _); [ reflexivity | ]. now apply IH.
Qed.

End RegexFacts.

Module ScriptFacts.
Import JsString Regex Rules StringFacts RegexFacts.

Lemma is_char_eq x c : is_char x c = true -> c = x.
Proof.
  unfold is_char, code. intros H%N.eqb_eq.
  now rewrite <- (ascii_N_embedding c), <- (ascii_N_embedding x), H.
Qed.

Lemma noneOf_single x c : noneOf (String x "") c = false -> c = x.
Proof.
  unfold noneOf. cbn [oneOf]. rewrite orb_false_r.
  intros H%negb_false_iff. now apply is_char_eq.
Qed.

(** A greedy class star can stop after any run of members of the class. *)
Lemma matches_Star_Class c w : forall p rest,
  allOf c w = true ->
  matches (Star (Class c)) p (w +:+ rest) (after p w) rest.
Proof.
  induction w as [ | x w IH ]; intros p rest Hall.
  - constructor.
  - cbn [allOf] in Hall. apply andb_true_iff in Hall as [Hx Hall].
    rewrite string_app_cons. cbn [after].
    apply (matches_Star_more _ _ _ (Some x) (w +:+ rest)).
    + now constructor.
    + cbn [String.length]. lia.
    + now apply IH.
Qed.

(** Every text splits into a run of members of a class and a rest that is
    empty or starts outside the class. *)
Lemma split_at_class c u :
  exists w u2, u = w +:+ u2 /\ allOf c w = true /\
               (u2 = "" \/ exists x u3, u2 = String x u3 /\ c x = false).
Proof.
  induction u as [ | x u (w & u2 & -> & Hall & Hu2) ].
  - exists "", "". repeat split; auto.
  - destruct (c x) eqn:Hx.
    + exists (String x w), u2. repeat split; auto. cbn [allOf]. now rewrite Hx, Hall.
    + exists "", (String x (w +:+ u2)). repeat split; eauto.
Qed.

Section Closing.
Variable post : string.
Let T : string := "</script>" +:+ post.

Lemma matches_scriptClose p : matches scriptClose p T (Some ">"%char) post.
Proof.
  subst T. unfold scriptClose. cbv [String.append LitI].
  repeat (eapply matches_Seq; [ apply matches_Class; reflexivity | ]).
  constructor.
Qed.

(** From a position inside the element that is at a ["<"] or at the closing
    tag, the rest of the pattern matches. *)
Lemma matches_script_rest : forall n u p,
  (String.length u <= n)%nat ->
  (u = "" \/ exists u1, u = String "<" u1) ->
  exists p' s', matches (Seq (Star scriptInner) scriptClose) p (u +:+ T) p' s'.
Proof.
  induction n as [ | n IH ]; intros u p Hlen Hu.
  - destruct u; [ | cbn in Hlen; lia ].
    exists (Some ">"%char), post. eapply matches_Seq; [ constructor | apply matches_scriptClose ].
  - destruct Hu as [-> | [u1 ->]].
    + exists (Some ">"%char), post.
      eapply matches_Seq; [ constructor | apply matches_scriptClose ].
    + destruct (run scriptClose p (String "<" u1 +:+ T) (fun _ _ => Some tt)) as [ [] | ] eqn:Hahead.
      * apply run_sound in Hahead as (p' & s' & Hm & _).
        exists p', s'. eapply matches_Seq; [ constructor | exact Hm ].
      * destruct (split_at_class (noneOf "<") u1) as (w & u2 & -> & Hall & Hu2).
        assert (Hu2' : u2 = "" \/ exists u3, u2 = String "<" u3).
        { destruct Hu2 as [-> | (x & u3 & -> & Hx)]; [ now left | right ].
          apply noneOf_single in Hx. subst x. eauto. }
        cbn [String.length] in Hlen. rewrite string_app_length in Hlen.
        destruct (IH u2 (after (Some "<"%char) w)) as (p' & s' & Hrest); [ lia | exact Hu2' | ].
        inversion Hrest as [ | | r1 r2 p0 s0 p1 s1 p2 s2 Hstar Hclose | | | | | | | | ]; subst.
        exists p', s'. eapply matches_Seq; [ | exact Hclose ].
        eapply (matches_Star_more _ _ _ (after (Some "<"%char) w) (u2 +:+ T)); [ | | exact Hstar ].
        -- unfold scriptInner. eapply matches_Seq; [ now apply matches_NotAhead | ].
           rewrite string_app_cons. eapply matches_Seq; [ apply matches_Class; reflexivity | ].
           rewrite string_app_assoc. now apply matches_Star_Class.
        -- rewrite string_app_cons. cbn [String.length]. rewrite string_app_assoc, !string_app_length. lia.
Qed.

(** The pattern of the [script] rule matches at a ["<script>"] that is
    followed, anywhere later, by ["</script>"]. *)
Lemma matches_scriptPattern p body :
  exists p' s', matches scriptPattern p ("<script>" +:+ body +:+ T) p' s'.
Proof.
  destruct (split_at_class (noneOf "<") (String ">" body)) as (w & u2 & Hsplit & Hall & Hu2).
  assert (Hu2' : u2 = "" \/ exists u3, u2 = String "<" u3).
  { destruct Hu2 as [-> | (x & u3 & -> & Hx)]; [ now left | right ].
    apply noneOf_single in Hx. subst x. eauto. }
  destruct (matches_script_rest (String.length u2) u2 (after (Some "t"%char) w))
    as (p' & s' & Hrest); [ lia | exact Hu2' | ].
  exists p', s'. unfold scriptPattern.
  change ("<script>" +:+ body +:+ T) with ("<script" +:+ (String ">" body +:+ T)).
  rewrite Hsplit, string_app_assoc.
  cbv [String.append LitI]. fold String.append.
  eapply matches_Seq.
  { repeat (eapply matches_Seq; [ apply matches_Class; reflexivity | ]). constructor. }
  eapply matches_Seq; [ apply matches_WordBoundary | ].
  - destruct w as [ | x w ].
    + destruct Hu2' as [-> | [u3 ->]]; discriminate.
    + cbn in Hsplit. injection Hsplit as <- _. reflexivity.
  - eapply matches_Seq; [ now apply matches_Star_Class | exact Hrest ].
Qed.

End Closing.

Lemma script_test pre body post :
  test scriptPattern (pre +:+ "<script>" +:+ body +:+ "</script>" +:+ post) = true.
Proof.
  unfold test. apply testFrom_append, testFrom_here.
  destruct (matches_scriptPattern post (after None pre) body) as (p' & s' & Hm).
  eapply matchHere_complete, Hm.
Qed.

End ScriptFacts.

Module TextFacts.
Import JsString Regex Notions StringFacts RegexFacts.

(** Replacing the members of a class by nothing removes them. *)
Lemma replaceFrom_Class c : forall s fuel prev,
  (String.length s < fuel)%nat ->
  replaceFrom fuel (Class c) "" prev s = without c s.
Proof.
  induction s as [ | x s IH ]; intros fuel prev Hfuel;
    (destruct fuel as [ | fuel ]; [ cbn in Hfuel; lia | ]).
  - reflexivity.
  - cbn [String.length] in Hfuel.
    cbn [replaceFrom matchHere run without]. destruct (c x).
    + cbn [String.length]. rewrite (proj2 (Nat.ltb_lt _ _)) by lia.
      rewrite string_app_nil_l. apply IH. lia.
    + f_equal. apply IH. lia.
Qed.

Lemma replaceAll_Class c s : replaceAll (Class c) "" s = without c s.
Proof. apply replaceFrom_Class. lia. Qed.

Lemma test_Class_false c s :
  allOf (fun x => negb (c x)) s = true -> test (Class c) s = false.
Proof.
  unfold test. generalize (@None ascii).
  induction s as [ | x s IH ]; intros prev Hall; [ reflexivity | ].
  cbn [allOf] in Hall. apply andb_true_iff in Hall as [Hx Hall].
  cbn [testFrom matchHere run]. apply negb_true_iff in Hx. rewrite Hx. now apply IH.
Qed.

(** Texts all of whose code units satisfy a property. *)
Lemma allOf_without_self c s : allOf (fun x => negb (c x)) (without c s) = true.
Proof.
  induction s as [ | x s IH ]; [ reflexivity | ].
  cbn [without]. destruct (c x) eqn:Hx; [ exact IH | ].
  cbn [allOf]. now rewrite Hx, IH.
Qed.

Lemma without_fixed c s : allOf (fun x => negb (c x)) s = true -> without c s = s.
Proof.
  induction s as [ | x s IH ]; [ reflexivity | ].
  cbn [allOf without]. intros [Hx Hall]%andb_true_iff.
  apply negb_true_iff in Hx. rewrite Hx. now rewrite IH.
Qed.

Lemma allOf_without P c s : allOf P s = true -> allOf P (without c s) = true.
Proof.
  induction s as [ | x s IH ]; [ reflexivity | ].
  cbn [allOf without]. intros [Hx Hall]%andb_true_iff.
  destruct (c x); [ auto | ]. cbn [allOf]. now rewrite Hx, IH.
Qed.

Lemma allOf_trimStart P s : allOf P s = true -> allOf P (trimStart s) = true.
Proof.
  induction s as [ | x s IH ]; [ reflexivity | ].
  intros Hall. cbn [trimStart]. destruct (isWhiteSpace x); [ | exact Hall ].
  cbn [allOf] in Hall. apply andb_true_iff in Hall as [_ Hall]. auto.
Qed.

Lemma allOf_trimEnd P s : allOf P s = true -> allOf P (trimEnd s) = true.
Proof.
  induction s as [ | x s IH ]; [ reflexivity | ].
  cbn [allOf trimEnd]. intros [Hx Hall]%andb_true_iff. specialize (IH Hall).
  destruct (trimEnd s) as [ | y r ].
  - destruct (isWhiteSpace x); [ reflexivity | ]. cbn [allOf]. now rewrite Hx.
  - cbn [allOf] in *. now rewrite Hx, IH.
Qed.

Lemma allOf_trim P s : allOf P s = true -> allOf P (trim s) = true.
Proof. intros H. unfold trim. now apply allOf_trimEnd, allOf_trimStart. Qed.

Lemma allOf_toLowerCase P s :
  (forall c, P c = true -> P (lowerChar c) = true) ->
  allOf P s = true -> allOf P (toLowerCase s) = true.
Proof.
  intros HP. induction s as [ | x s IH ]; [ reflexivity | ].
  cbn [allOf toLowerCase]. intros [Hx Hall]%andb_true_iff.
  now rewrite (HP x Hx), IH.
Qed.

Lemma allOf_impl (P Q : ascii -> bool) s :
  (forall c, P c = true -> Q c = true) -> allOf P s = true -> allOf Q s = true.
Proof.
  intros HPQ. induction s as [ | x s IH ]; [ reflexivity | ].
  cbn [allOf]. intros [Hx Hall]%andb_true_iff. now rewrite (HPQ x Hx), IH.
Qed.

(** [trim] *)
Lemma trimStart_noLeadingSpace s : noLeadingSpace (trimStart s).
Proof.
  induction s as [ | x s IH ]; [ exact I | ].
  cbn [trimStart]. destruct (isWhiteSpace x) eqn:Hx; [ exact IH | exact Hx ].
Qed.

Lemma trimStart_fixed s : noLeadingSpace s -> trimStart s = s.
Proof. destruct s as [ | x s ]; [ reflexivity | ]. cbn. now intros ->. Qed.

Lemma trimEnd_noLeadingSpace s : noLeadingSpace s -> noLeadingSpace (trimEnd s).
Proof.
  destruct s as [ | x s ]; [ exact (fun H => H) | ].
  cbn [noLeadingSpace trimEnd]. intros Hx.
  destruct (trimEnd s); [ now rewrite Hx | exact Hx ].
Qed.

Lemma trimEnd_idempotent s : trimEnd (trimEnd s) = trimEnd s.
Proof.
  induction s as [ | x s IH ]; [ reflexivity | ].
  cbn [trimEnd]. destruct (trimEnd s) as [ | y r ] eqn:Hr.
  - destruct (isWhiteSpace x) eqn:Hx; [ reflexivity | ]. cbn [trimEnd]. now rewrite Hx.
  - cbn [trimEnd]. cbn [trimEnd] in IH. rewrite IH. reflexivity.
Qed.

Lemma trim_idempotent s : trim (trim s) = trim s.
Proof.
  unfold trim.
  rewrite (trimStart_fixed (trimEnd (trimStart s))).
  - apply trimEnd_idempotent.
  - apply trimEnd_noLeadingSpace, trimStart_noLeadingSpace.
Qed.

Lemma trimEnd_no_space s :
  allOf (fun c => negb (isWhiteSpace c)) s = true -> trimEnd s = s.
Proof.
  induction s as [ | x s IH ]; [ reflexivity | ].
  cbn [allOf trimEnd]. intros [Hx Hall]%andb_true_iff. rewrite (IH Hall).
  apply negb_true_iff in Hx. rewrite Hx. now destruct s.
Qed.

Lemma trim_no_space s :
  allOf (fun c => negb (isWhiteSpace c)) s = true -> trim s = s.
Proof.
  intros Hall. unfold trim. rewrite trimStart_fixed.
  - now apply trimEnd_no_space.
  - destruct s as [ | x s ]; [ exact I | ]. cbn in *.
    apply andb_true_iff in Hall as [Hx _]. now apply negb_true_iff in Hx.
Qed.

(** [toLowerCase] *)
Lemma lowerChar_lowered c : lowered (lowerChar c) = true.
Proof. destruct c as [[] [] [] [] [] [] [] []]; vm_compute; reflexivity. Qed.

Lemma lowered_fixed c : lowered c = true -> lowerChar c = c.
Proof.
  unfold lowered, code. intros H%N.eqb_eq.
  now rewrite <- (ascii_N_embedding (lowerChar c)), H, ascii_N_embedding.
Qed.

Lemma toLowerCase_lowered s : allOf lowered (toLowerCase s) = true.
Proof.
  induction s as [ | x s IH ]; [ reflexivity | ].
  cbn [toLowerCase allOf]. now rewrite lowerChar_lowered, IH.
Qed.

Lemma toLowerCase_fixed s : allOf lowered s = true -> toLowerCase s = s.
Proof.
  induction s as [ | x s IH ]; [ reflexivity | ].
  cbn [toLowerCase allOf]. intros [Hx Hall]%andb_true_iff.
  now rewrite (lowered_fixed x Hx), IH.
Qed.

Lemma commandChars_lowerChar c :
  negb (Rules.commandChars c) = true -> negb (Rules.commandChars (lowerChar c)) = true.
Proof. destruct c as [[] [] [] [] [] [] [] []]; vm_compute; auto. Qed.

Lemma phoneFormatting_space c :
  negb (Rules.phoneFormatting c) = true -> negb (isWhiteSpace c) = true.
Proof. destruct c as [[] [] [] [] [] [] [] []]; vm_compute; auto. Qed.

End TextFacts.

(* ===================================================================== *)
(** ** Facts about values and objects *)
(* ===================================================================== *)

Module ValueFacts.

(** Induction on values that reaches the elements of arrays and the values
    of properties. *)
Lemma value_ind_nested (P : value -> Prop) :
  P VUndefined -> P VNull -> (forall b, P (VBool b)) -> (forall n, P (VNum n)) ->
  (forall s, P (VStr s)) ->
  (forall items, Forall P items -> P (VArr items)) ->
  (forall props, Forall (fun kv => P (snd kv)) props -> P (VObj props)) ->
  forall v, P v.
Proof.
  intros Hu Hn Hb Hz Hs Ha Ho. fix IH 1.
  intros [ | | b | n | s | items | props ].
  - exact Hu.
  - exact Hn.
  - apply Hb.
  - apply Hz.
  - apply Hs.
  - apply Ha. induction items as [ | x items IHitems ]; constructor.
    + apply IH.
    + exact IHitems.
  - apply Ho. induction props as [ | [k x] props IHprops ]; constructor.
    + apply IH.
    + exact IHprops.
Qed.

Lemma fold_left_ext {A B : Type} (f g : A -> B -> A) (l : list B) :
  (forall a b, f a b = g a b) -> forall a, fold_left f l a = fold_left g l a.
Proof.
  intros Hfg. induction l as [ | b l IH ]; cbn; intros a; [ reflexivity | ].
  now rewrite Hfg, IH.
Qed.

Lemma assign_keys props key v :
  map fst (assign props key v) =
  if existsb (String.eqb key) (map fst props) then map fst props
  else map fst props ++ [key].
Proof.
  induction props as [ | [k w] props IH ]; cbn; [ reflexivity | ].
  rewrite (String.eqb_sym key k).
  destruct (String.eqb k key); cbn; [ reflexivity | ].
  rewrite IH. destruct (existsb (String.eqb key) (map fst props)); reflexivity.
Qed.

Lemma assign_fresh props key v :
  key ∉ map fst props -> assign props key v = props ++ [(key, v)].
Proof.
  induction props as [ | [k w] props IH ]; cbn; intros Hin; [ reflexivity | ].
  apply not_elem_of_cons in Hin as [Hne Hin].
  destruct (String.eqb_spec k key) as [-> | _]; [ congruence | ].
  now rewrite IH.
Qed.

Lemma setProperty_fresh props key v :
  key <> "__proto__" -> key ∉ map fst props ->
  setProperty props key v = props ++ [(key, v)].
Proof.
  intros Hp Hin. unfold setProperty.
  destruct (String.eqb_spec key "__proto__"); [ contradiction | ].
  now apply assign_fresh.
Qed.

(** A loop that assigns each property of a well-formed object to a new
    object rebuilds the list of properties in the same order. *)
Lemma fold_setProperty (f : string -> value -> value) props :
  forall built,
    NoDup (map fst props) -> "__proto__" ∉ map fst props ->
    (forall k, k ∈ map fst props -> k ∉ map fst built) ->
    fold_left (fun o '(key, val) => setProperty o key (f key val)) props built
    = built ++ map (fun '(key, val) => (key, f key val)) props.
Proof.
  induction props as [ | [k v] props IH ]; cbn; intros built Hnd Hproto Hfresh.
  - now rewrite app_nil_r.
  - apply NoDup_cons in Hnd as [Hk Hnd].
    apply not_elem_of_cons in Hproto as [Hne Hproto].
    rewrite setProperty_fresh by (auto; apply Hfresh; left).
    rewrite IH; auto.
    + now rewrite <- app_assoc.
    + intros k' Hin. rewrite map_app, elem_of_app. cbn.
      intros [Hb | Heq%list_elem_of_singleton].
      * apply (Hfresh k'); [ now right | exact Hb ].
      * subst k'. contradiction.
Qed.

End ValueFacts.

(* ===================================================================== *)
(** ** Facts about sorting, resolution and the traversal *)
(* ===================================================================== *)

Module SanitizationFacts.
Import JsString Rules SanitizationEngine Notions Examples ValueFacts.

Lemma sort_sorted names : Sorted String.le (JsString.sort names).
Proof. apply Sorted_merge_sort; apply _. Qed.

Lemma sort_permutation names : Permutation (JsString.sort names) names.
Proof. apply merge_sort_Permutation. Qed.

Lemma sort_unique l1 l2 :
  Permutation l1 l2 -> JsString.sort l1 = JsString.sort l2.
Proof.
  intros Hp. apply (Sorted_unique String.le); try apply sort_sorted.
  now rewrite !sort_permutation.
Qed.

Lemma sort_idempotent names : JsString.sort (JsString.sort names) = JsString.sort names.
Proof. apply sort_unique, sort_permutation. Qed.

Lemma filter_permutation {A : Type} (f : A -> bool) l1 l2 :
  Permutation l1 l2 -> Permutation (List.filter f l1) (List.filter f l2).
Proof.
  induction 1 as [ | x l l' _ IH | x y l | l l' l'' _ IH1 _ IH2 ]; cbn.
  - constructor.
  - destruct (f x); [ now constructor | exact IH ].
  - destruct (f x), (f y); try reflexivity. apply perm_swap.
  - now transitivity (List.filter f l').
Qed.

Lemma filter_strongly_sorted {A : Type} (R : relation A) (f : A -> bool) l :
  StronglySorted R l -> StronglySorted R (List.filter f l).
Proof.
  induction 1 as [ | x l Hs IH Hall ]; cbn; [ constructor | ].
  destruct (f x); [ | exact IH ].
  constructor; [ exact IH | ].
  rewrite Forall_forall in *. intros y Hy%list_elem_of_In%filter_In.
  apply Hall, list_elem_of_In, Hy.
Qed.

(** Leaving names out commutes with sorting. *)
Lemma sort_filter (f : string -> bool) names :
  JsString.sort (List.filter f names) = List.filter f (JsString.sort names).
Proof.
  apply (StronglySorted_unique String.le).
  - apply StronglySorted_merge_sort; apply _.
  - apply filter_strongly_sorted, StronglySorted_merge_sort; apply _.
  - rewrite sort_permutation. apply filter_permutation. symmetry. apply sort_permutation.
Qed.

(** Resolution skips exactly the names that are not registered. *)
Lemma resolve_cons registry ruleName names :
  resolve registry (ruleName :: names) =
  match registry !! ruleName with
  | Some r => r :: resolve registry names
  | None => resolve registry names
  end.
Proof. reflexivity. Qed.

Lemma resolve_filter e names :
  resolve (rulesCache e) (List.filter (available e) names) = resolve (rulesCache e) names.
Proof.
  induction names as [ | n names IH ]; [ reflexivity | ].
  cbn [List.filter]. unfold available at 1. rewrite (resolve_cons _ n names).
  destruct (rulesCache e !! n) as [r | ] eqn:Hn; [ | exact IH ].
  rewrite resolve_cons, Hn. now f_equal.
Qed.

(** Invariants of the loops of the traversal. *)
Lemma mapIndexed_invariant {St A B : Type} (visit : nat -> A -> St -> B * St)
      (I : St -> Prop) items :
  Forall (fun item => forall i st, I st -> I (visit i item st).2) items ->
  forall i st, I st -> I (mapIndexed visit i items st).2.
Proof.
  induction 1 as [ | item items Hitem _ IH ]; cbn; intros i st Hst; [ exact Hst | ].
  specialize (Hitem i st Hst). destruct (visit i item st) as [item' st1].
  specialize (IH (S i) st1 Hitem). destruct (mapIndexed visit (S i) items st1).
  exact IH.
Qed.

Lemma fold_left_invariant {St B : Type} (step : St -> B -> St) (I : St -> Prop) l :
  Forall (fun b => forall st, I st -> I (step st b)) l ->
  forall st, I st -> I (fold_left step l st).
Proof.
  induction 1 as [ | b l Hb _ IH ]; cbn; intros st Hst; auto.
Qed.

Lemma applyRule_recorded compiled purifier fieldPath st r :
  r ∈ compiled ->
  Forall (recordedBy compiled) (found st.2) ->
  Forall (recordedBy compiled) (found (applyRule purifier fieldPath st r).2).
Proof.
  destruct st as [s acc]. unfold applyRule. cbn [snd].
  intros Hr Hacc.
  destruct (transform r) as [change | ]; cbn [snd found];
    (destruct (validate r) as [check | ]; [ destruct (check s) | ]; cbn [negb];
     [ exact Hacc | | exact Hacc ]);
    (apply Forall_app; split; [ exact Hacc | ]; repeat constructor; cbn; eauto).
Qed.

Lemma sanitizeString_recorded compiled purifier : forall rest s fieldPath acc,
  Forall (fun r => r ∈ compiled) rest ->
  Forall (recordedBy compiled) (found acc) ->
  Forall (recordedBy compiled) (found (sanitizeString purifier s rest fieldPath acc).2).
Proof.
  unfold sanitizeString.
  induction rest as [ | r rest IH ]; cbn [fold_left]; intros s fieldPath acc Hrest Hacc.
  - exact Hacc.
  - apply Forall_cons in Hrest as [Hr Hrest].
    pose proof (applyRule_recorded compiled purifier fieldPath (s, acc) r Hr Hacc) as H1.
    destruct (applyRule purifier fieldPath (s, acc) r) as [s1 acc1].
    now apply IH.
Qed.

Lemma sanitizeValue_recorded purifier compiled data : forall fieldPath acc,
  Forall (recordedBy compiled) (found acc) ->
  Forall (recordedBy compiled) (found (sanitizeValue purifier data compiled fieldPath acc).2).
Proof.
  induction data as [ | | b | n | s | items IH | props IH ] using value_ind_nested;
    intros fieldPath acc Hacc; try exact Hacc.
  - cbn [sanitizeValue].
    pose proof (sanitizeString_recorded compiled purifier compiled s fieldPath acc) as H1.
    destruct (sanitizeString purifier s compiled fieldPath acc).
    apply H1; [ | exact Hacc ]. now apply Forall_forall.
  - cbn [sanitizeValue].
    pose proof (mapIndexed_invariant
                  (fun index item acc0 =>
                     sanitizeValue purifier item compiled (indexPath fieldPath index) acc0)
                  (fun acc0 => Forall (recordedBy compiled) (found acc0)) items) as H1.
    match goal with
    | |- context [mapIndexed ?f 0 items acc] =>
        specialize (H1 (Forall_impl _ _ _ IH (fun item Hitem i st => Hitem _ st)) 0 acc Hacc);
        destruct (mapIndexed f 0 items acc)
    end.
    exact H1.
  - cbn [sanitizeValue].
    match goal with
    | |- context [fold_left ?f props ([], acc)] =>
        pose proof (fold_left_invariant f
                      (fun st => Forall (recordedBy compiled) (found st.2)) props) as H1;
        destruct (fold_left f props ([], acc)) as [obj acc'] eqn:Hfold
    end.
    cbn [snd]. change acc' with ((obj, acc').2). rewrite <- Hfold. apply H1; [ | exact Hacc ].
    eapply Forall_impl; [ exact IH | ].
    intros [key val] Hval [obj0 acc0] Hacc0. cbn [snd] in *.
    specialize (Hval (keyPath fieldPath key) acc0 Hacc0).
    now destruct (sanitizeValue purifier val compiled (keyPath fieldPath key) acc0).
Qed.

(** One call of [sanitize], unfolded: the rule set that is run comes from the
    cache or, at a miss, from the registry and the sorted names. *)
Lemma sanitize_run e data rulesArg :
  let out := sanitize e data rulesArg in
  let key := join "," (rulesAfter out) in
  match compiledRulesCache e !! key with
  | None =>
      compiledRulesCache (engine out) !! key
        = Some (resolve (rulesCache e) (rulesAfter out)) /\
      (warned out, result out)
        = runCompiled (config (engine out)) (purify e)
            (resolve (rulesCache e) (rulesAfter out)) data
  | Some cached =>
      compiledRulesCache (engine out) = compiledRulesCache e /\
      (warned out, result out)
        = runCompiled (config (engine out)) (purify e) cached data
  end.
Proof.
  cbn zeta.
  assert (Hafter : rulesAfter (sanitize e data rulesArg)
                   = JsString.sort match rulesArg with
                                   | ConfigRules => rules (config e)
                                   | Array names => names
                                   end).
  { unfold sanitize.
    repeat match goal with
           | |- context [let '(_, _) := ?x in _] => destruct x
           end.
    reflexivity. }
  rewrite Hafter. unfold sanitize.
  destruct (compiledRulesCache e !! join "," (JsString.sort _)) as [cached | ] eqn:Hc.
  - match goal with
    | |- context [runCompiled ?c ?p ?r ?d] => destruct (runCompiled c p r d) eqn:Hrun
    end.
    cbn. split; [ reflexivity | ]. now rewrite <- Hrun.
  - match goal with
    | |- context [runCompiled ?c ?p ?r ?d] => destruct (runCompiled c p r d) eqn:Hrun
    end.
    cbn. split; [ apply lookup_insert_eq | ]. now rewrite <- Hrun.
Qed.

Lemma sanitize_frame e data rulesArg :
  let out := sanitize e data rulesArg in
  rulesAfter out = JsString.sort match rulesArg with
                                 | ConfigRules => rules (config e)
                                 | Array names => names
                                 end /\
  purify (engine out) = purify e /\
  rulesCache (engine out) = rulesCache e /\
  match rulesArg with
  | ConfigRules => config (engine out) = withRules (config e) (rulesAfter out)
  | Array _ => config (engine out) = config e
  end.
Proof.
  cbn zeta. unfold sanitize.
  repeat match goal with
         | |- context [let '(_, _) := ?x in _] => destruct x
         end.
  cbn. repeat split. destruct rulesArg; reflexivity.
Qed.

(** A call on an instance whose cache agrees with the registry for the
    names at hand runs the rules that the sorted names resolve to, and
    leaves that rule set in the cache. *)
Lemma sanitize_agreeing_cache e data names :
  cacheAgrees e names ->
  let out := sanitize e data (Array names) in
  let compiled := resolve (rulesCache e) (JsString.sort names) in
  rulesAfter out = JsString.sort names /\
  config (engine out) = config e /\
  purify (engine out) = purify e /\
  rulesCache (engine out) = rulesCache e /\
  compiledRulesCache (engine out) !! join "," (JsString.sort names) = Some compiled /\
  (warned out, result out) = runCompiled (config e) (purify e) compiled data.
Proof.
  intros Hagree out compiled.
  destruct (sanitize_frame e data (Array names)) as (Hafter & Hp & Hr & Hc).
  pose proof (sanitize_run e data (Array names)) as Hrun. cbn zeta in Hrun.
  fold out in Hafter, Hp, Hr, Hc, Hrun. rewrite Hafter, Hc in Hrun.
  unfold cacheAgrees in Hagree. fold compiled in Hagree, Hrun.
  repeat split; auto.
  - destruct (compiledRulesCache e !! join "," (JsString.sort names)) as [cached | ] eqn:Hlook.
    + destruct Hrun as [-> _]. now rewrite Hlook, Hagree.
    + now destruct Hrun.
  - destruct (compiledRulesCache e !! join "," (JsString.sort names)) as [cached | ].
    + destruct Hrun as [_ ->]. now rewrite Hagree.
    + now destruct Hrun.
Qed.

End SanitizationFacts.

(* ===================================================================== *)
(** ** Facts about what the [script] rule records *)
(* ===================================================================== *)

Module GrowthFacts.
Import JsString Regex Rules SanitizationEngine Notions Examples.
Import StringFacts RegexFacts ScriptFacts ValueFacts SanitizationFacts.

(** The traversal only adds to the violations it has found. *)
Lemma applyRule_found_le purifier fieldPath st r n :
  (n <= List.length (found st.2))%nat ->
  (n <= List.length (found (applyRule purifier fieldPath st r).2))%nat.
Proof.
  destruct st as [s acc]. unfold applyRule. cbn [snd]. intros Hn.
  destruct (transform r) as [change | ]; cbn [snd found];
    (destruct (validate r) as [check | ]; [ destruct (check s) | ]; cbn [negb];
     rewrite ?length_app; cbn [List.length]; lia).
Qed.

Lemma sanitizeString_found_le purifier compiled n : forall s fieldPath acc,
  (n <= List.length (found acc))%nat ->
  (n <= List.length (found (sanitizeString purifier s compiled fieldPath acc).2))%nat.
Proof.
  unfold sanitizeString.
  induction compiled as [ | r compiled IH ]; cbn [fold_left]; intros s fieldPath acc Hn.
  - exact Hn.
  - pose proof (applyRule_found_le purifier fieldPath (s, acc) r n Hn) as H1.
    destruct (applyRule purifier fieldPath (s, acc) r) as [s1 acc1]. now apply IH.
Qed.

Lemma sanitizeValue_found_le purifier compiled n data : forall fieldPath acc,
  (n <= List.length (found acc))%nat ->
  (n <= List.length (found (sanitizeValue purifier data compiled fieldPath acc).2))%nat.
Proof.
  induction data as [ | | b | m | s | items IH | props IH ] using value_ind_nested;
    intros fieldPath acc Hn; try exact Hn.
  - cbn [sanitizeValue].
    pose proof (sanitizeString_found_le purifier compiled n s fieldPath acc Hn) as H1.
    now destruct (sanitizeString purifier s compiled fieldPath acc).
  - cbn [sanitizeValue].
    pose proof (mapIndexed_invariant
                  (fun index item acc0 =>
                     sanitizeValue purifier item compiled (indexPath fieldPath index) acc0)
                  (fun acc0 => (n <= List.length (found acc0))%nat) items) as H1.
    match goal with
    | |- context [mapIndexed ?f 0 items acc] =>
        specialize (H1 (Forall_impl _ _ _ IH (fun item Hitem i st => Hitem _ st)) 0 acc Hn);
        destruct (mapIndexed f 0 items acc)
    end.
    exact H1.
  - cbn [sanitizeValue].
    match goal with
    | |- context [fold_left ?f props ([], acc)] =>
        pose proof (fold_left_invariant f
                      (fun st => (n <= List.length (found st.2))%nat) props) as H1;
        destruct (fold_left f props ([], acc)) as [obj acc'] eqn:Hfold
    end.
    cbn [snd]. change acc' with ((obj, acc').2). rewrite <- Hfold. apply H1; [ | exact Hn ].
    eapply Forall_impl; [ exact IH | ].
    intros [key val] Hval [obj0 acc0] Hacc0. cbn [snd] in *.
    specialize (Hval (keyPath fieldPath key) acc0 Hacc0).
    now destruct (sanitizeValue purifier val compiled (keyPath fieldPath key) acc0).
Qed.

(** A loop one of whose turns adds something, and none of whose turns takes
    anything away, adds something. *)
Lemma mapIndexed_grows {St A B : Type} (visit : nat -> A -> St -> B * St)
      (size : St -> nat) items x :
  (forall item i st n, (n <= size st)%nat -> (n <= size (visit i item st).2)%nat) ->
  x ∈ items ->
  (forall i st, (size st < size (visit i x st).2)%nat) ->
  forall i st, (size st < size (mapIndexed visit i items st).2)%nat.
Proof.
  intros Hmono Hx Hgrow.
  assert (Hle : forall l i st n, (n <= size st)%nat -> (n <= size (mapIndexed visit i l st).2)%nat).
  { induction l as [ | item l IH ]; intros i st n Hn; cbn [mapIndexed]; [ exact Hn | ].
    pose proof (Hmono item i st n Hn) as H1. destruct (visit i item st) as [item' st1].
    pose proof (IH (S i) st1 n H1) as H2. now destruct (mapIndexed visit (S i) l st1). }
  induction items as [ | item items IH ]; intros i st; [ now apply elem_of_nil in Hx | ].
  cbn [mapIndexed]. apply elem_of_cons in Hx as [<- | Hx].
  - pose proof (Hgrow i st) as H1. destruct (visit i x st) as [item' st1].
    pose proof (Hle items (S i) st1 _ H1) as H2. now destruct (mapIndexed visit (S i) items st1).
  - pose proof (Hmono item i st _ (Nat.le_refl _)) as H1. destruct (visit i item st) as [item' st1].
    pose proof (IH Hx (S i) st1) as H2. destruct (mapIndexed visit (S i) items st1).
    cbn [snd] in *. lia.
Qed.

Lemma fold_left_grows {St B : Type} (step : St -> B -> St) (size : St -> nat) l x :
  (forall b st n, (n <= size st)%nat -> (n <= size (step st b))%nat) ->
  x ∈ l ->
  (forall st, (size st < size (step st x))%nat) ->
  forall st, (size st < size (fold_left step l st))%nat.
Proof.
  intros Hmono Hx Hgrow.
  assert (Hle : forall l0 st n, (n <= size st)%nat -> (n <= size (fold_left step l0 st))%nat).
  { induction l0 as [ | b l0 IH ]; intros st n Hn; cbn [fold_left]; auto. }
  induction l as [ | b l IH ]; intros st; [ now apply elem_of_nil in Hx | ].
  cbn [fold_left]. apply elem_of_cons in Hx as [<- | Hx].
  - apply Hle, Hgrow.
  - specialize (IH Hx (step st b)). pose proof (Hmono b st _ (Nat.le_refl _)). lia.
Qed.

(** With the [script] rule alone, a text that its pattern matches adds a
    violation, wherever it sits in the value. *)
Lemma script_text_recorded purifier s fieldPath acc :
  test scriptPattern s = true ->
  (List.length (found acc) < List.length (found (sanitizeString purifier s [ script ] fieldPath acc).2))%nat.
Proof.
  intros Htest. unfold sanitizeString. cbn [fold_left]. unfold applyRule.
  cbn [validate transform name script snd found]. rewrite Htest. cbn [negb].
  rewrite length_app. cbn [List.length]. lia.
Qed.

Lemma hasText_recorded purifier data :
  hasText (fun s => test scriptPattern s = true) data ->
  forall fieldPath acc,
    (List.length (found acc)
     < List.length (found (sanitizeValue purifier data [ script ] fieldPath acc).2))%nat.
Proof.
  induction data as [ | | b | m | s | items IH | props IH ] using value_ind_nested;
    intros Hhas fieldPath acc; inversion Hhas as [ s0 Hs | items0 item Hin Hitem | props0 key val Hin Hval ]; subst.
  - cbn [sanitizeValue].
    pose proof (script_text_recorded purifier s fieldPath acc Hs) as H1.
    now destruct (sanitizeString purifier s [ script ] fieldPath acc).
  - cbn [sanitizeValue].
    match goal with
    | |- context [mapIndexed ?f 0 items acc] =>
        pose proof (mapIndexed_grows f (fun a => List.length (found a)) items item) as H1;
        specialize (H1 (fun it i st n => sanitizeValue_found_le purifier [ script ] n it _ st) Hin);
        destruct (mapIndexed f 0 items acc) eqn:Hmap
    end.
    cbn [snd]. match goal with |- (_ < List.length (found ?c))%nat => change c with ((l, c).2) end.
    rewrite <- Hmap. apply H1. intros i st.
    rewrite Forall_forall in IH. now apply IH.
  - cbn [sanitizeValue].
    match goal with
    | |- context [fold_left ?f props ([], acc)] =>
        pose proof (fold_left_grows f (fun st => List.length (found st.2)) props (key, val)) as H1;
        destruct (fold_left f props ([], acc)) as [obj acc'] eqn:Hfold
    end.
    cbn [snd]. change acc' with ((obj, acc').2). rewrite <- Hfold.
    refine (H1 _ Hin _ ([], acc)).
    + intros [k v] [obj0 acc0] n Hn. cbn [snd] in *.
      pose proof (sanitizeValue_found_le purifier [ script ] n v (keyPath fieldPath k) acc0 Hn).
      now destruct (sanitizeValue purifier v [ script ] (keyPath fieldPath k) acc0).
    + intros [obj0 acc0]. cbn [snd].
      rewrite Forall_forall in IH. pose proof (IH (key, val) Hin Hval (keyPath fieldPath key) acc0) as H2.
      cbn [snd] in H2.
      now destruct (sanitizeValue purifier val [ script ] (keyPath fieldPath key) acc0).
Qed.

(** With the [script] rule alone, every violation is a SCRIPT_INJECTION. *)
Lemma script_violations_text vs :
  Forall (recordedBy [ script ]) vs ->
  map (fun v => typeText (type v)) vs = repeat "SCRIPT_INJECTION" (List.length vs).
Proof.
  induction 1 as [ | v vs Hv _ IH ]; [ reflexivity | ].
  cbn [map List.length repeat]. rewrite IH. f_equal.
  destruct Hv as ((r & Hr & Hrule) & Ht & _).
  apply list_elem_of_singleton in Hr. subst r. now rewrite Ht, Hrule.
Qed.

Lemma closedScript_test s : closedScript s -> test scriptPattern s = true.
Proof. intros (pre & body & post & ->). apply script_test. Qed.

Lemma hasText_impl (P Q : string -> Prop) data :
  (forall s, P s -> Q s) -> hasText P data -> hasText Q data.
Proof.
  intros HPQ. induction 1 as [ s Hs | items item Hin _ IH | props key val Hin _ IH ].
  - constructor. now apply HPQ.
  - now apply (hasText_item Q items item).
  - now apply (hasText_property Q props key val).
Qed.

End GrowthFacts.

(* ===================================================================== *)
(** ** Facts about a second pass *)
(* ===================================================================== *)

Module StabilityFacts.
Import JsString Regex Rules SanitizationEngine Notions Examples.
Import StringFacts RegexFacts TextFacts ValueFacts SanitizationFacts.

(** The text that a turn of the loop produces does not depend on what has
    been collected. *)
Lemma applyRule_text purifier fieldPath s acc r :
  (applyRule purifier fieldPath (s, acc) r).1 = stepText purifier r s.
Proof.
  unfold applyRule, stepText. destruct (transform r); reflexivity.
Qed.

Lemma sanitizeString_text purifier compiled : forall s fieldPath acc,
  (sanitizeString purifier s compiled fieldPath acc).1
  = fold_left (fun t r => stepText purifier r t) compiled s.
Proof.
  unfold sanitizeString.
  induction compiled as [ | r compiled IH ]; intros s fieldPath acc; [ reflexivity | ].
  cbn [fold_left].
  pose proof (applyRule_text purifier fieldPath s acc r) as Ht.
  destruct (applyRule purifier fieldPath (s, acc) r) as [s1 acc1]. cbn [fst] in Ht.
  rewrite IH. now rewrite Ht.
Qed.

Lemma applyRule_leaves purifier fieldPath s acc r :
  leaves purifier r s ->
  (applyRule purifier fieldPath (s, acc) r).1 = s /\
  applied (applyRule purifier fieldPath (s, acc) r).2 = applied acc.
Proof.
  intros [Hchange Hstep]. split.
  - now rewrite applyRule_text.
  - unfold applyRule. destruct (transform r) as [change | ]; [ | reflexivity ].
    cbn [snd applied]. rewrite Hchange, String.eqb_refl. reflexivity.
Qed.

Lemma sanitizeString_leaves purifier compiled s : forall fieldPath acc,
  Forall (fun r => leaves purifier r s) compiled ->
  (sanitizeString purifier s compiled fieldPath acc).1 = s /\
  applied (sanitizeString purifier s compiled fieldPath acc).2 = applied acc.
Proof.
  unfold sanitizeString.
  induction compiled as [ | r compiled IH ]; intros fieldPath acc Hall; [ now split | ].
  apply Forall_cons in Hall as [Hr Hall]. cbn [fold_left].
  destruct (applyRule_leaves purifier fieldPath s acc r Hr) as [H1 H2].
  destruct (applyRule purifier fieldPath (s, acc) r) as [s1 acc1]. cbn [fst snd] in H1, H2.
  subst s1. rewrite <- H2. now apply IH.
Qed.

(** A second traversal of a settled value returns it and applies no rule. *)
Lemma mapIndexed_settled {St : Type} (visit : nat -> value -> St -> value * St)
      (I : St -> St -> Prop) items :
  (forall st, I st st) -> (forall a b c, I a b -> I b c -> I a c) ->
  Forall (fun item => forall i st, (visit i item st).1 = item /\ I st (visit i item st).2) items ->
  forall i st, (mapIndexed visit i items st).1 = items /\ I st (mapIndexed visit i items st).2.
Proof.
  intros Hrefl Htrans. induction 1 as [ | item items Hitem _ IH ]; intros i st; cbn [mapIndexed].
  - split; [ reflexivity | apply Hrefl ].
  - destruct (Hitem i st) as [H1 H2]. destruct (visit i item st) as [item' st1].
    cbn [fst snd] in H1, H2. subst item'.
    destruct (IH (S i) st1) as [H3 H4]. destruct (mapIndexed visit (S i) items st1) as [rest' st2].
    cbn [fst snd] in *. subst rest'. split; [ reflexivity | eauto ].
Qed.

Lemma settled_second_pass purifier compiled v :
  settled purifier compiled v ->
  forall fieldPath acc,
    (sanitizeValue purifier v compiled fieldPath acc).1 = v /\
    applied (sanitizeValue purifier v compiled fieldPath acc).2 = applied acc.
Proof.
  induction v as [ | | b | n | s | items IH | props IH ] using value_ind_nested;
    intros Hv fieldPath acc; try (split; reflexivity).
  - inversion Hv as [ | | | | s0 Hall | | ]; subst. cbn [sanitizeValue].
    destruct (sanitizeString_leaves purifier compiled s fieldPath acc Hall) as [H1 H2].
    destruct (sanitizeString purifier s compiled fieldPath acc) as [s' acc'].
    cbn [fst snd] in *. now subst.
  - inversion Hv as [ | | | | | items0 Hall | ]; subst. cbn [sanitizeValue].
    match goal with
    | |- context [mapIndexed ?f 0 items acc] =>
        destruct (mapIndexed_settled f (fun a b => applied b = applied a) items) with (i := 0) (st := acc)
          as [H1 H2]; [ reflexivity | intros a b c H1 H2; congruence | | destruct (mapIndexed f 0 items acc) ]
    end.
    + rewrite Forall_forall in IH, Hall |- *. intros item Hin i st. now apply IH, Hall.
    + cbn [fst snd] in *. now subst.
  - inversion Hv as [ | | | | | | props0 Hnd Hproto Hall ]; subst. cbn [sanitizeValue].
    match goal with
    | |- context [fold_left ?f props ([], acc)] =>
        assert (Hfold : forall built acc0,
                   (forall k, k ∈ map fst props -> k ∉ map fst built) ->
                   (fold_left f props (built, acc0)).1 = built ++ props /\
                   applied (fold_left f props (built, acc0)).2 = applied acc0)
    end.
    { clear Hv. induction props as [ | [key val] props IHprops ]; intros built acc0 Hfresh.
      - cbn. now rewrite app_nil_r.
      - apply Forall_cons in IH as [IHval IH]. apply Forall_cons in Hall as [Hval Hall].
        cbn [map fst] in Hnd, Hproto, Hfresh.
        apply NoDup_cons in Hnd as [Hkey Hnd].
        apply not_elem_of_cons in Hproto as [Hne Hproto].
        cbn [fold_left].
        destruct (IHval Hval (keyPath fieldPath key) acc0) as [H1 H2]. cbn [snd] in H1, H2.
        destruct (sanitizeValue purifier val compiled (keyPath fieldPath key) acc0) as [val' acc1].
        cbn [fst snd] in H1, H2. subst val'.
        rewrite setProperty_fresh by (auto; apply Hfresh; left).
        destruct (IHprops IH Hnd Hproto Hall (built ++ [(key, val)]) acc1) as [H3 H4].
        + intros k Hk. rewrite map_app, elem_of_app. cbn.
          intros [Hb | Heq%list_elem_of_singleton].
          * apply (Hfresh k); [ now right | exact Hb ].
          * subst k. contradiction.
        + rewrite H3, H4, H2, <- app_assoc. now split. }
    destruct (Hfold [] acc) as [H1 H2]; [ intros k _; apply not_elem_of_nil | ].
    destruct (fold_left _ props ([], acc)) as [obj acc']. cbn [fst snd] in *. now subst.
Qed.

(** What the traversal returns is settled, as soon as the texts that the
    loop of [sanitizeString] produces are left alone by the rules. *)
Lemma mapIndexed_Forall {St A B : Type} (visit : nat -> A -> St -> B * St)
      (P : B -> Prop) items :
  Forall (fun item => forall i st, P (visit i item st).1) items ->
  forall i st, Forall P (mapIndexed visit i items st).1.
Proof.
  induction 1 as [ | item items Hitem _ IH ]; intros i st; cbn [mapIndexed].
  - constructor.
  - specialize (Hitem i st). destruct (visit i item st) as [item' st1].
    specialize (IH (S i) st1). destruct (mapIndexed visit (S i) items st1).
    now constructor.
Qed.

Lemma assign_settled (P : value -> Prop) props key v :
  key <> "__proto__" ->
  NoDup (map fst props) -> "__proto__" ∉ map fst props ->
  Forall (fun kv => P (snd kv)) props -> P v ->
  NoDup (map fst (assign props key v)) /\
  ("__proto__" ∉ map fst (assign props key v)) /\
  Forall (fun kv => P (snd kv)) (assign props key v).
Proof.
  intros Hkey Hnd Hproto Hall Hv. split; [ | split ].
  - rewrite assign_keys. destruct (existsb _ _) eqn:Hex; [ exact Hnd | ].
    apply NoDup_app. split; [ exact Hnd | split; [ | apply NoDup_singleton ] ].
    intros k Hk Hk2%list_elem_of_singleton. subst k.
    assert (existsb (String.eqb key) (map fst props) = true); [ | congruence ].
    apply existsb_exists. exists key. split; [ now apply list_elem_of_In | apply String.eqb_refl ].
  - rewrite assign_keys. destruct (existsb _ _); [ exact Hproto | ].
    rewrite elem_of_app, list_elem_of_singleton. intros [H | H]; [ contradiction | congruence ].
  - induction props as [ | [k w] props IH ]; cbn [assign].
    + repeat constructor. exact Hv.
    + apply Forall_cons in Hall as [Hw Hall].
      cbn [map fst] in Hnd, Hproto. apply NoDup_cons in Hnd as [_ Hnd].
      apply not_elem_of_cons in Hproto as [_ Hproto].
      destruct (String.eqb k key); constructor; auto.
Qed.

Lemma setProperty_settled (P : value -> Prop) props key v :
  NoDup (map fst props) -> "__proto__" ∉ map fst props ->
  Forall (fun kv => P (snd kv)) props -> P v ->
  NoDup (map fst (setProperty props key v)) /\
  ("__proto__" ∉ map fst (setProperty props key v)) /\
  Forall (fun kv => P (snd kv)) (setProperty props key v).
Proof.
  intros Hnd Hproto Hall Hv. unfold setProperty.
  destruct (String.eqb_spec key "__proto__"); [ auto | ].
  now apply assign_settled.
Qed.

Lemma first_pass_settled purifier compiled :
  (forall s, Forall (fun r => leaves purifier r
                                (fold_left (fun t r0 => stepText purifier r0 t) compiled s))
               compiled) ->
  forall v fieldPath acc,
    settled purifier compiled (sanitizeValue purifier v compiled fieldPath acc).1.
Proof.
  intros Hleaf.
  induction v as [ | | b | n | s | items IH | props IH ] using value_ind_nested;
    intros fieldPath acc; try (cbn; constructor).
  - cbn [sanitizeValue].
    pose proof (sanitizeString_text purifier compiled s fieldPath acc) as Ht.
    destruct (sanitizeString purifier s compiled fieldPath acc) as [s' acc'].
    cbn [fst] in *. subst s'. constructor. apply Hleaf.
  - cbn [sanitizeValue].
    match goal with
    | |- context [mapIndexed ?f 0 items acc] =>
        pose proof (mapIndexed_Forall f (settled purifier compiled) items) as H1;
        specialize (H1 (Forall_impl _ _ _ IH (fun item Hitem i st => Hitem _ st)) 0 acc);
        destruct (mapIndexed f 0 items acc)
    end.
    cbn [fst] in *. now constructor.
  - cbn [sanitizeValue].
    match goal with
    | |- context [fold_left ?f props ([], acc)] =>
        pose proof (fold_left_invariant f
                      (fun st => NoDup (map fst st.1) /\ ("__proto__" ∉ map fst st.1) /\
                                 Forall (fun kv => settled purifier compiled (snd kv)) st.1)
                      props) as H1;
        destruct (fold_left f props ([], acc)) as [obj acc'] eqn:Hfold
    end.
    cbn [fst]. change obj with ((obj, acc').1). rewrite <- Hfold.
    match goal with
    | |- settled _ _ (VObj ?o) => assert (Hinv : NoDup (map fst o) /\ ("__proto__" ∉ map fst o) /\
                            Forall (fun kv => settled purifier compiled (snd kv)) o)
    end.
    { apply H1.
      - eapply Forall_impl; [ exact IH | ].
        intros [key val] Hval [obj0 acc0] (Hnd & Hproto & Hall). cbn [fst snd] in *.
        specialize (Hval (keyPath fieldPath key) acc0).
        destruct (sanitizeValue purifier val compiled (keyPath fieldPath key) acc0) as [val' acc1].
        cbn [fst snd] in *. now apply setProperty_settled.
      - cbn. split; [ constructor | split; [ apply not_elem_of_nil | constructor ] ]. }
    destruct Hinv as (Hnd & Hproto & Hall). now constructor.
Qed.

(** The stable rules, one by one. *)
Ltac stable_cases H :=
  unfold stableRules in H;
  repeat (apply elem_of_cons in H as [-> | H]);
  [ .. | apply elem_of_nil in H; destruct H ].

Ltac stable_unfold :=
  unfold leaves, stepText, settledFor;
  cbn [transform name command_injection email_normalize path_traversal
       phone_normalize sql Rules.trim url_validate String.eqb Ascii.eqb Bool.eqb andb];
  unfold commandPattern;
  rewrite ?replaceAll_Class.

Lemma stable_establishes purifier r s :
  r ∈ stableRules -> settledFor (name r) (stepText purifier r s).
Proof.
  intros Hr. stable_cases Hr; stable_unfold.
  - apply allOf_without_self.
  - split; [ apply allOf_trim, toLowerCase_lowered | apply trim_idempotent ].
  - exact I.
  - apply allOf_without_self.
  - exact I.
  - apply trim_idempotent.
  - exact I.
Qed.

Lemma stable_fixes purifier r s :
  r ∈ stableRules -> settledFor (name r) s -> leaves purifier r s.
Proof.
  intros Hr. stable_cases Hr; stable_unfold; intros Hs.
  - now rewrite without_fixed.
  - destruct Hs as [Hlow Htrim]. now rewrite (toLowerCase_fixed s Hlow).
  - now split.
  - now rewrite without_fixed.
  - now split.
  - now rewrite Hs.
  - now split.
Qed.

Lemma stable_preserves purifier r r' s :
  r ∈ stableRules -> r' ∈ stableRules -> String.le (name r) (name r') ->
  settledFor (name r) s -> settledFor (name r) (stepText purifier r' s).
Proof.
  intros Hr Hr'. stable_cases Hr; stable_cases Hr';
    (intros Hle; try (vm_compute in Hle; destruct Hle)); stable_unfold; intros Hs;
    try exact I; try exact Hs.
  - now apply allOf_without.
  - now apply allOf_trim, (allOf_toLowerCase _ _ commandChars_lowerChar).
  - now apply allOf_without.
  - now apply allOf_trim.
  - split; [ apply allOf_trim, toLowerCase_lowered | apply trim_idempotent ].
  - destruct Hs as [Hlow Htrim]. split; [ now apply allOf_without | ].
    apply trim_no_space.
    apply (allOf_impl _ _ _ phoneFormatting_space), allOf_without_self.
  - destruct Hs as [Hlow Htrim]. split; [ now apply allOf_trim | apply trim_idempotent ].
  - now apply allOf_without.
  - now apply allOf_trim.
  - apply trim_idempotent.
Qed.

(** Run in the order of their names, the stable rules leave a text that
    each of them leaves alone. *)
Lemma stable_pipeline_settles purifier : forall compiled seen s,
  Forall (fun r => r ∈ stableRules) seen ->
  Forall (fun r => r ∈ stableRules) compiled ->
  StronglySorted byName compiled ->
  Forall (fun r0 => Forall (byName r0) compiled) seen ->
  Forall (fun r0 => settledFor (name r0) s) seen ->
  Forall (fun r => settledFor (name r)
                     (fold_left (fun t r0 => stepText purifier r0 t) compiled s))
         (seen ++ compiled).
Proof.
  induction compiled as [ | r compiled IH ]; intros seen s Hseen Hall Hsorted Hbefore Hs.
  - now rewrite app_nil_r.
  - apply Forall_cons in Hall as [Hr Hall].
    apply StronglySorted_inv in Hsorted as [Hsorted Hrest].
    cbn [fold_left].
    replace (seen ++ r :: compiled) with ((seen ++ [r]) ++ compiled)
      by now rewrite <- app_assoc.
    apply IH; auto.
    + apply Forall_app. split; [ exact Hseen | now constructor ].
    + apply Forall_app. split.
      * eapply Forall_impl; [ exact Hbefore | ]. intros r0 H0. now apply Forall_cons in H0 as [_ H0].
      * constructor; [ exact Hrest | constructor ].
    + apply Forall_app. split.
      * rewrite Forall_forall in Hseen, Hbefore, Hs |- *. intros r0 Hin.
        apply stable_preserves; auto.
        specialize (Hbefore r0 Hin). now apply Forall_cons in Hbefore as [H0 _].
      * constructor; [ now apply stable_establishes | constructor ].
Qed.

Lemma stable_pipeline_leaves purifier compiled :
  Forall (fun r => r ∈ stableRules) compiled ->
  StronglySorted byName compiled ->
  forall s, Forall (fun r => leaves purifier r
                               (fold_left (fun t r0 => stepText purifier r0 t) compiled s))
              compiled.
Proof.
  intros Hall Hsorted s.
  pose proof (stable_pipeline_settles purifier compiled [] s
                (Forall_nil_2 _) Hall Hsorted (Forall_nil_2 _) (Forall_nil_2 _)) as H.
  cbn [app] in H. rewrite Forall_forall in H, Hall |- *.
  intros r Hr. apply stable_fixes; auto.
Qed.

(** The registry of a new instance without custom rules. *)
Lemma register_all_lookup rs : forall m ruleName r,
  fold_left register rs m !! ruleName = Some r ->
  (r ∈ rs /\ name r = ruleName) \/ m !! ruleName = Some r.
Proof.
  induction rs as [ | x rs IH ]; intros m ruleName r H; [ now right | ].
  cbn [fold_left] in H. apply IH in H as [[Hin Hname] | H].
  - left. split; [ now right | exact Hname ].
  - unfold register in H. destruct (decide (name x = ruleName)) as [Heq | Hne].
    + rewrite <- Heq, lookup_insert_eq in H. injection H as <-. left. split; [ now left | exact Heq ].
    + rewrite lookup_insert_ne in H by exact Hne. now right.
Qed.

Lemma create_builtinRegistry c purifier :
  customRules c = [] -> builtinRegistry (create c purifier).
Proof.
  intros Hcustom ruleName r. unfold create, initializeRules. cbn [rulesCache].
  rewrite Hcustom. cbn [fold_left].
  intros H. apply register_all_lookup in H as [H | H]; [ exact H | ].
  now rewrite lookup_empty in H.
Qed.

(** What the names other than [html], [script] and [xss] resolve to. *)
Lemma resolve_elem registry names r :
  r ∈ resolve registry names ->
  exists ruleName, ruleName ∈ names /\ registry !! ruleName = Some r.
Proof.
  induction names as [ | n names IH ]; [ intros H; now apply elem_of_nil in H | ].
  rewrite resolve_cons. destruct (registry !! n) as [r0 | ] eqn:Hn.
  - intros [-> | H]%elem_of_cons.
    + exists n. split; [ now left | exact Hn ].
    + destruct (IH H) as (m & Hm & Hr). exists m. split; [ now right | exact Hr ].
  - intros H. destruct (IH H) as (m & Hm & Hr). exists m. split; [ now right | exact Hr ].
Qed.

Lemma builtin_stable r :
  r ∈ DEFAULT_SANITIZATION_RULES -> name r ∉ [ "html"; "script"; "xss" ] ->
  r ∈ stableRules.
Proof.
  intros Hr Hname. unfold DEFAULT_SANITIZATION_RULES in Hr.
  repeat (apply elem_of_cons in Hr as [-> | Hr]);
    try (exfalso; apply Hname; cbn; set_solver);
    try (unfold stableRules; set_solver).
Qed.

Lemma resolve_stable e names :
  builtinRegistry e ->
  Forall (fun n => n ∉ [ "html"; "script"; "xss" ]) names ->
  Forall (fun r => r ∈ stableRules) (resolve (rulesCache e) names).
Proof.
  intros Hreg Hnames. rewrite Forall_forall in Hnames. rewrite Forall_forall.
  intros r Hr.
  apply resolve_elem in Hr as (n & Hn & Hlookup).
  destruct (Hreg n r Hlookup) as [Hin Hname].
  apply builtin_stable; [ exact Hin | ]. rewrite Hname. now apply Hnames.
Qed.

Lemma resolve_sorted e names :
  builtinRegistry e ->
  StronglySorted String.le names ->
  StronglySorted byName (resolve (rulesCache e) names).
Proof.
  intros Hreg. induction 1 as [ | n names Hsorted IH Hall ]; [ constructor | ].
  rewrite resolve_cons. destruct (rulesCache e !! n) as [r | ] eqn:Hn; [ | exact IH ].
  constructor; [ exact IH | ].
  rewrite Forall_forall in Hall. rewrite Forall_forall. intros r' Hr'.
  apply resolve_elem in Hr' as (n' & Hn' & Hlookup).
  unfold byName. destruct (Hreg n r Hn) as [_ ->]. destruct (Hreg n' r' Hlookup) as [_ ->].
  now apply Hall.
Qed.

End StabilityFacts.

(* ===================================================================== *)
(** ** Facts about the texts that the rule [script] flags *)
(* ===================================================================== *)

Module FlaggedFacts.
Import JsString Regex Rules SanitizationEngine Notions Shapes.
Import StringFacts ValueFacts SanitizationFacts GrowthFacts.

(** With the rule [script] alone, the traversal records one violation for
    each text that the pattern matches, at the path of the text. *)
Lemma script_flagged purifier data : forall fieldPath acc,
  map field (found (sanitizeValue purifier data [ script ] fieldPath acc).2)
  = map field (found acc) ++ flagged (test scriptPattern) data fieldPath.
Proof.
  induction data as [ | | b | n | s | items IH | props IH ] using value_ind_nested;
    intros fieldPath acc; try (cbn; now rewrite app_nil_r).
  - cbn [sanitizeValue sanitizeString fold_left flagged].
    unfold applyRule. cbn [validate transform name script found applied snd].
    destruct (test scriptPattern s); cbn [negb found snd].
    + now rewrite map_app.
    + now rewrite app_nil_r.
  - cbn [sanitizeValue flagged].
    match goal with
    | |- context [mapIndexed ?f 0 items acc] =>
        assert (Hmap : forall index acc0,
                   map field (found (mapIndexed f index items acc0).2)
                   = map field (found acc0)
                     ++ (fix each (items : list value) (index : nat) {struct items}
                           : list string :=
                           match items with
                           | [] => []
                           | item :: rest =>
                               flagged (test scriptPattern) item (indexPath fieldPath index)
                               ++ each rest (S index)
                           end) items index)
    end.
    { induction IH as [ | item items Hitem _ IHitems ]; intros index acc0.
      - cbn. now rewrite app_nil_r.
      - cbn [mapIndexed].
        pose proof (Hitem (indexPath fieldPath index) acc0) as H1.
        destruct (sanitizeValue purifier item [ script ] (indexPath fieldPath index) acc0)
          as [item' acc1].
        pose proof (IHitems (S index) acc1) as H2.
        destruct (mapIndexed _ (S index) items acc1) as [rest' acc2].
        cbn [snd] in *. now rewrite H2, H1, app_assoc. }
    specialize (Hmap 0 acc).
    now destruct (mapIndexed _ 0 items acc).
  - cbn [sanitizeValue flagged].
    match goal with
    | |- context [fold_left ?f props ([], acc)] =>
        assert (Hfold : forall built acc0,
                   map field (found (fold_left f props (built, acc0)).2)
                   = map field (found acc0)
                     ++ flat_map (fun kv => flagged (test scriptPattern) (snd kv)
                                              (keyPath fieldPath (fst kv))) props)
    end.
    { induction IH as [ | [key val] props Hval _ IHprops ]; intros built acc0.
      - cbn. now rewrite app_nil_r.
      - cbn [fold_left]. cbn [flat_map fst snd] in *.
        pose proof (Hval (keyPath fieldPath key) acc0) as H1.
        destruct (sanitizeValue purifier val [ script ] (keyPath fieldPath key) acc0)
          as [val' acc1].
        cbn [snd] in *. now rewrite IHprops, H1, app_assoc. }
    specialize (Hfold [] acc).
    now destruct (fold_left _ props ([], acc)).
Qed.

(** What [sanitize] reports of the violations of the rule [script]. *)
Lemma script_reports vs :
  Forall (recordedBy [ script ]) vs ->
  map report vs = map (fun path => path +:+ ": SCRIPT_INJECTION") (map field vs).
Proof.
  induction 1 as [ | v vs Hv _ IH ]; [ reflexivity | ].
  cbn [map]. rewrite IH. f_equal.
  destruct Hv as ((r & Hr & Hrule) & Ht & _).
  apply list_elem_of_singleton in Hr. subst r.
  unfold report. now rewrite Ht, Hrule.
Qed.

(** A value that holds a text with the property [P] has a flagged path. *)
Lemma hasText_flagged (P : string -> bool) data :
  hasText (fun s => P s = true) data -> forall fieldPath, flagged P data fieldPath <> [].
Proof.
  induction 1 as [ s Hs | items item Hin _ IH | props key val Hin _ IH ]; intros fieldPath.
  - cbn. now rewrite Hs.
  - cbn [flagged]. generalize 0.
    induction Hin as [ item items | item other items _ IHin ]; intros index.
    + intros Hnil. apply app_eq_nil in Hnil as [Hnil _]. now apply IH in Hnil.
    + intros Hnil. apply app_eq_nil in Hnil as [_ Hnil]. now apply IHin in Hnil.
  - cbn [flagged]. apply list_elem_of_split in Hin as (before & rest & ->).
    rewrite flat_map_app. cbn [flat_map fst snd].
    intros Hnil. apply app_eq_nil in Hnil as [_ Hnil].
    apply app_eq_nil in Hnil as [Hnil _]. now apply IH in Hnil.
Qed.

End FlaggedFacts.

(* ===================================================================== *)
(** ** Properties of the normalization engine *)
(* ===================================================================== *)

Module NormalizationProperties.
Import JsString NormalizationEngine Notions Examples ValueFacts.

(** What does hold of [normalizePagination] on integers: the three clamped
    fields are in range, and [hasPrev] agrees with the clamped page. *)
Lemma normalizePagination_clamps config p pg lm tt :
  page p = Int pg -> limit p = Int lm -> total p = Int tt ->
  let q := normalizePagination config p in
  page q = Int (Z.max 1 pg) /\
  limit q = Int (Z.max 1 (Z.min 100 lm)) /\
  total q = Int (Z.max 0 tt) /\
  hasPrev q = JsMath.gt (page q) (Int 1).
Proof.
  intros Hp Hl Ht q. subst q. unfold normalizePagination; cbn.
  rewrite Hp, Hl, Ht; cbn. repeat split.
  unfold JsMath.gt; cbn.
  destruct (Z.ltb_spec 1 pg), (Z.ltb_spec 1 (Z.max 1 pg)); lia.
Qed.

(** On fields that are already in range nothing is clamped, and the derived
    fields are then the ones of the invariant. *)
Lemma normalizePagination_in_range config p pg lm tt :
  page p = Int pg -> limit p = Int lm -> total p = Int tt ->
  (1 <= pg)%Z -> (1 <= lm <= 100)%Z -> (0 <= tt)%Z ->
  let q := normalizePagination config p in
  page q = Int pg /\ limit q = Int lm /\ total q = Int tt /\
  totalPages q = JsMath.max (Int 1) (JsMath.ceilDiv (total q) (limit q)) /\
  hasNext q = JsMath.lt (page q) (totalPages q) /\
  hasPrev q = JsMath.gt (page q) (Int 1).
Proof.
  intros Hp Hl Ht Hpg Hlm Htt q. subst q. unfold normalizePagination.
  cbn [page limit total totalPages hasNext hasPrev]. rewrite Hp, Hl, Ht.
  cbn [JsMath.max JsMath.min].
  rewrite (Z.max_r 1 pg), (Z.min_r 100 lm), (Z.max_r 1 lm), (Z.max_r 0 tt) by lia.
  repeat split.
  unfold JsMath.ceilDiv. destruct (Z.eqb_spec lm 0); [ lia | ].
  cbn [JsMath.max JsMath.lt].
  destruct (Z.ltb_spec pg (- (- tt / lm))), (Z.ltb_spec pg (Z.max 1 (- (- tt / lm)))); lia.
Qed.

(** C2 (the code departs from the claim): on [{page: 0, limit: 500, total:
    23}] [normalizePagination] returns [hasNext: true] next to [page: 1] and
    [totalPages: 1], because [totalPages] and [hasNext] are computed from
    the fields as they were passed and not from the clamped ones; likewise
    [{page: 1, limit: 500, total: 150}] gets [totalPages: 1] next to
    [limit: 100]. *)
Theorem normalizePagination_derives_from_unclamped_fields :
  forall config,
    let q := normalizePagination config pagination_0_500_23 in
    let q' := normalizePagination config pagination_1_500_150 in
    (page q = Int 1 /\ limit q = Int 100 /\ total q = Int 23 /\
     totalPages q = Int 1 /\ hasPrev q = false /\
     hasNext q = true /\ JsMath.lt (page q) (totalPages q) = false) /\
    (limit q' = Int 100 /\ total q' = Int 150 /\ totalPages q' = Int 1 /\
     JsMath.max (Int 1) (JsMath.ceilDiv (total q') (limit q')) = Int 2).
Proof. intros config. cbv. repeat split. Qed.

(** The classification of the three shapes of [error]: whenever
    [normalizeError] returns, under any of the three error formats, the
    message and the code of the response are these. *)
Lemma normalizeError_classification host config thrown context codeArg d r :
  normalizeError host config thrown context codeArg d = Returns r ->
  match thrown with
  | ErrorObject name msg _ =>
      message (error r) = VStr msg /\
      code (error r) =
        js_or (codeParam codeArg) (js_or (VStr name) (VStr "INTERNAL_ERROR"))
  | Plain (VStr text) =>
      message (error r) = VStr text /\
      code (error r) = js_or (codeParam codeArg) (VStr "VALIDATION_ERROR")
  | Plain other =>
      message (error r) =
        js_or (optionalGet other "message") (VStr "An unexpected error occurred") /\
      code (error r) =
        js_or (codeParam codeArg) (js_or (optionalGet other "code") (VStr "UNKNOWN_ERROR"))
  end.
Proof.
  unfold normalizeError, normalizeErrorWith, applyErrorFormatting.
  destruct (createMetadata host config context 0) as [meta tick].
  destruct (errorFormat config);
    destruct thrown as [nm msg st | [ | | b | n | s | items | props ]]; cbn;
    try (intros [= <-]; cbn; split; reflexivity);
    match goal with
    | |- context [match ?c with _ => _ end] => destruct c eqn:Hc; try discriminate
    end; intros [= <-]; cbn; split; reflexivity.
Qed.

(** [normalizeError] returns whenever the error format is not [detailed]. *)
Lemma normalizeError_returns host config thrown context codeArg d :
  errorFormat config <> ErrorDetailed ->
  exists r, normalizeError host config thrown context codeArg d = Returns r.
Proof.
  intros Hf. unfold normalizeError, normalizeErrorWith, applyErrorFormatting.
  destruct (createMetadata host config context 0) as [meta tick].
  destruct (errorFormat config); [ | | congruence ];
    destruct thrown as [nm msg st | [ | | b | n | s | items | props ]];
    eexists; reflexivity.
Qed.

(** C5 (the code departs from the claim): with [errorFormat: 'detailed'],
    an error value whose [code] is a number, here [{code: 42}], makes
    [normalizeError] throw a [TypeError] from [generateHelpUrl] instead of
    returning an [ErrorResponse]. *)
Theorem normalizeError_throws_on_numeric_code :
  forall host context f,
    normalizeError host (configOf f ErrorDetailed)
      (Plain (VObj [("code", VNum 42)])) context None VUndefined
    = Throws (TypeError "errorCode.toLowerCase is not a function").
Proof.
  intros host context f. unfold normalizeError, normalizeErrorWith.
  destruct (createMetadata host (configOf f ErrorDetailed) context 0) as [meta tick].
  reflexivity.
Qed.

(** C9: under [format: 'minimal'] [normalizeSuccess] returns exactly
    [{success: true, data}], without [metadata] and without [pagination]
    even when one was passed; under [format: 'detailed'] the metadata
    carries a non-empty [server] and, the version text of the runtime being
    non-empty, a non-empty [nodeVersion]. *)
Theorem normalizeSuccess_format_fidelity :
  forall (T : Type) host config (payload : T) context paging,
    (format config = FormatMinimal ->
     normalizeSuccess host config payload context paging =
       {| success := true; data := payload; metadata := None; pagination := None |}) /\
    (format config = FormatDetailed -> processVersion host <> "" ->
     exists m label v,
       metadata (normalizeSuccess host config payload context paging) = Some m /\
       server m = Some label /\ label <> "" /\
       nodeVersion m = Some v /\ v <> "" /\
       success (normalizeSuccess host config payload context paging) = true /\
       data (normalizeSuccess host config payload context paging) = payload).
Proof.
  intros T host config payload context paging.
  unfold normalizeSuccess, applyFormatting.
  destruct (createMetadata host config context 0) as [meta tick].
  split; intros Hf.
  - rewrite Hf. reflexivity.
  - intros Hv. rewrite Hf. cbn.
    exists (detailedMetadata host meta), (serverLabel host), (processVersion host).
    repeat split; auto.
    unfold serverLabel. destruct (NODE_ENV host) as [env|]; [ | discriminate ].
    destruct (String.eqb_spec env ""); [ discriminate | assumption ].
Qed.

(** C9, at a concrete input: the payload [{id: 1}] under the two formats. *)
Lemma normalizeSuccess_format_fidelity_witness :
  normalizeSuccess testHost (configOf FormatMinimal ErrorStandard)
    (VObj [("id", VNum 1)]) testContext (Some pagination_0_500_23)
  = {| success := true; data := VObj [("id", VNum 1)];
       metadata := None; pagination := None |}
  /\
  exists m label v,
    metadata (normalizeSuccess testHost (configOf FormatDetailed ErrorStandard)
                (VObj [("id", VNum 1)]) testContext None) = Some m /\
    server m = Some label /\ label <> "" /\
    nodeVersion m = Some v /\ v <> "" /\
    success (normalizeSuccess testHost (configOf FormatDetailed ErrorStandard)
               (VObj [("id", VNum 1)]) testContext None) = true /\
    data (normalizeSuccess testHost (configOf FormatDetailed ErrorStandard)
            (VObj [("id", VNum 1)]) testContext None) = VObj [("id", VNum 1)].
Proof.
  split.
  - apply (normalizeSuccess_format_fidelity value testHost
             (configOf FormatMinimal ErrorStandard)). reflexivity.
  - apply (normalizeSuccess_format_fidelity value testHost
             (configOf FormatDetailed ErrorStandard)); [ reflexivity | discriminate ].
Defined.

(** [sanitizeErrorDetails], one level at a time. *)
Lemma sanitizeErrorDetails_object props :
  sanitizeErrorDetails (VObj props) =
  VObj (fold_left
          (fun o '(key, val) =>
             setProperty o key
               (if isSensitiveField key then VStr "[REDACTED]"
                else sanitizeErrorDetails val))
          props []).
Proof.
  change (sanitizeErrorDetails (VObj props)) with
    (VObj (fold_left
             (fun sanitized '(key, val) =>
                if isSensitiveField key
                then setProperty sanitized key (VStr "[REDACTED]")
                else setProperty sanitized key (sanitizeErrorDetails val))
             props [])).
  f_equal. apply fold_left_ext. intros o [key val].
  destruct (isSensitiveField key); reflexivity.
Qed.

(** C6, the counterexample: a property whose value is the number 0 (a value
    that is not a container) does not pass through unchanged, it comes back
    as [undefined]; so do [false] and the empty string. *)
Lemma sanitizeErrorDetails_drops_falsy_values :
  sanitizeErrorDetails (VObj [ ("count", VNum 0); ("active", VBool false); ("note", VStr "") ])
  = VObj [ ("count", VUndefined); ("active", VUndefined); ("note", VUndefined) ]
  /\ sanitizeErrorDetails (VNum 0) <> VNum 0.
Proof. split; [ reflexivity | discriminate ]. Qed.

(** C6, as amended: in an object (with distinct keys, none of them
    ["__proto__"]) every property whose key, in lower case, contains one of
    the eleven sensitive words gets the value ["[REDACTED]"], and every other
    property gets its value redacted recursively; an array is redacted
    element by element; a value that is not a container passes through
    unchanged when it is truthy and becomes [undefined] when it is falsy;
    and [normalizeError] stores the redacted details, which for the details
    of the example are the expected ones. *)
Theorem sanitizeErrorDetails_redacts :
  forall props,
    NoDup (map fst props) -> "__proto__" ∉ map fst props ->
    sanitizeErrorDetails (VObj props) =
      VObj (map (fun '(key, val) =>
                   (key, if isSensitiveField key then VStr "[REDACTED]"
                         else sanitizeErrorDetails val)) props)
    /\ (forall items,
          sanitizeErrorDetails (VArr items) = VArr (map sanitizeErrorDetails items))
    /\ (forall d,
          match d with
          | VArr _ | VObj _ => True
          | _ => sanitizeErrorDetails d = if truthy d then d else VUndefined
          end)
    /\ (forall host config thrown context codeArg d r,
          normalizeError host config thrown context codeArg d = Returns r ->
          errorFormat config <> ErrorSimple ->
          details (error r) = Some (sanitizeErrorDetails d))
    /\ sanitizeErrorDetails detailsExample = detailsExampleRedacted.
Proof.
  intros props Hnd Hproto. repeat split.
  - rewrite sanitizeErrorDetails_object.
    rewrite (fold_setProperty
               (fun key val => if isSensitiveField key then VStr "[REDACTED]"
                               else sanitizeErrorDetails val)); auto.
    intros k _. apply not_elem_of_nil.
  - intros [ | | [] | n | s | items | ps ]; auto; cbn.
    + destruct (n =? 0)%Z; reflexivity.
    + destruct (String.eqb s ""); reflexivity.
  - intros host config thrown context codeArg d r.
    unfold normalizeError, normalizeErrorWith, applyErrorFormatting.
    destruct (createMetadata host config context 0) as [meta tick].
    destruct (errorFormat config) eqn:Hf; [ congruence | | ].
    + destruct thrown as [nm msg st | [ | | b | n | s | items | ps ]];
        intros [= <-] _; reflexivity.
    + destruct thrown as [nm msg st | [ | | b | n | s | items | ps ]]; cbn;
        match goal with
        | |- context [match ?c with _ => _ end] => destruct c; try discriminate
        end; intros [= <-] _; reflexivity.
Qed.

(** C6, at a concrete input: an object with one sensitive key. *)
Lemma sanitizeErrorDetails_redacts_witness :
  sanitizeErrorDetails
    (VObj [ ("user", VStr "ann"); ("apiKey", VStr "k-1"); ("retries", VNum 3) ])
  = VObj [ ("user", VStr "ann"); ("apiKey", VStr "[REDACTED]"); ("retries", VNum 3) ].
Proof.
  refine (proj1 (sanitizeErrorDetails_redacts
                   [ ("user", VStr "ann"); ("apiKey", VStr "k-1"); ("retries", VNum 3) ]
                   _ _)).
  - apply (bool_decide_unpack _). vm_compute. exact I.
  - apply (bool_decide_unpack _). vm_compute. exact I.
Defined.

End NormalizationProperties.


(* ===================================================================== *)
(** ** Properties of the sanitization engine *)
(* ===================================================================== *)

Module SanitizationProperties.
Import JsString Regex Rules SanitizationEngine Notions Examples Shapes.
Import StringFacts RegexFacts ScriptFacts TextFacts ValueFacts SanitizationFacts.
Import GrowthFacts StabilityFacts FlaggedFacts.

(** C3, the counterexample: ["email-normalize"] is not a key of the table
    of violation types, and the violation that the rule records for a text
    that is not an address has type XSS and severity [high], not [medium]. *)
Lemma unmapped_rule_violation_is_not_medium :
  assoc "email-normalize" typeMap = None /\
  found (sanitizeValue mockPurify (VStr "nobody") [email_normalize] "email" nothing).2
  = [ {| type := Enum XSS; field := "email"; originalValue := "nobody";
         sanitizedValue := "nobody"; rule := "email-normalize"; severity := high |} ] /\
  high <> medium.
Proof. split; [ reflexivity | split; [ vm_compute; reflexivity | discriminate ] ]. Qed.

(** C3, as amended: for every rule name that is not a key of the table of
    violation types (and is not the name of a member that the table inherits
    from [Object.prototype]), a violation recorded for that rule has type XSS
    and severity [high], the severity the second table gives for XSS. *)
Theorem unmapped_rule_violation_is_high_xss :
  forall purifier data compiled fieldPath v,
    v ∈ found (sanitizeValue purifier data compiled fieldPath nothing).2 ->
    assoc (rule v) typeMap = None ->
    inherited (rule v) = false ->
    type v = Enum XSS /\ severity v = high.
Proof.
  intros purifier data compiled fieldPath v Hv Hmap Hinh.
  pose proof (sanitizeValue_recorded purifier compiled data fieldPath nothing
                (Forall_nil_2 _)) as Hall.
  rewrite Forall_forall in Hall. destruct (Hall v Hv) as (_ & Ht & Hs & _).
  unfold getSecurityViolationType in Ht. rewrite Hmap, Hinh in Ht.
  rewrite Hs, Ht. split; reflexivity.
Qed.

(** C3, at a concrete input: the violation that [email-normalize] records
    for the text ["nobody"]. *)
Lemma unmapped_rule_violation_is_high_xss_witness :
  type {| type := Enum XSS; field := "email"; originalValue := "nobody";
          sanitizedValue := "nobody"; rule := "email-normalize"; severity := high |}
  = Enum XSS /\
  severity {| type := Enum XSS; field := "email"; originalValue := "nobody";
              sanitizedValue := "nobody"; rule := "email-normalize"; severity := high |}
  = high.
Proof.
  apply (unmapped_rule_violation_is_high_xss mockPurify (VStr "nobody")
           [email_normalize] "email").
  - vm_compute. apply list_elem_of_here.
  - reflexivity.
  - reflexivity.
Defined.

(** A rule named after an inherited member, such as ["constructor"], is the
    one case in which the severity is [medium]; its type is then not XSS. *)
Lemma inherited_rule_name_gives_medium :
  getSecurityViolationType "constructor" = Inherited "constructor" /\
  getViolationSeverity (getSecurityViolationType "constructor") = medium.
Proof. split; reflexivity. Qed.

(** [sanitize] depends on the names passed only through their sorted list. *)
Lemma sanitize_permutation e data names1 names2 :
  Permutation names1 names2 ->
  sanitize e data (Array names1) = sanitize e data (Array names2).
Proof.
  intros Hp. unfold sanitize. now rewrite (sort_unique names1 names2 Hp).
Qed.


(** For instance, the array [["trim", "html", "email-normalize"]] of a
    caller is left as [["email-normalize", "html", "trim"]]. *)
Lemma sanitize_sorts_the_rules_example purifier :
  rulesAfter (sanitize (create (sanitizationConfig false false) purifier)
                (VStr "x") (Array [ "trim"; "html"; "email-normalize" ]))
  = [ "email-normalize"; "html"; "trim" ].
Proof. vm_compute. reflexivity. Qed.

(** When the argument is left out, it is the array of the configuration that
    is left sorted. *)
Lemma sanitize_sorts_the_configured_rules purifier :
  rules (config (engine (sanitize (create (sanitizationConfig false false) purifier)
                           (VStr "x") ConfigRules)))
  = [ "html"; "script"; "trim"; "xss" ].
Proof. vm_compute. reflexivity. Qed.

(** C1 (the code departs from the claim): for ["  JOHN@EXAMPLE.COM  "] the
    rule lists [["trim", "email-normalize"]] and [["email-normalize",
    "trim"]] give the same result, with the violation of the e-mail shape
    in both: the array is sorted before the rules are resolved, so
    [email-normalize] always runs before [trim]. *)
Theorem caller_order_of_rules_is_lost :
  forall purifier strict,
    let e := create (sanitizationConfig strict false) purifier in
    let expected :=
      Returns {| sanitized := VStr "john@example.com";
                 violations := [ ": XSS" ];
                 appliedRules := [ "email-normalize" ] |} in
    result (sanitize e (VStr "  JOHN@EXAMPLE.COM  ") (Array [ "trim"; "email-normalize" ]))
      = expected /\
    result (sanitize e (VStr "  JOHN@EXAMPLE.COM  ") (Array [ "email-normalize"; "trim" ]))
      = expected /\
    rulesAfter (sanitize e (VStr "  JOHN@EXAMPLE.COM  ") (Array [ "trim"; "email-normalize" ]))
      = [ "email-normalize"; "trim" ].
Proof.
  intros purifier strict e expected. subst e expected.
  rewrite (sanitize_permutation _ _ [ "trim"; "email-normalize" ]
             [ "email-normalize"; "trim" ]) by apply perm_swap.
  destruct strict; vm_compute; repeat split.
Qed.

(** The cache agrees with the registry on a new instance and after every
    change of the registry, which empties it; a call of [sanitize] keeps the
    agreement for every list that is sorted to the same names or has another
    key. *)
Lemma cacheAgrees_create c purifier names : cacheAgrees (create c purifier) names.
Proof. unfold cacheAgrees, create. cbn [compiledRulesCache]. now rewrite lookup_empty. Qed.

Lemma cacheAgrees_addCustomRule e r names : cacheAgrees (addCustomRule e r) names.
Proof. unfold cacheAgrees, addCustomRule. cbn [compiledRulesCache]. now rewrite lookup_empty. Qed.

Lemma cacheAgrees_removeRule e ruleName names : cacheAgrees (removeRule e ruleName) names.
Proof. unfold cacheAgrees, removeRule. cbn [compiledRulesCache]. now rewrite lookup_empty. Qed.

Lemma cacheAgrees_sanitize e data names0 names :
  cacheAgrees e names ->
  JsString.sort names = JsString.sort names0 \/
  join "," (JsString.sort names) <> join "," (JsString.sort names0) ->
  cacheAgrees (engine (sanitize e data (Array names0))) names.
Proof.
  intros Hagree Hkey.
  destruct (sanitize_frame e data (Array names0)) as (Hafter & _ & Hreg & _).
  pose proof (sanitize_run e data (Array names0)) as Hrun. cbn zeta in Hrun.
  rewrite Hafter in Hrun. unfold cacheAgrees in *. rewrite Hreg.
  destruct (compiledRulesCache e !! join "," (JsString.sort names0)) as [cached | ] eqn:H0.
  - destruct Hrun as [-> _]. exact Hagree.
  - destruct Hrun as [Hnew _].
    destruct (decide (join "," (JsString.sort names) = join "," (JsString.sort names0)))
      as [Heq | Hne].
    + destruct Hkey as [Hsame | Hne]; [ | contradiction ].
      rewrite Hsame. now rewrite Hnew.
    + unfold sanitize in *. rewrite H0 in *.
      destruct (runCompiled _ _ _ _). cbn [engine compiledRulesCache] in *.
      rewrite lookup_insert_ne by congruence. exact Hagree.
Qed.

(** Two lists of names can share a key: after a call with the one unknown
    name ["html,trim"], the cache holds the empty rule set under the key of
    [["html", "trim"]], and a call with these two names applies no rule. *)
Lemma shared_cache_key :
  let e := create (sanitizationConfig false false) mockPurify in
  let e1 := engine (sanitize e (VStr "x") (Array [ "html,trim" ])) in
  result (sanitize e (VStr " <b>x</b> ") (Array [ "html"; "trim" ]))
  = Returns {| sanitized := VStr "x"; violations := [ ": HTML_INJECTION" ];
               appliedRules := [ "html"; "trim" ] |} /\
  result (sanitize e1 (VStr " <b>x</b> ") (Array [ "html"; "trim" ]))
  = Returns {| sanitized := VStr " <b>x</b> "; violations := []; appliedRules := [] |}.
Proof. cbn zeta. split; vm_compute; reflexivity. Qed.

(** C7 (the code departs from the claim): a name with no registered rule
    is not always dropped.  The cache of compiled rule sets is keyed by the
    sorted names joined by commas, so after a call with the rules
    [["html", "trim"]] the single name ["html,trim"], which the registry
    does not hold and [validateConfig] refuses, finds their entry: the call
    runs [html] and [trim], where the call without the name returns the text
    as it is. *)
Theorem unknown_name_runs_cached_rules :
  forall purifier strict,
    let e := create (sanitizationConfig strict false) purifier in
    let e1 := engine (sanitize e (VStr "x") (Array [ "html"; "trim" ])) in
    rulesCache e1 !! "html,trim" = None /\
    validateConfig e1 (withRules (sanitizationConfig strict false) [ "html,trim" ])
    = Throws (JsError "Invalid sanitization rules: html,trim") /\
    result (sanitize e1 (VStr " <b>x</b> ") (Array [ "html,trim" ]))
    = Returns {| sanitized := VStr "x"; violations := [ ": HTML_INJECTION" ];
                 appliedRules := [ "html"; "trim" ] |} /\
    result (sanitize e1 (VStr " <b>x</b> ") (Array []))
    = Returns {| sanitized := VStr " <b>x</b> "; violations := []; appliedRules := [] |}.
Proof.
  intros purifier strict e e1. subst e e1.
  destruct strict; vm_compute; repeat split.
Qed.

(** Where the cache does not hold a different rule set under either key,
    [sanitize] leaves out the names that are not registered, without an
    error: the call returns (or rejects) exactly as for the list without
    those names; [validateConfig] throws an error whose message lists, in
    order, every name of [config.rules] that is not registered, and returns
    [true] when there is none. *)
Theorem unknown_rule_names :
  forall e data names c,
    cacheAgrees e names ->
    cacheAgrees e (List.filter (available e) names) ->
    (result (sanitize e data (Array names))
       = result (sanitize e data (Array (List.filter (available e) names))) /\
     warned (sanitize e data (Array names))
       = warned (sanitize e data (Array (List.filter (available e) names)))) /\
    validateConfig e c =
      (if forallb (available e) (rules c) then Returns true
       else Throws (JsError ("Invalid sanitization rules: " +:+
                             join ", " (List.filter (fun r => negb (available e r)) (rules c))))).
Proof.
  intros e data names c H1 H2. split.
  - assert (Hsame :
      forall l, cacheAgrees e l ->
        (warned (sanitize e data (Array l)), result (sanitize e data (Array l)))
        = runCompiled (config e) (purify e) (resolve (rulesCache e) (JsString.sort l)) data).
    { intros l Hl. apply (sanitize_agreeing_cache e data l Hl). }
    pose proof (Hsame names H1) as E1.
    pose proof (Hsame _ H2) as E2.
    rewrite sort_filter, <- (sort_filter (available e)) in E2.
    rewrite sort_filter, resolve_filter in E2. rewrite <- E1 in E2.
    injection E2 as -> ->. split; reflexivity.
  - unfold validateConfig.
    assert (Hlen : forall l,
               Nat.eqb (List.length (List.filter (fun r => negb (available e r)) l)) 0
               = forallb (available e) l).
    { induction l as [ | r l IH ]; [ reflexivity | ].
      cbn [List.filter forallb]. destruct (available e r); [ exact IH | reflexivity ]. }
    rewrite Hlen. destruct (forallb (available e) (rules c)); reflexivity.
Qed.

(** At a concrete input: a new instance and a list with one unknown
    name. *)
Lemma unknown_rule_names_witness :
  result (sanitize (create (sanitizationConfig false false) mockPurify)
            (VStr " <b>x</b> ") (Array [ "trim"; "no-such-rule"; "html" ]))
  = result (sanitize (create (sanitizationConfig false false) mockPurify)
              (VStr " <b>x</b> ") (Array [ "trim"; "html" ])).
Proof.
  refine (proj1 (proj1 (unknown_rule_names
                          (create (sanitizationConfig false false) mockPurify)
                          (VStr " <b>x</b> ") [ "trim"; "no-such-rule"; "html" ]
                          (sanitizationConfig false false) _ _))).
  - vm_compute. exact I.
  - vm_compute. exact I.
Defined.

(** The two sides on an example: the unknown name is dropped by [sanitize]
    and reported by [validateConfig]. *)
Lemma unknown_rule_names_example :
  result (sanitize (create (sanitizationConfig false false) mockPurify)
            (VStr " <b>x</b> ") (Array [ "trim"; "no-such-rule"; "html" ]))
  = Returns {| sanitized := VStr "x"; violations := [ ": HTML_INJECTION" ];
               appliedRules := [ "html"; "trim" ] |} /\
  validateConfig (create (sanitizationConfig false false) mockPurify)
    (withRules (sanitizationConfig false false) [ "trim"; "no-such-rule"; "html"; "nope" ])
  = Throws (JsError "Invalid sanitization rules: no-such-rule, nope").
Proof. split; vm_compute; reflexivity. Qed.

(** What one call does once the rule set is known to be the single built-in
    [script] rule. *)
Lemma sanitize_with_script_rule e data :
  rulesCache e !! "script" = Some script ->
  cacheAgrees e [ "script" ] ->
  (warned (sanitize e data (Array [ "script" ])),
   result (sanitize e data (Array [ "script" ])))
  = runCompiled (config e) (purify e) [ script ] data.
Proof.
  intros Hreg Hcache.
  destruct (sanitize_agreeing_cache e data [ "script" ] Hcache) as (_ & _ & _ & _ & _ & ->).
  change (JsString.sort [ "script" ]) with [ "script" ].
  unfold resolve. cbn. now rewrite Hreg.
Qed.

(** C4, the counterexample: the input ["<script>alert(1)"] contains
    ["<script>"], and with [strictMode] and [rejectOnViolation] the call for
    the rules [["script"]] returns, with no violation; with
    [rejectOnViolation] off the list of violations is empty. *)
Lemma unclosed_script_tag_is_no_violation :
  includes "<script>" "<script>alert(1)" = true /\
  result (sanitize (create (sanitizationConfig true true) mockPurify)
            (VStr "<script>alert(1)") (Array [ "script" ]))
  = Returns {| sanitized := VStr "<script>alert(1)"; violations := [];
               appliedRules := [] |} /\
  result (sanitize (create (sanitizationConfig true false) mockPurify)
            (VStr "<script>alert(1)") (Array [ "script" ]))
  = Returns {| sanitized := VStr "<script>alert(1)"; violations := [];
               appliedRules := [] |}.
Proof. repeat split; vm_compute; reflexivity. Qed.

(** The case of a text: one violation, and the script elements removed. *)
Lemma closed_script_text_is_a_violation e pre body post :
  rulesCache e !! "script" = Some script ->
  cacheAgrees e [ "script" ] ->
  let text := pre +:+ "<script>" +:+ body +:+ "</script>" +:+ post in
  let out := sanitize e (VStr text) (Array [ "script" ]) in
  (strictMode (config e) = true -> rejectOnViolation (config e) = true ->
   result out = Throws (JsError "Sanitization violations detected: SCRIPT_INJECTION")) /\
  (rejectOnViolation (config e) = false ->
   exists r, result out = Returns r /\
             sanitized r = VStr (replaceAll scriptPattern "" text) /\
             violations r = [ ": SCRIPT_INJECTION" ]).
Proof.
  intros Hreg Hcache text out.
  pose proof (sanitize_with_script_rule e (VStr text) Hreg Hcache) as Hrun.
  fold out in Hrun.
  assert (Htest : test scriptPattern text = true) by apply script_test.
  unfold runCompiled in Hrun. cbn [sanitizeValue sanitizeString fold_left] in Hrun.
  unfold applyRule in Hrun. cbn [validate transform name script found applied nothing] in Hrun.
  rewrite Htest in Hrun. cbn in Hrun.
  split.
  - intros Hs Hr. rewrite Hs, Hr in Hrun. cbn in Hrun. now injection Hrun as _ ->.
  - intros Hr. rewrite Hr, andb_false_r in Hrun. injection Hrun as _ ->.
    eexists. split; [ reflexivity | ]. cbn. now split.
Qed.

(** C4, as amended: for every input that holds, at any depth, a text in
    which a ["<script>"] is followed, anywhere later, by ["</script>"],
    sanitized with the rules [["script"]] on an instance whose [script] rule
    is the built-in one and whose cache holds, under the key ["script"], no
    entry or that rule alone: the texts that the pattern of the rule matches
    are not none; with [strictMode] and [rejectOnViolation] the call throws
    the error whose message lists the violation types, joined by commas,
    which is one SCRIPT_INJECTION for each text that the pattern matches;
    with [rejectOnViolation] off it returns the sanitized value and the
    violations, one for each text that the pattern matches, at its path and
    in the order of the traversal. *)
Theorem closed_script_element_is_a_violation :
  forall e data,
    rulesCache e !! "script" = Some script ->
    cacheAgrees e [ "script" ] ->
    hasText closedScript data ->
    let out := sanitize e data (Array [ "script" ]) in
    let hits := flagged (test scriptPattern) data "" in
    hits <> [] /\
    (strictMode (config e) = true -> rejectOnViolation (config e) = true ->
     result out =
       Throws (JsError ("Sanitization violations detected: " +:+
                        join ", " (repeat "SCRIPT_INJECTION" (List.length hits))))) /\
    (rejectOnViolation (config e) = false ->
     exists r, result out = Returns r /\
               sanitized r = (sanitizeValue (purify e) data [ script ] "" nothing).1 /\
               violations r = map (fun path => path +:+ ": SCRIPT_INJECTION") hits /\
               violations r <> []).
Proof.
  intros e data Hreg Hcache Hhas out hits.
  pose proof (sanitize_with_script_rule e data Hreg Hcache) as Hrun. fold out in Hrun.
  assert (Hhits : hits <> []).
  { apply (hasText_flagged (test scriptPattern)).
    exact (hasText_impl _ _ data closedScript_test Hhas). }
  pose proof (script_flagged (purify e) data "" nothing) as Hfields.
  pose proof (sanitizeValue_recorded (purify e) [ script ] data "" nothing
                (Forall_nil_2 _)) as Hrec.
  fold hits in Hfields. cbn [found nothing map app] in Hfields.
  unfold runCompiled in Hrun.
  destruct (sanitizeValue (purify e) data [ script ] "" nothing) as [v acc].
  cbn [fst snd] in *.
  assert (Hlen : List.length (found acc) = List.length hits)
    by (now rewrite <- Hfields, length_map).
  assert (Hsome : negb (Nat.eqb (List.length (found acc)) 0) = true).
  { rewrite Hlen. destruct hits; [ congruence | reflexivity ]. }
  rewrite Hsome in Hrun.
  split; [ exact Hhits | split ].
  - intros Hs Hr. rewrite Hs, Hr in Hrun. cbn [andb] in Hrun. injection Hrun as _ ->.
    unfold rejection. now rewrite (script_violations_text _ Hrec), Hlen.
  - intros Hr. rewrite Hr, andb_false_r in Hrun. injection Hrun as _ ->.
    eexists. split; [ reflexivity | ]. cbn [sanitized violations].
    rewrite (script_reports _ Hrec), Hfields.
    repeat split. destruct hits; [ congruence | discriminate ].
Qed.

(** C4, at a concrete input: an object with a script element in a text of
    an array. *)
Lemma closed_script_element_is_a_violation_witness :
  flagged (test scriptPattern)
    (VObj [ ("note", VStr "hello");
            ("tags", VArr [ VStr "a<script>x()</script>b"; VStr "ok" ]) ]) ""
  = [ "tags[0]" ] /\
  result (sanitize (create (sanitizationConfig true true) mockPurify)
            (VObj [ ("note", VStr "hello");
                    ("tags", VArr [ VStr "a<script>x()</script>b"; VStr "ok" ]) ])
            (Array [ "script" ]))
  = Throws (JsError "Sanitization violations detected: SCRIPT_INJECTION") /\
  exists r,
    result (sanitize (create (sanitizationConfig true false) mockPurify)
              (VObj [ ("note", VStr "hello");
                      ("tags", VArr [ VStr "a<script>x()</script>b"; VStr "ok" ]) ])
              (Array [ "script" ]))
    = Returns r /\
    violations r = [ "tags[0]: SCRIPT_INJECTION" ].
Proof.
  assert (Hhas : hasText closedScript
                   (VObj [ ("note", VStr "hello");
                           ("tags", VArr [ VStr "a<script>x()</script>b"; VStr "ok" ]) ])).
  { apply (hasText_property _ _ "tags" (VArr [ VStr "a<script>x()</script>b"; VStr "ok" ]));
      [ set_solver | ].
    apply (hasText_item _ _ (VStr "a<script>x()</script>b")); [ set_solver | ].
    constructor. exists "a", "x()", "b". reflexivity. }
  split; [ vm_compute; reflexivity | split ].
  - destruct (closed_script_element_is_a_violation
                (create (sanitizationConfig true true) mockPurify) _
                eq_refl ltac:(vm_compute; exact I) Hhas) as (_ & Hthrow & _).
    exact (Hthrow eq_refl eq_refl).
  - destruct (closed_script_element_is_a_violation
                (create (sanitizationConfig true false) mockPurify) _
                eq_refl ltac:(vm_compute; exact I) Hhas) as (_ & _ & Hreturn).
    destruct (Hreturn eq_refl) as (r & Hr & _ & Hv & _).
    exists r. split; [ exact Hr | exact Hv ].
Defined.

(** C8, the counterexample: with the rules [["xss"]], the text
    ["ononloadload"] is sanitized to ["onload"], and sanitizing ["onload"]
    again with the same rules gives the empty text and applies [xss] once
    more. *)
Lemma second_pass_of_xss_changes_the_text :
  let e := create (sanitizationConfig false false) mockPurify in
  let out1 := sanitize e (VStr "ononloadload") (Array [ "xss" ]) in
  result out1 = Returns {| sanitized := VStr "onload"; violations := [ ": XSS" ];
                           appliedRules := [ "xss" ] |} /\
  result (sanitize (engine out1) (VStr "onload") (Array (rulesAfter out1)))
  = Returns {| sanitized := VStr ""; violations := [ ": XSS" ];
               appliedRules := [ "xss" ] |}.
Proof. cbn zeta. split; vm_compute; reflexivity. Qed.

(** The same holds of [script], whose pattern can be put together by the
    removal of an inner element, and of [html] next to a rule that runs
    before it: after [email-normalize] has trimmed ["x <b>"] and [html] has
    removed the tag, the space before the tag is at the end of the text, and
    the second pass trims it. *)
Lemma second_pass_of_script_changes_the_text :
  let e := create (sanitizationConfig false false) mockPurify in
  let out1 := sanitize e (VStr "<scr<script></script>ipt>alert(1)</script>")
                (Array [ "script" ]) in
  result out1 = Returns {| sanitized := VStr "<script>alert(1)</script>";
                           violations := [ ": SCRIPT_INJECTION" ];
                           appliedRules := [ "script" ] |} /\
  result (sanitize (engine out1) (VStr "<script>alert(1)</script>")
            (Array (rulesAfter out1)))
  = Returns {| sanitized := VStr ""; violations := [ ": SCRIPT_INJECTION" ];
               appliedRules := [ "script" ] |}.
Proof. cbn zeta. split; vm_compute; reflexivity. Qed.

Lemma second_pass_after_html_changes_the_text :
  let e := create (sanitizationConfig false false) mockPurify in
  let out1 := sanitize e (VStr "x <b>") (Array [ "html"; "email-normalize" ]) in
  result out1 = Returns {| sanitized := VStr "x ";
                           violations := [ ": XSS"; ": HTML_INJECTION" ];
                           appliedRules := [ "html" ] |} /\
  result (sanitize (engine out1) (VStr "x ") (Array (rulesAfter out1)))
  = Returns {| sanitized := VStr "x"; violations := [ ": XSS" ];
               appliedRules := [ "email-normalize" ] |}.
Proof. cbn zeta. split; vm_compute; reflexivity. Qed.

(** C8, as amended: on an instance whose registry holds the built-in rules
    and whose cache agrees with it, for every value and every list of rule
    names that selects none of [html], [script] and [xss]: when the first
    call returns, sanitizing its output again with the same (by now sorted)
    array leaves the output as it is and applies no rule; the second call
    returns that, with the violations it finds, unless strict rejection is
    on and it finds some. *)
Theorem second_pass_of_stable_rules_changes_nothing :
  forall e data names r1,
    builtinRegistry e ->
    cacheAgrees e names ->
    Forall (fun n => n ∉ [ "html"; "script"; "xss" ]) names ->
    let out1 := sanitize e data (Array names) in
    result out1 = Returns r1 ->
    let out2 := sanitize (engine out1) (sanitized r1) (Array (rulesAfter out1)) in
    exists found2,
      result out2 =
        if strictMode (config e) && negb (Nat.eqb (List.length found2) 0)
           && rejectOnViolation (config e)
        then Throws (rejection found2)
        else Returns {| sanitized := sanitized r1;
                        violations := map report found2;
                        appliedRules := [] |}.
Proof.
  intros e data names r1 Hreg Hagree Hnames out1 Hr1 out2.
  set (compiled := resolve (rulesCache e) (JsString.sort names)).
  destruct (sanitize_agreeing_cache e data names Hagree)
    as (Hafter & Hcfg & Hpur & Hrc & Hcache & Hrun1).
  fold out1 compiled in Hafter, Hcfg, Hpur, Hrc, Hcache, Hrun1.
  assert (Hagree2 : cacheAgrees (engine out1) (rulesAfter out1)).
  { unfold cacheAgrees. rewrite Hafter, sort_idempotent, Hcache, Hrc. reflexivity. }
  destruct (sanitize_agreeing_cache (engine out1) (sanitized r1) (rulesAfter out1) Hagree2)
    as (_ & _ & _ & _ & _ & Hrun2).
  fold out2 in Hrun2. rewrite Hafter, sort_idempotent, Hcfg, Hpur, Hrc in Hrun2.
  fold compiled in Hrun2.
  assert (Hsettled : forall v fieldPath acc,
             settled (purify e) compiled (sanitizeValue (purify e) v compiled fieldPath acc).1).
  { apply first_pass_settled. apply stable_pipeline_leaves.
    - apply resolve_stable; [ exact Hreg | ].
      rewrite Forall_forall in Hnames. rewrite Forall_forall.
      intros n Hn. apply Hnames. now rewrite <- (sort_permutation names).
    - apply resolve_sorted; [ exact Hreg | ].
      apply StronglySorted_merge_sort; apply _. }
  assert (Hfirst : sanitized r1 = (sanitizeValue (purify e) data compiled "" nothing).1).
  { unfold runCompiled in Hrun1. rewrite Hr1 in Hrun1.
    destruct (sanitizeValue (purify e) data compiled "" nothing) as [v1 acc1].
    destruct (strictMode (config e) && _ && rejectOnViolation (config e));
      [ discriminate | ].
    now injection Hrun1 as _ ->. }
  pose proof (Hsettled data "" nothing) as Hs. rewrite <- Hfirst in Hs.
  destruct (settled_second_pass (purify e) compiled (sanitized r1) Hs "" nothing) as [H1 H2].
  unfold runCompiled in Hrun2.
  destruct (sanitizeValue (purify e) (sanitized r1) compiled "" nothing) as [v2 acc2].
  cbn [fst snd applied nothing] in H1, H2. subst v2.
  exists (found acc2).
  destruct (strictMode (config e) && _ && rejectOnViolation (config e)).
  - now injection Hrun2 as _ ->.
  - injection Hrun2 as _ ->. now rewrite H2.
Qed.

(** C8, at a concrete input: an object with an address, sanitized with
    three stable rules. *)
Lemma second_pass_of_stable_rules_changes_nothing_witness :
  let e := create (sanitizationConfig false false) mockPurify in
  let out1 := sanitize e (VObj [ ("mail", VStr "  A|B@Example.COM ") ])
                (Array [ "trim"; "email-normalize"; "command-injection" ]) in
  exists found2,
    result (sanitize (engine out1) (VObj [ ("mail", VStr "ab@example.com") ])
              (Array (rulesAfter out1)))
    = Returns {| sanitized := VObj [ ("mail", VStr "ab@example.com") ];
                 violations := map report found2;
                 appliedRules := [] |}.
Proof.
  cbn zeta.
  refine (second_pass_of_stable_rules_changes_nothing
            (create (sanitizationConfig false false) mockPurify)
            (VObj [ ("mail", VStr "  A|B@Example.COM ") ])
            [ "trim"; "email-normalize"; "command-injection" ]
            {| sanitized := VObj [ ("mail", VStr "ab@example.com") ];
               violations := [ "mail: COMMAND_INJECTION"; "mail: XSS" ];
               appliedRules := [ "command-injection"; "email-normalize" ] |}
            _ _ _ _).
  - now apply create_builtinRegistry.
  - vm_compute. exact I.
  - apply (bool_decide_unpack _). vm_compute. exact I.
  - vm_compute. reflexivity.
Defined.

End SanitizationProperties.

(* ===================================================================== *)
(** ** Facts about the traversal as a whole *)
(* ===================================================================== *)

Module TraversalFacts.
Import JsString Rules SanitizationEngine Notions Shapes.
Import ValueFacts SanitizationFacts StabilityFacts.

(** A closed value is plain: the constructors, and the keys compared. *)
Ltac plain_value :=
  repeat first [ constructor | apply (bool_decide_unpack _); vm_compute; exact I ].

Lemma mapIndexed_map {St A B : Type} (visit : nat -> A -> St -> B * St) (g : A -> B) items :
  Forall (fun item => forall i st, (visit i item st).1 = g item) items ->
  forall i st, (mapIndexed visit i items st).1 = map g items.
Proof.
  induction 1 as [ | item items Hitem _ IH ]; intros i st; cbn [mapIndexed map]; [ reflexivity | ].
  specialize (Hitem i st). destruct (visit i item st) as [item' st1].
  specialize (IH (S i) st1). destruct (mapIndexed visit (S i) items st1).
  cbn [fst] in *. now subst.
Qed.

(** On a plain value the traversal changes the texts and nothing else. *)
Lemma sanitizeValue_texts purifier compiled data :
  plain data ->
  forall fieldPath acc,
    (sanitizeValue purifier data compiled fieldPath acc).1
    = mapTexts (pipeline purifier compiled) data.
Proof.
  induction data as [ | | b | n | s | items IH | props IH ] using value_ind_nested;
    intros Hplain fieldPath acc; try reflexivity.
  - cbn [sanitizeValue mapTexts].
    pose proof (sanitizeString_text purifier compiled s fieldPath acc) as Ht.
    destruct (sanitizeString purifier s compiled fieldPath acc) as [s' acc'].
    cbn [fst] in *. now subst.
  - inversion Hplain as [ | | | | | items0 Hall | ]; subst. cbn [sanitizeValue mapTexts].
    match goal with
    | |- context [mapIndexed ?f 0 items acc] =>
        pose proof (mapIndexed_map f (mapTexts (pipeline purifier compiled)) items) as H1;
        destruct (mapIndexed f 0 items acc) as [items' acc'] eqn:Hmap
    end.
    cbn [fst]. f_equal. change items' with ((items', acc').1). rewrite <- Hmap. apply H1.
    rewrite Forall_forall in IH, Hall. apply Forall_forall. intros item Hin i st.
    now apply IH, Hall.
  - inversion Hplain as [ | | | | | | props0 Hnd Hproto Hall ]; subst.
    cbn [sanitizeValue mapTexts].
    match goal with
    | |- context [fold_left ?f props ([], acc)] =>
        assert (Hfold : forall built acc0,
                   (forall k, k ∈ map fst props -> k ∉ map fst built) ->
                   (fold_left f props (built, acc0)).1
                   = built ++ map (fun kv => (fst kv, mapTexts (pipeline purifier compiled) (snd kv)))
                                  props)
    end.
    { clear Hplain. induction props as [ | [key val] props IHprops ]; intros built acc0 Hfresh.
      - cbn. now rewrite app_nil_r.
      - apply Forall_cons in IH as [IHval IH]. apply Forall_cons in Hall as [Hval Hall].
        cbn [map fst] in Hnd, Hproto, Hfresh.
        apply NoDup_cons in Hnd as [Hkey Hnd].
        apply not_elem_of_cons in Hproto as [Hne Hproto].
        cbn [fold_left map fst snd].
        pose proof (IHval Hval (keyPath fieldPath key) acc0) as H1. cbn [snd] in H1.
        destruct (sanitizeValue purifier val compiled (keyPath fieldPath key) acc0) as [val' acc1].
        cbn [fst] in H1. subst val'.
        rewrite setProperty_fresh by (auto; apply Hfresh; left).
        rewrite (IHprops IH Hnd Hproto Hall).
        + now rewrite <- app_assoc.
        + intros k Hk. rewrite map_app, elem_of_app. cbn.
          intros [Hb | Heq%list_elem_of_singleton].
          * apply (Hfresh k); [ now right | exact Hb ].
          * subst k. contradiction. }
    specialize (Hfold [] acc). 
    destruct (fold_left _ props ([], acc)) as [obj acc']. cbn [fst] in *.
    rewrite Hfold; [ reflexivity | intros k _; apply not_elem_of_nil ].
Qed.

(** Whatever the input, the objects that the traversal builds are plain. *)
Lemma sanitizeValue_plain purifier compiled :
  forall v fieldPath acc, plain (sanitizeValue purifier v compiled fieldPath acc).1.
Proof.
  induction v as [ | | b | n | s | items IH | props IH ] using value_ind_nested;
    intros fieldPath acc; try (cbn; constructor).
  - cbn [sanitizeValue].
    destruct (sanitizeString purifier s compiled fieldPath acc) as [s' acc'].
    constructor.
  - cbn [sanitizeValue].
    match goal with
    | |- context [mapIndexed ?f 0 items acc] =>
        pose proof (mapIndexed_Forall f plain items) as H1;
        specialize (H1 (Forall_impl _ _ _ IH (fun item Hitem i st => Hitem _ st)) 0 acc);
        destruct (mapIndexed f 0 items acc)
    end.
    cbn [fst] in *. now constructor.
  - cbn [sanitizeValue].
    match goal with
    | |- context [fold_left ?f props ([], acc)] =>
        pose proof (fold_left_invariant f
                      (fun st => NoDup (map fst st.1) /\ ("__proto__" ∉ map fst st.1) /\
                                 Forall (fun kv => plain (snd kv)) st.1)
                      props) as H1;
        destruct (fold_left f props ([], acc)) as [obj acc'] eqn:Hfold
    end.
    cbn [fst]. change obj with ((obj, acc').1). rewrite <- Hfold.
    match goal with
    | |- plain (VObj ?o) => assert (Hinv : NoDup (map fst o) /\ ("__proto__" ∉ map fst o) /\
                            Forall (fun kv => plain (snd kv)) o)
    end.
    { apply H1.
      - eapply Forall_impl; [ exact IH | ].
        intros [key val] Hval [obj0 acc0] (Hnd & Hproto & Hall). cbn [fst snd] in *.
        specialize (Hval (keyPath fieldPath key) acc0).
        destruct (sanitizeValue purifier val compiled (keyPath fieldPath key) acc0) as [val' acc1].
        cbn [fst snd] in *. now apply setProperty_settled.
      - cbn. split; [ constructor | split; [ apply not_elem_of_nil | constructor ] ]. }
    destruct Hinv as (Hnd & Hproto & Hall). now constructor.
Qed.

Lemma mapTexts_id v : mapTexts (fun s => s) v = v.
Proof.
  induction v as [ | | b | n | s | items IH | props IH ] using value_ind_nested;
    try reflexivity; cbn [mapTexts]; f_equal.
  - induction IH as [ | item items Hitem _ IHitems ]; cbn [map]; congruence.
  - induction IH as [ | [key val] props Hval _ IHprops ]; cbn [map fst snd] in *; congruence.
Qed.

Lemma mapTexts_ext f g v : (forall s, f s = g s) -> mapTexts f v = mapTexts g v.
Proof.
  intros Hfg.
  induction v as [ | | b | n | s | items IH | props IH ] using value_ind_nested;
    try reflexivity; cbn [mapTexts]; f_equal.
  - apply Hfg.
  - induction IH as [ | item items Hitem _ IHitems ]; cbn [map]; congruence.
  - induction IH as [ | [key val] props Hval _ IHprops ]; cbn [map fst snd] in *; congruence.
Qed.

(** ** Where the violations point *)

Lemma applyRule_fieldsIn purifier fieldPath paths st r :
  fieldPath ∈ paths -> fieldsIn paths st.2 ->
  fieldsIn paths (applyRule purifier fieldPath st r).2.
Proof.
  destruct st as [s acc]. unfold applyRule, fieldsIn. cbn [snd]. intros Hin Hacc.
  destruct (transform r); cbn [found];
    (destruct (validate r) as [check | ]; [ destruct (negb (check s)) | ]; try exact Hacc;
     apply Forall_app; split; [ exact Hacc | ]; repeat constructor; exact Hin).
Qed.

Lemma sanitizeString_fieldsIn purifier paths compiled : forall s fieldPath acc,
  fieldPath ∈ paths -> fieldsIn paths acc ->
  fieldsIn paths (sanitizeString purifier s compiled fieldPath acc).2.
Proof.
  unfold sanitizeString.
  induction compiled as [ | r compiled IH ]; intros s fieldPath acc Hin Hacc; [ exact Hacc | ].
  cbn [fold_left].
  pose proof (applyRule_fieldsIn purifier fieldPath paths (s, acc) r Hin Hacc) as H1.
  destruct (applyRule purifier fieldPath (s, acc) r) as [s1 acc1]. now apply IH.
Qed.

Lemma sanitizeValue_fieldsIn purifier compiled data : forall fieldPath acc paths,
  (forall x, x ∈ textPaths data fieldPath -> x ∈ paths) ->
  fieldsIn paths acc ->
  fieldsIn paths (sanitizeValue purifier data compiled fieldPath acc).2.
Proof.
  induction data as [ | | b | n | s | items IH | props IH ] using value_ind_nested;
    intros fieldPath acc paths Hsub Hacc; try exact Hacc.
  - cbn [sanitizeValue].
    pose proof (sanitizeString_fieldsIn purifier paths compiled s fieldPath acc) as H1.
    destruct (sanitizeString purifier s compiled fieldPath acc).
    apply H1; [ | exact Hacc ]. apply Hsub. cbn. now left.
  - cbn [sanitizeValue]. cbn [textPaths] in Hsub.
    match goal with
    | |- context [mapIndexed ?f 0 items acc] =>
        assert (Hmap : forall index acc0,
                   (forall x, x ∈ (fix each (items : list value) (index : nat) {struct items}
                                     : list string :=
                                     match items with
                                     | [] => []
                                     | item :: rest =>
                                         textPaths item (indexPath fieldPath index)
                                         ++ each rest (S index)
                                     end) items index -> x ∈ paths) ->
                   fieldsIn paths acc0 ->
                   fieldsIn paths (mapIndexed f index items acc0).2)
    end.
    { clear Hsub Hacc. induction IH as [ | item items Hitem _ IHitems ]; intros index acc0 Hsub Hacc0.
      - exact Hacc0.
      - cbn [mapIndexed].
        pose proof (Hitem (indexPath fieldPath index) acc0 paths) as H1.
        destruct (sanitizeValue purifier item compiled (indexPath fieldPath index) acc0)
          as [item' acc1].
        pose proof (IHitems (S index) acc1) as H2.
        destruct (mapIndexed _ (S index) items acc1) as [rest' acc2].
        cbn [snd] in *. apply H2.
        + intros x Hx. apply Hsub. apply elem_of_app. now right.
        + apply H1; [ | exact Hacc0 ]. intros x Hx. apply Hsub. apply elem_of_app. now left. }
    specialize (Hmap 0 acc Hsub Hacc).
    now destruct (mapIndexed _ 0 items acc).
  - cbn [sanitizeValue]. cbn [textPaths] in Hsub.
    match goal with
    | |- context [fold_left ?f props ([], acc)] =>
        assert (Hfold : forall built acc0,
                   (forall x, x ∈ flat_map (fun kv => textPaths (snd kv) (keyPath fieldPath (fst kv)))
                                           props -> x ∈ paths) ->
                   fieldsIn paths acc0 ->
                   fieldsIn paths (fold_left f props (built, acc0)).2)
    end.
    { clear Hsub Hacc. induction IH as [ | [key val] props Hval _ IHprops ];
        intros built acc0 Hsub Hacc0.
      - exact Hacc0.
      - cbn [fold_left]. cbn [flat_map fst snd] in Hsub, Hval.
        pose proof (Hval (keyPath fieldPath key) acc0 paths) as H1.
        destruct (sanitizeValue purifier val compiled (keyPath fieldPath key) acc0)
          as [val' acc1].
        cbn [snd] in *. apply IHprops.
        + intros x Hx. apply Hsub. apply elem_of_app. now right.
        + apply H1; [ | exact Hacc0 ]. intros x Hx. apply Hsub. apply elem_of_app. now left. }
    specialize (Hfold [] acc Hsub Hacc).
    now destruct (fold_left _ props ([], acc)).
Qed.

(** ** Which rules are named *)

Lemma elem_of_validating compiled r check :
  r ∈ compiled -> validate r = Some check -> name r ∈ validating compiled.
Proof.
  intros Hin Hv. unfold validating. apply list_elem_of_fmap. exists r. split; [ reflexivity | ].
  apply list_elem_of_In, filter_In. split; [ now apply list_elem_of_In | now rewrite Hv ].
Qed.

Lemma elem_of_transforming compiled r change :
  r ∈ compiled -> transform r = Some change -> name r ∈ transforming compiled.
Proof.
  intros Hin Hv. unfold transforming. apply list_elem_of_fmap. exists r. split; [ reflexivity | ].
  apply list_elem_of_In, filter_In. split; [ now apply list_elem_of_In | now rewrite Hv ].
Qed.

Lemma applyRule_namedIn compiled purifier fieldPath st r :
  r ∈ compiled -> namedIn compiled st.2 ->
  namedIn compiled (applyRule purifier fieldPath st r).2.
Proof.
  destruct st as [s acc]. unfold applyRule, namedIn. cbn [snd]. intros Hin [Hf Ha].
  destruct (transform r) as [change | ] eqn:Ht; cbn [found applied]; split.
  - destruct (validate r) as [check | ] eqn:Hv; [ destruct (negb (check s)) | ]; try exact Hf.
    apply Forall_app; split; [ exact Hf | ]. repeat constructor. cbn [rule].
    eapply elem_of_validating; eauto.
  - destruct (negb (change s =? s)%string); [ | exact Ha ].
    apply Forall_app; split; [ exact Ha | ]. repeat constructor.
    eapply elem_of_transforming; eauto.
  - destruct (validate r) as [check | ] eqn:Hv; [ destruct (negb (check s)) | ]; try exact Hf.
    apply Forall_app; split; [ exact Hf | ]. repeat constructor. cbn [rule].
    eapply elem_of_validating; eauto.
  - exact Ha.
Qed.

Lemma sanitizeString_namedIn compiled purifier : forall rest s fieldPath acc,
  Forall (fun r => r ∈ compiled) rest -> namedIn compiled acc ->
  namedIn compiled (sanitizeString purifier s rest fieldPath acc).2.
Proof.
  unfold sanitizeString.
  induction rest as [ | r rest IH ]; intros s fieldPath acc Hall Hacc; [ exact Hacc | ].
  apply Forall_cons in Hall as [Hr Hall]. cbn [fold_left].
  pose proof (applyRule_namedIn compiled purifier fieldPath (s, acc) r Hr Hacc) as H1.
  destruct (applyRule purifier fieldPath (s, acc) r) as [s1 acc1]. now apply IH.
Qed.

Lemma sanitizeValue_namedIn purifier compiled data : forall fieldPath acc,
  namedIn compiled acc ->
  namedIn compiled (sanitizeValue purifier data compiled fieldPath acc).2.
Proof.
  induction data as [ | | b | n | s | items IH | props IH ] using value_ind_nested;
    intros fieldPath acc Hacc; try exact Hacc.
  - cbn [sanitizeValue].
    pose proof (sanitizeString_namedIn compiled purifier compiled s fieldPath acc) as H1.
    destruct (sanitizeString purifier s compiled fieldPath acc).
    apply H1; [ | exact Hacc ]. now apply Forall_forall.
  - cbn [sanitizeValue].
    pose proof (mapIndexed_invariant
                  (fun index item acc0 =>
                     sanitizeValue purifier item compiled (indexPath fieldPath index) acc0)
                  (namedIn compiled) items) as H1.
    match goal with
    | |- context [mapIndexed ?f 0 items acc] =>
        specialize (H1 (Forall_impl _ _ _ IH (fun item Hitem i st => Hitem _ st)) 0 acc Hacc);
        destruct (mapIndexed f 0 items acc)
    end.
    exact H1.
  - cbn [sanitizeValue].
    match goal with
    | |- context [fold_left ?f props ([], acc)] =>
        pose proof (fold_left_invariant f (fun st => namedIn compiled st.2) props) as H1;
        destruct (fold_left f props ([], acc)) as [obj acc'] eqn:Hfold
    end.
    cbn [snd]. change acc' with ((obj, acc').2). rewrite <- Hfold. apply H1; [ | exact Hacc ].
    eapply Forall_impl; [ exact IH | ].
    intros [key val] Hval [obj0 acc0] Hacc0. cbn [snd] in *.
    specialize (Hval (keyPath fieldPath key) acc0 Hacc0).
    now destruct (sanitizeValue purifier val compiled (keyPath fieldPath key) acc0).
Qed.

(** ** The list of applied rules as a record of changes *)

Lemma applyRule_count purifier fieldPath s acc r :
  (count acc <= count (applyRule purifier fieldPath (s, acc) r).2)%nat /\
  (count (applyRule purifier fieldPath (s, acc) r).2 = count acc ->
   name r <> "html" ->
   (applyRule purifier fieldPath (s, acc) r).1 = s).
Proof.
  unfold applyRule, count. cbn [fst snd].
  destruct (transform r) as [change | ]; cbn [applied fst snd].
  - destruct (String.eqb_spec (change s) s) as [Heq | Hne]; cbn [negb].
    + split; [ lia | ]. intros _ Hname. apply String.eqb_neq in Hname. rewrite Hname.
      cbn [andb]. exact Heq.
    + rewrite length_app. cbn [List.length]. split; [ lia | ]. intros Hlen. lia.
  - split; [ lia | ]. intros _ Hname. apply String.eqb_neq in Hname. now rewrite Hname.
Qed.

Lemma sanitizeString_count purifier compiled : forall s fieldPath acc,
  (count acc <= count (sanitizeString purifier s compiled fieldPath acc).2)%nat /\
  (count (sanitizeString purifier s compiled fieldPath acc).2 = count acc ->
   Forall (fun r => name r <> "html") compiled ->
   (sanitizeString purifier s compiled fieldPath acc).1 = s).
Proof.
  unfold sanitizeString.
  induction compiled as [ | r compiled IH ]; intros s fieldPath acc; [ now split | ].
  cbn [fold_left].
  destruct (applyRule_count purifier fieldPath s acc r) as [H1 H2].
  destruct (applyRule purifier fieldPath (s, acc) r) as [s1 acc1]. cbn [fst snd] in H1, H2.
  destruct (IH s1 fieldPath acc1) as [H3 H4].
  split; [ lia | ]. intros Hlen Hall. apply Forall_cons in Hall as [Hr Hall].
  rewrite H4; [ | lia | exact Hall ]. apply H2; [ lia | exact Hr ].
Qed.

Lemma sanitizeValue_count purifier compiled data : forall fieldPath acc,
  (count acc <= count (sanitizeValue purifier data compiled fieldPath acc).2)%nat.
Proof.
  intros fieldPath acc.
  induction data as [ | | b | n | s | items IH | props IH ] using value_ind_nested
    in fieldPath, acc |- *; try (cbn; lia).
  - cbn [sanitizeValue].
    pose proof (sanitizeString_count purifier compiled s fieldPath acc) as [H1 _].
    now destruct (sanitizeString purifier s compiled fieldPath acc).
  - cbn [sanitizeValue].
    pose proof (mapIndexed_invariant
                  (fun index item acc0 =>
                     sanitizeValue purifier item compiled (indexPath fieldPath index) acc0)
                  (fun acc0 => (count acc <= count acc0)%nat) items) as H1.
    match goal with
    | |- context [mapIndexed ?f 0 items acc] =>
        specialize (H1 (Forall_impl _ _ _ IH
                          (fun item Hitem i st H => Nat.le_trans _ _ _ H (Hitem _ st)))
                       0 acc (Nat.le_refl _));
        destruct (mapIndexed f 0 items acc)
    end.
    exact H1.
  - cbn [sanitizeValue].
    match goal with
    | |- context [fold_left ?f props ([], acc)] =>
        pose proof (fold_left_invariant f (fun st => (count acc <= count st.2)%nat) props) as H1;
        destruct (fold_left f props ([], acc)) as [obj acc'] eqn:Hfold
    end.
    cbn [snd]. change acc' with ((obj, acc').2). rewrite <- Hfold.
    apply H1; [ | cbn; lia ].
    eapply Forall_impl; [ exact IH | ].
    intros [key val] Hval [obj0 acc0] Hacc0. cbn [snd] in *.
    specialize (Hval (keyPath fieldPath key) acc0).
    destruct (sanitizeValue purifier val compiled (keyPath fieldPath key) acc0). cbn [snd] in *.
    lia.
Qed.

Lemma sanitizeValue_unchanged purifier compiled data :
  Forall (fun r => name r <> "html") compiled ->
  plain data ->
  forall fieldPath acc,
    count (sanitizeValue purifier data compiled fieldPath acc).2 = count acc ->
    (sanitizeValue purifier data compiled fieldPath acc).1 = data.
Proof.
  intros Hhtml.
  induction data as [ | | b | n | s | items IH | props IH ] using value_ind_nested;
    intros Hplain fieldPath acc; try reflexivity.
  - cbn [sanitizeValue].
    destruct (sanitizeString_count purifier compiled s fieldPath acc) as [_ H1].
    destruct (sanitizeString purifier s compiled fieldPath acc) as [s' acc'].
    cbn [fst snd] in *. intros Hlen. now rewrite H1.
  - inversion Hplain as [ | | | | | items0 Hall | ]; subst. cbn [sanitizeValue].
    match goal with
    | |- context [mapIndexed ?f 0 items acc] =>
        assert (Hmap : forall index acc0,
                   (count acc0 <= count (mapIndexed f index items acc0).2)%nat /\
                   (count (mapIndexed f index items acc0).2 = count acc0 ->
                    (mapIndexed f index items acc0).1 = items))
    end.
    { clear Hplain. induction items as [ | item items IHitems ]; intros index acc0.
      - cbn. split; [ lia | reflexivity ].
      - apply Forall_cons in IH as [IHitem IH]. apply Forall_cons in Hall as [Hitem Hall].
        cbn [mapIndexed].
        pose proof (sanitizeValue_count purifier compiled item (indexPath fieldPath index) acc0) as H0.
        specialize (IHitem Hitem (indexPath fieldPath index) acc0).
        destruct (sanitizeValue purifier item compiled (indexPath fieldPath index) acc0)
          as [item' acc1].
        destruct (IHitems IH Hall (S index) acc1) as [H3 H4].
        destruct (mapIndexed _ (S index) items acc1) as [rest' acc2].
        cbn [fst snd] in *. split; [ lia | ]. intros Hlen.
        rewrite IHitem by lia. rewrite H4 by lia. reflexivity. }
    destruct (Hmap 0 acc) as [_ H1].
    destruct (mapIndexed _ 0 items acc) as [items' acc']. cbn [fst snd] in *.
    intros Hlen. now rewrite H1.
  - inversion Hplain as [ | | | | | | props0 Hnd Hproto Hall ]; subst. cbn [sanitizeValue].
    match goal with
    | |- context [fold_left ?f props ([], acc)] =>
        assert (Hfold : forall built acc0,
                   (forall k, k ∈ map fst props -> k ∉ map fst built) ->
                   (count acc0 <= count (fold_left f props (built, acc0)).2)%nat /\
                   (count (fold_left f props (built, acc0)).2 = count acc0 ->
                    (fold_left f props (built, acc0)).1 = built ++ props))
    end.
    { clear Hplain. induction props as [ | [key val] props IHprops ]; intros built acc0 Hfresh.
      - cbn. rewrite app_nil_r. split; [ lia | reflexivity ].
      - apply Forall_cons in IH as [IHval IH]. apply Forall_cons in Hall as [Hval Hall].
        cbn [map fst] in Hnd, Hproto, Hfresh.
        apply NoDup_cons in Hnd as [Hkey Hnd].
        apply not_elem_of_cons in Hproto as [Hne Hproto].
        cbn [fold_left].
        pose proof (sanitizeValue_count purifier compiled val (keyPath fieldPath key) acc0) as H0.
        specialize (IHval Hval (keyPath fieldPath key) acc0). cbn [snd] in IHval.
        destruct (sanitizeValue purifier val compiled (keyPath fieldPath key) acc0) as [val' acc1].
        cbn [fst snd] in *.
        rewrite setProperty_fresh by (auto; apply Hfresh; left).
        destruct (IHprops IH Hnd Hproto Hall (built ++ [(key, val')]) acc1) as [H3 H4].
        + intros k Hk. rewrite map_app, elem_of_app. cbn.
          intros [Hb | Heq%list_elem_of_singleton].
          * apply (Hfresh k); [ now right | exact Hb ].
          * subst k. contradiction.
        + split; [ lia | ]. intros Hlen. rewrite H4 by lia. rewrite IHval by lia.
          now rewrite <- app_assoc. }
    destruct (Hfold [] acc) as [_ H1]; [ intros k _; apply not_elem_of_nil | ].
    destruct (fold_left _ props ([], acc)) as [obj acc']. cbn [fst snd] in *.
    intros Hlen. now rewrite H1.
Qed.

(** ** How many violations *)

Lemma validating_cons r compiled :
  List.length (validating (r :: compiled))
  = ((match validate r with Some _ => 1 | None => 0 end) + List.length (validating compiled))%nat.
Proof.
  unfold validating. cbn [List.filter]. destruct (validate r); reflexivity.
Qed.

Lemma sanitizeString_bounded purifier compiled : forall s fieldPath acc,
  (List.length (found (sanitizeString purifier s compiled fieldPath acc).2)
   <= List.length (found acc) + List.length (validating compiled))%nat.
Proof.
  unfold sanitizeString.
  induction compiled as [ | r compiled IH ]; intros s fieldPath acc; [ cbn; lia | ].
  cbn [fold_left]. rewrite validating_cons.
  assert (H1 : (List.length (found (applyRule purifier fieldPath (s, acc) r).2)
                <= List.length (found acc)
                   + match validate r with Some _ => 1 | None => 0 end)%nat).
  { unfold applyRule. destruct (transform r); cbn [snd found];
      (destruct (validate r) as [check | ]; [ destruct (negb (check s)) | ];
       rewrite ?length_app; cbn [List.length]; lia). }
  destruct (applyRule purifier fieldPath (s, acc) r) as [s1 acc1]. cbn [snd] in H1.
  specialize (IH s1 fieldPath acc1). lia.
Qed.

Lemma sanitizeValue_bounded purifier compiled data : forall fieldPath acc,
  (List.length (found (sanitizeValue purifier data compiled fieldPath acc).2)
   <= List.length (found acc)
      + List.length (textPaths data fieldPath) * List.length (validating compiled))%nat.
Proof.
  induction data as [ | | b | n | s | items IH | props IH ] using value_ind_nested;
    intros fieldPath acc; try (cbn; lia).
  - cbn [sanitizeValue textPaths List.length].
    pose proof (sanitizeString_bounded purifier compiled s fieldPath acc) as H1.
    destruct (sanitizeString purifier s compiled fieldPath acc). cbn [snd] in *. lia.
  - cbn [sanitizeValue textPaths].
    match goal with
    | |- context [mapIndexed ?f 0 items acc] =>
        assert (Hmap : forall index acc0,
                   (List.length (found (mapIndexed f index items acc0).2)
                    <= List.length (found acc0)
                       + List.length
                           ((fix each (items : list value) (index : nat) {struct items}
                               : list string :=
                               match items with
                               | [] => []
                               | item :: rest =>
                                   textPaths item (indexPath fieldPath index)
                                   ++ each rest (S index)
                               end) items index)
                         * List.length (validating compiled))%nat)
    end.
    { induction IH as [ | item items Hitem _ IHitems ]; intros index acc0.
      - cbn. lia.
      - cbn [mapIndexed].
        pose proof (Hitem (indexPath fieldPath index) acc0) as H1.
        destruct (sanitizeValue purifier item compiled (indexPath fieldPath index) acc0)
          as [item' acc1].
        pose proof (IHitems (S index) acc1) as H2.
        destruct (mapIndexed _ (S index) items acc1) as [rest' acc2].
        cbn [snd] in *. rewrite length_app. nia. }
    specialize (Hmap 0 acc).
    now destruct (mapIndexed _ 0 items acc).
  - cbn [sanitizeValue textPaths].
    match goal with
    | |- context [fold_left ?f props ([], acc)] =>
        assert (Hfold : forall built acc0,
                   (List.length (found (fold_left f props (built, acc0)).2)
                    <= List.length (found acc0)
                       + List.length
                           (flat_map (fun kv => textPaths (snd kv)
                                                  (keyPath fieldPath (fst kv))) props)
                         * List.length (validating compiled))%nat)
    end.
    { induction IH as [ | [key val] props Hval _ IHprops ]; intros built acc0.
      - cbn. lia.
      - cbn [fold_left]. cbn [flat_map fst snd] in *.
        pose proof (Hval (keyPath fieldPath key) acc0) as H1.
        destruct (sanitizeValue purifier val compiled (keyPath fieldPath key) acc0)
          as [val' acc1].
        cbn [snd] in *.
        specialize (IHprops (setProperty built key val') acc1).
        rewrite length_app. nia. }
    specialize (Hfold [] acc).
    now destruct (fold_left _ props ([], acc)).
Qed.

End TraversalFacts.

(* ===================================================================== *)
(** ** Facts about calls of the engine *)
(* ===================================================================== *)

Module EngineFacts.
Import JsString Rules SanitizationEngine Notions Shapes.
Import ValueFacts SanitizationFacts StabilityFacts TraversalFacts.

(** What [runCompiled] throws and what it returns. *)
Lemma runCompiled_cases c purifier compiled data :
  let acc := (sanitizeValue purifier data compiled "" nothing).2 in
  match (runCompiled c purifier compiled data).2 with
  | Throws thrown =>
      strictMode c = true /\ rejectOnViolation c = true /\ found acc <> [] /\
      thrown = rejection (found acc) /\
      (runCompiled c purifier compiled data).1 = None
  | Returns r =>
      r = {| sanitized := (sanitizeValue purifier data compiled "" nothing).1;
             violations := map report (found acc);
             appliedRules := applied acc |} /\
      (strictMode c && rejectOnViolation c = true -> found acc = []) /\
      (runCompiled c purifier compiled data).1
      = (if logViolations c && negb (Nat.eqb (List.length (found acc)) 0)
         then Some (found acc) else None)
  end.
Proof.
  unfold runCompiled.
  destruct (sanitizeValue purifier data compiled "" nothing) as [v acc]. cbn [fst snd].
  destruct (strictMode c), (rejectOnViolation c), (found acc) as [ | x l ];
    cbn [andb negb List.length Nat.eqb fst snd]; repeat split; try congruence.
Qed.

(** A call of [sanitize] leaves the switches of the configuration alone. *)
Lemma sanitize_switches e data rulesArg :
  let c := config (engine (sanitize e data rulesArg)) in
  enabled c = enabled (config e) /\ strictMode c = strictMode (config e) /\
  rejectOnViolation c = rejectOnViolation (config e) /\
  logViolations c = logViolations (config e) /\
  customRules c = customRules (config e).
Proof.
  destruct (sanitize_frame e data rulesArg) as (_ & _ & _ & Hc).
  cbn zeta. destruct rulesArg; rewrite Hc; repeat split.
Qed.

(** Every call runs some compiled rule set. *)
Lemma sanitize_runs e data rulesArg :
  exists compiled,
    (warned (sanitize e data rulesArg), result (sanitize e data rulesArg))
    = runCompiled (config (engine (sanitize e data rulesArg))) (purify e) compiled data.
Proof.
  pose proof (sanitize_run e data rulesArg) as Hrun. cbn zeta in Hrun.
  destruct (compiledRulesCache e !! _) as [cached | ]; destruct Hrun as [_ Hrun]; eauto.
Qed.


(** What a call throws, and what it returns. *)
Lemma sanitize_cases e data rulesArg :
  match result (sanitize e data rulesArg) with
  | Throws thrown =>
      strictMode (config e) = true /\ rejectOnViolation (config e) = true /\
      warned (sanitize e data rulesArg) = None /\
      exists vs, vs <> [] /\ thrown = rejection vs
  | Returns r =>
      (strictMode (config e) && rejectOnViolation (config e) = true -> violations r = []) /\
      (warned (sanitize e data rulesArg) <> None ->
       logViolations (config e) = true /\ violations r <> []) /\
      exists compiled,
        sanitized r = (sanitizeValue (purify e) data compiled "" nothing).1 /\
        violations r = map report (found (sanitizeValue (purify e) data compiled "" nothing).2) /\
        appliedRules r = applied (sanitizeValue (purify e) data compiled "" nothing).2
  end.
Proof.
  destruct (sanitize_runs e data rulesArg) as [compiled Hrun].
  destruct (sanitize_switches e data rulesArg) as (_ & Hs & Hr & Hl & _).
  pose proof (runCompiled_cases (config (engine (sanitize e data rulesArg))) (purify e)
                compiled data) as Hcases. cbn zeta in Hcases.
  rewrite <- Hrun in Hcases. cbn [fst snd] in Hcases. rewrite Hs, Hr, Hl in Hcases.
  destruct (result (sanitize e data rulesArg)) as [r | thrown].
  - destruct Hcases as (-> & Hnone & Hwarn). cbn [violations sanitized appliedRules].
    split; [ | split ].
    + intros H. now rewrite (Hnone H).
    + rewrite Hwarn. destruct (logViolations (config e)); [ | intros H; now contradiction H ].
      destruct (found _) as [ | x l ]; [ intros H; now contradiction H | ].
      intros _. split; [ reflexivity | discriminate ].
    + exists compiled. repeat split.
  - destruct Hcases as (H1 & H2 & H3 & H4 & H5). repeat split; try assumption. eauto.
Qed.

(** Names that the registry does not know resolve to nothing. *)
Lemma resolve_unknown registry names :
  (forall n, n ∈ names -> registry !! n = None) -> resolve registry names = [].
Proof.
  induction names as [ | n names IH ]; intros Hnone; [ reflexivity | ].
  rewrite resolve_cons, (Hnone n) by now left.
  apply IH. intros m Hm. apply Hnone. now right.
Qed.

(** With no rule the traversal returns a plain value as it is. *)
Lemma sanitizeValue_no_rules purifier data :
  plain data ->
  sanitizeValue purifier data [] "" nothing = (data, nothing).
Proof.
  intros Hplain.
  pose proof (sanitizeValue_texts purifier [] data Hplain "" nothing) as H1.
  pose proof (sanitizeValue_namedIn purifier [] data "" nothing) as [H2 H3];
    [ split; constructor | ].
  destruct (sanitizeValue purifier data [] "" nothing) as [v [f a]]. cbn [fst snd found applied] in *.
  subst v. unfold pipeline. cbn [fold_left]. rewrite mapTexts_id.
  destruct f as [ | x f ]; [ | apply Forall_cons in H2 as [H2 _]; cbn in H2; now apply elem_of_nil in H2 ].
  destruct a as [ | x a ]; [ | apply Forall_cons in H3 as [H3 _]; cbn in H3; now apply elem_of_nil in H3 ].
  reflexivity.
Qed.

(** The registry after a series of [set]. *)
Lemma register_all rs : forall m ruleName,
  fold_left register rs m !! ruleName
  = match lastNamed ruleName rs with
    | Some r => Some r
    | None => m !! ruleName
    end.
Proof.
  induction rs as [ | r rs IH ]; intros m ruleName; [ reflexivity | ].
  cbn [fold_left lastNamed]. rewrite IH.
  destruct (lastNamed ruleName rs); [ reflexivity | ].
  unfold register. destruct (String.eqb_spec (name r) ruleName) as [<- | Hne].
  - apply lookup_insert_eq.
  - now apply lookup_insert_ne.
Qed.

(** The cache of a new engine is empty. *)
Lemma create_builtinCache c purifier : builtinCache (create c purifier).
Proof.
  intros key cached. unfold create. cbn [compiledRulesCache]. now rewrite lookup_empty.
Qed.

(** A call adds at most the entry of its own key to the cache. *)
Lemma sanitize_cache e data rulesArg key cached :
  compiledRulesCache e !! key = Some cached ->
  compiledRulesCache (engine (sanitize e data rulesArg)) !! key = Some cached.
Proof.
  intros Hkey. pose proof (sanitize_run e data rulesArg) as Hrun. cbn zeta in Hrun.
  destruct (compiledRulesCache e !! join "," (rulesAfter (sanitize e data rulesArg)))
    as [hit | ] eqn:Hhit.
  - destruct Hrun as [-> _]. exact Hkey.
  - unfold sanitize in *.
    set (passed := match rulesArg with
                   | ConfigRules => rules (config e)
                   | Array names => names
                   end) in *.
    destruct (compiledRulesCache e !! join "," (JsString.sort passed)) eqn:Hc.
    + destruct (runCompiled _ _ _ _). cbn [engine rulesAfter] in Hhit. congruence.
    + destruct (runCompiled _ _ _ _). cbn [engine compiledRulesCache].
      rewrite lookup_insert_ne; [ exact Hkey | congruence ].
Qed.

End EngineFacts.

(* ===================================================================== *)
(** ** Facts about the built-in rules *)
(* ===================================================================== *)

Module RuleFacts.
Import JsString Regex Rules Shapes.
Import StringFacts RegexFacts ScriptFacts TextFacts.

(** Where the pattern matches nowhere, [replace] returns the text. *)
Lemma replaceFrom_no_match r by_ : forall fuel s prev,
  testFrom r prev s = false -> replaceFrom fuel r by_ prev s = s.
Proof.
  induction fuel as [ | fuel IH ]; intros s prev Htest; [ reflexivity | ].
  destruct s as [ | c s ]; cbn [testFrom replaceFrom] in *;
    destruct (matchHere r prev _); try discriminate; [ reflexivity | ].
  now rewrite IH.
Qed.

Lemma replaceAll_no_match r by_ s : test r s = false -> replaceAll r by_ s = s.
Proof. apply replaceFrom_no_match. Qed.

(** A match ends at a suffix of the text it starts in. *)
Lemma matches_suffix r p s p' s' : matches r p s p' s' -> exists w, s = w +:+ s'.
Proof.
  induction 1 as [ p s | c0 c p s Hc | r1 r2 p s p1 s1 p2 s2 _ [w1 ->] _ [w2 ->]
                 | r1 r2 p s p1 s1 _ IH | r1 r2 p s p1 s1 _ IH
                 | r p s | r p s p1 s1 p2 s2 _ [w1 ->] _ _ [w2 ->]
                 | r p s _ | s | p | p s _ ];
    try (exists ""; reflexivity); try exact IH.
  - exists (String c ""). reflexivity.
  - exists (w1 +:+ w2). now rewrite string_app_assoc.
  - exists (w1 +:+ w2). now rewrite string_app_assoc.
Qed.

Lemma matchHere_suffix r p s p' s' :
  matchHere r p s = Some (p', s') -> exists w, s = w +:+ s'.
Proof.
  unfold matchHere. intros H. apply run_sound in H as (p1 & s1 & Hm & Hk).
  injection Hk as -> ->. eapply matches_suffix, Hm.
Qed.

Lemma allOf_app P w s : allOf P (w +:+ s) = allOf P w && allOf P s.
Proof.
  induction w as [ | c w IH ]; [ now rewrite string_app_nil_l | ].
  rewrite string_app_cons. cbn [allOf]. now rewrite IH, andb_assoc.
Qed.

(** Deleting the matches keeps what holds of every code unit. *)
Lemma allOf_replaceFrom P r : forall fuel s prev,
  allOf P s = true -> allOf P (replaceFrom fuel r "" prev s) = true.
Proof.
  induction fuel as [ | fuel IH ]; intros s prev Hall; [ exact Hall | ].
  cbn [replaceFrom].
  destruct (matchHere r prev s) as [ [p' s'] | ] eqn:Hm.
  - assert (Hs' : allOf P s' = true).
    { apply matchHere_suffix in Hm as [w ->].
      rewrite allOf_app in Hall. now apply andb_true_iff in Hall as [_ Hs']. }
    destruct (_ <? _)%nat.
    + rewrite string_app_nil_l. now apply IH.
    + destruct s as [ | c s1 ]; [ reflexivity | ].
      rewrite string_app_nil_l. cbn [allOf] in *.
      apply andb_true_iff in Hall as [Hc Hs1].
      rewrite Hc. now apply IH.
  - destruct s as [ | c s1 ]; [ reflexivity | ].
    cbn [allOf] in *. apply andb_true_iff in Hall as [Hc Hs1].
    rewrite Hc. now apply IH.
Qed.

(** ** The pattern of the rule [html] *)

Lemma afterGt_shorter t rest : afterGt t = Some rest -> (String.length rest < String.length t)%nat.
Proof.
  induction t as [ | c t IH ]; cbn [afterGt]; [ discriminate | ].
  destruct (is_char ">" c).
  - intros [= ->]. cbn. lia.
  - intros H. apply IH in H. cbn. lia.
Qed.

Lemma afterGt_none t :
  afterGt t = None <-> allOf (fun c => negb (is_char ">" c)) t = true.
Proof.
  induction t as [ | c t IH ]; cbn [afterGt allOf]; [ tauto | ].
  destruct (is_char ">" c); cbn [negb andb]; [ split; discriminate | exact IH ].
Qed.

Lemma run_tag_body {A : Type} (k' k : option ascii -> string -> option A) :
  (forall p s, k' p s = match s with
                        | String c s' => if is_char ">" c then k (Some c) s' else None
                        | EmptyString => None
                        end) ->
  forall t p,
    run (Star (Class (noneOf ">"))) p t k'
    = match afterGt t with
      | Some rest => k (Some ">"%char) rest
      | None => None
      end.
Proof.
  intros Hk'.
  induction t as [ | c t IH ]; intros p; rewrite run_Star;
    set (star := Star (Class (noneOf ">"))) in *; cbn [run afterGt].
  - now rewrite Hk'.
  - unfold noneOf. cbn [oneOf]. rewrite orb_false_r, Hk'.
    destruct (is_char ">" c) eqn:Hc; cbn [negb].
    + apply is_char_eq in Hc. now subst c.
    + assert (Hlt : (String.length t <? String.length (String c t))%nat = true)
        by (apply Nat.ltb_lt; cbn; lia).
      rewrite Hlt, IH. destruct (afterGt t) as [ rest | ]; [ | reflexivity ].
      now destruct (k (Some ">"%char) rest).
Qed.

Lemma matchHere_html p s :
  matchHere htmlPattern p s
  = match s with
    | String c t =>
        if is_char "<" c
        then match afterGt t with
             | Some rest => Some (Some ">"%char, rest)
             | None => None
             end
        else None
    | EmptyString => None
    end.
Proof.
  unfold matchHere, htmlPattern. cbn [run Lit].
  destruct s as [ | c t ]; [ reflexivity | ].
  destruct (is_char "<" c); [ | reflexivity ].
  apply (run_tag_body _ (fun prev' s' => Some (prev', s'))).
  intros p0 [ | c0 s0 ]; reflexivity.
Qed.

(** What [replace] leaves of a text has no tag. *)
Lemma html_replaceFrom_clean : forall fuel s prev prev',
  (String.length s < fuel)%nat ->
  testFrom htmlPattern prev' (replaceFrom fuel htmlPattern "" prev s) = false.
Proof.
  induction fuel as [ | fuel IH ]; intros s prev prev' Hfuel; [ lia | ].
  cbn [replaceFrom]. rewrite matchHere_html.
  destruct s as [ | c t ]; [ reflexivity | ].
  assert (Hkeep : afterGt t = None \/ is_char "<" c = false ->
            testFrom htmlPattern prev'
              (String c (replaceFrom fuel htmlPattern "" (Some c) t)) = false).
  { intros Hcase. cbn [testFrom]. rewrite matchHere_html.
    rewrite IH by (cbn in Hfuel; lia).
    destruct Hcase as [Hnone | ->]; [ | reflexivity ].
    destruct (is_char "<" c); [ | reflexivity ].
    apply afterGt_none in Hnone.
    apply (allOf_replaceFrom _ htmlPattern fuel t (Some c)) in Hnone.
    apply afterGt_none in Hnone. now rewrite Hnone. }
  destruct (is_char "<" c) eqn:Hc; [ | now apply Hkeep; right ].
  destruct (afterGt t) as [ rest | ] eqn:Hgt; [ | now apply Hkeep; left ].
  pose proof (afterGt_shorter t rest Hgt) as Hlen.
  assert (Hlt : (String.length rest <? String.length (String c t))%nat = true)
    by (apply Nat.ltb_lt; cbn; lia).
  rewrite Hlt, string_app_nil_l. apply IH. cbn in Hfuel. lia.
Qed.

Lemma html_clean s : test htmlPattern (replaceAll htmlPattern "" s) = false.
Proof. apply html_replaceFrom_clean. lia. Qed.

End RuleFacts.

(* ===================================================================== *)
(** ** Facts about the details of an error *)
(* ===================================================================== *)

Module DetailsFacts.
Import JsString NormalizationEngine Shapes ValueFacts SanitizationFacts StabilityFacts.

Lemma sanitizeErrorDetails_fold props :
  sanitizeErrorDetails (VObj props) =
  VObj (fold_left
          (fun o '(key, val) =>
             setProperty o key
               (if isSensitiveField key then VStr "[REDACTED]"
                else sanitizeErrorDetails val))
          props []).
Proof.
  change (sanitizeErrorDetails (VObj props)) with
    (VObj (fold_left
             (fun sanitized '(key, val) =>
                if isSensitiveField key
                then setProperty sanitized key (VStr "[REDACTED]")
                else setProperty sanitized key (sanitizeErrorDetails val))
             props [])).
  f_equal. apply fold_left_ext. intros o [key val].
  destruct (isSensitiveField key); reflexivity.
Qed.

(** An assignment keeps what holds of every property, when it holds of the
    new one. *)
Lemma setProperty_Forall (Q : string * value -> Prop) props key v :
  Forall Q props -> Q (key, v) -> Forall Q (setProperty props key v).
Proof.
  intros Hall Hnew. unfold setProperty. destruct (String.eqb key "__proto__"); [ exact Hall | ].
  induction Hall as [ | [k w] props Hkw Hrest IH ]; cbn [assign].
  - repeat constructor. exact Hnew.
  - destruct (String.eqb_spec k key) as [-> | Hne]; constructor; auto.
Qed.

Lemma sanitizeErrorDetails_redacted d : redacted (sanitizeErrorDetails d).
Proof.
  induction d as [ | | b | n | s | items IH | props IH ] using value_ind_nested;
    try (cbn; constructor; fail).
  - destruct b; cbn; constructor.
  - cbn. destruct (n =? 0)%Z; cbn; constructor.
  - cbn. destruct (String.eqb s ""); cbn; constructor.
  - cbn [sanitizeErrorDetails truthy negb]. constructor.
    induction IH as [ | item items Hitem _ IHitems ]; cbn [map]; constructor; assumption.
  - rewrite sanitizeErrorDetails_fold. constructor.
    apply (fold_left_invariant _
             (Forall (fun kv => (isSensitiveField (fst kv) = true -> snd kv = VStr "[REDACTED]") /\
                                redacted (snd kv)))); [ | constructor ].
    eapply Forall_impl; [ exact IH | ].
    intros [key val] Hval o Ho. cbn [snd] in Hval.
    apply setProperty_Forall; [ exact Ho | ]. cbn [fst snd].
    destruct (isSensitiveField key); split; try discriminate; try reflexivity;
      [ constructor | exact Hval ].
Qed.

(** The object that [sanitizeErrorDetails] builds lists every key once. *)
Lemma sanitizeErrorDetails_keys (f : string -> value -> value) props :
  let o := fold_left (fun o '(key, val) => setProperty o key (f key val)) props [] in
  NoDup (map fst o) /\ ("__proto__" ∉ map fst o).
Proof.
  cbn zeta.
  pose proof (fold_left_invariant
                (fun o '(key, val) => setProperty o key (f key val))
                (fun o => NoDup (map fst o) /\ ("__proto__" ∉ map fst o)) props) as H1.
  apply H1.
  - apply Forall_forall. intros [key val] _ o [Hnd Hproto].
    destruct (setProperty_settled (fun _ => True) o key (f key val) Hnd Hproto) as (H2 & H3 & _);
      [ apply Forall_forall; auto | exact I | now split ].
  - split; [ constructor | apply not_elem_of_nil ].
Qed.

(** An object that lists every key once, with the marker under the
    sensitive keys and fixed values under the others, is returned as it
    is. *)
Lemma sanitizeErrorDetails_fixed o :
  NoDup (map fst o) -> "__proto__" ∉ map fst o ->
  Forall (fun kv => (if isSensitiveField (fst kv) then VStr "[REDACTED]"
                     else sanitizeErrorDetails (snd kv)) = snd kv) o ->
  sanitizeErrorDetails (VObj o) = VObj o.
Proof.
  intros Hnd Hproto Hfixed. rewrite sanitizeErrorDetails_fold. f_equal.
  rewrite (fold_setProperty
             (fun key val => if isSensitiveField key then VStr "[REDACTED]"
                             else sanitizeErrorDetails val) o []);
    [ | exact Hnd | exact Hproto | intros k _; apply not_elem_of_nil ].
  cbn [app].
  induction Hfixed as [ | [key val] o0 Hkv _ IHo ]; cbn [map fst snd] in *; [ reflexivity | ].
  apply NoDup_cons in Hnd as [_ Hnd]. apply not_elem_of_cons in Hproto as [_ Hproto].
  now rewrite Hkv, IHo.
Qed.

Lemma sanitizeErrorDetails_idempotent d :
  sanitizeErrorDetails (sanitizeErrorDetails d) = sanitizeErrorDetails d.
Proof.
  induction d as [ | | b | n | s | items IH | props IH ] using value_ind_nested;
    try reflexivity.
  - destruct b; reflexivity.
  - cbn. destruct (n =? 0)%Z eqn:Hn; cbn; [ reflexivity | now rewrite Hn ].
  - cbn. destruct (String.eqb s "") eqn:Hs; cbn; [ reflexivity | now rewrite Hs ].
  - cbn [sanitizeErrorDetails truthy negb]. f_equal. rewrite map_map.
    induction IH as [ | item items Hitem _ IHitems ]; cbn [map]; congruence.
  - rewrite sanitizeErrorDetails_fold.
    destruct (sanitizeErrorDetails_keys
                (fun key val => if isSensitiveField key then VStr "[REDACTED]"
                                else sanitizeErrorDetails val) props) as [Hnd Hproto].
    apply sanitizeErrorDetails_fixed; [ exact Hnd | exact Hproto | ].
    apply (fold_left_invariant _
             (Forall (fun kv => (if isSensitiveField (fst kv) then VStr "[REDACTED]"
                                 else sanitizeErrorDetails (snd kv)) = snd kv)));
      [ | constructor ].
    eapply Forall_impl; [ exact IH | ].
    intros [key val] Hval o0 Ho0. cbn [snd] in Hval.
    apply setProperty_Forall; [ exact Ho0 | ]. cbn [fst snd].
    destruct (isSensitiveField key); [ reflexivity | exact Hval ].
Qed.

(** ** Sensitive names *)

Lemma prefix_app sub s post : String.prefix sub s = true -> String.prefix sub (s +:+ post) = true.
Proof.
  revert s. induction sub as [ | a sub IH ]; intros s Hs;
    [ destruct (s +:+ post); reflexivity | ].
  destruct s as [ | b s ]; [ discriminate | ].
  rewrite StringFacts.string_app_cons. cbn [String.prefix] in *.
  destruct (ascii_dec a b); [ now apply IH | discriminate ].
Qed.

Lemma includes_app_r sub s post : includes sub s = true -> includes sub (s +:+ post) = true.
Proof.
  induction s as [ | c s IH ].
  - cbn [includes]. rewrite orb_false_r. intros Hs.
    apply (prefix_app sub "" post) in Hs. rewrite StringFacts.string_app_nil_l in Hs |- *.
    destruct post; cbn [includes]; now rewrite Hs.
  - rewrite StringFacts.string_app_cons. cbn [includes].
    intros [Hs | Hs]%orb_true_iff; apply orb_true_iff.
    + left. apply (prefix_app sub (String c s) post Hs).
    + right. now apply IH.
Qed.

Lemma includes_app_l sub pre s : includes sub s = true -> includes sub (pre +:+ s) = true.
Proof.
  intros Hs. induction pre as [ | c pre IH ]; [ now rewrite StringFacts.string_app_nil_l | ].
  rewrite StringFacts.string_app_cons. cbn [includes]. rewrite IH. apply orb_true_r.
Qed.

Lemma toLowerCase_app a b : toLowerCase (a +:+ b) = toLowerCase a +:+ toLowerCase b.
Proof.
  induction a as [ | c a IH ]; [ now rewrite !StringFacts.string_app_nil_l | ].
  rewrite StringFacts.string_app_cons. cbn [toLowerCase].
  now rewrite StringFacts.string_app_cons, IH.
Qed.

End DetailsFacts.

(* ===================================================================== *)
(** ** Facts about the pipe and the middleware *)
(* ===================================================================== *)

Module AdapterFacts.
Import JsString Rules Shapes.
Import ValueFacts SanitizationFacts StabilityFacts TraversalFacts EngineFacts.

(** The switches that the middleware reads from the configuration. *)
Lemma afterCall_switches m data :
  let out := SanitizationEngine.sanitize (ExpressSanitization.sanitizationEngine m) data
               (ExpressSanitization.rulesArgument m) in
  let m' := ExpressSanitization.afterCall m out in
  SanitizationEngine.strictMode
    (SanitizationEngine.config (ExpressSanitization.sanitizationEngine m'))
  = SanitizationEngine.strictMode
      (SanitizationEngine.config (ExpressSanitization.sanitizationEngine m)) /\
  SanitizationEngine.rejectOnViolation
    (SanitizationEngine.config (ExpressSanitization.sanitizationEngine m'))
  = SanitizationEngine.rejectOnViolation
      (SanitizationEngine.config (ExpressSanitization.sanitizationEngine m)).
Proof.
  cbn zeta. unfold ExpressSanitization.afterCall. cbn [ExpressSanitization.sanitizationEngine].
  destruct (sanitize_switches (ExpressSanitization.sanitizationEngine m) data
              (ExpressSanitization.rulesArgument m)) as (_ & H1 & H2 & _).
  now split.
Qed.

(** What holds during the [try] block of a call of the middleware [m]:
    the switches are those of [m], and a violation was met only if the
    engine does not reject. *)
Lemma sanitizePart_switches (strict reject : bool) data store st :
  SanitizationEngine.strictMode
    (SanitizationEngine.config
       (ExpressSanitization.sanitizationEngine (ExpressSanitization.closure st))) = strict ->
  SanitizationEngine.rejectOnViolation
    (SanitizationEngine.config
       (ExpressSanitization.sanitizationEngine (ExpressSanitization.closure st))) = reject ->
  (ExpressSanitization.hasViolations st = true -> strict && reject = false) ->
  match ExpressSanitization.sanitizePart data store st with
  | ExpressSanitization.Going st' =>
      SanitizationEngine.strictMode
        (SanitizationEngine.config
           (ExpressSanitization.sanitizationEngine (ExpressSanitization.closure st'))) = strict /\
      SanitizationEngine.rejectOnViolation
        (SanitizationEngine.config
           (ExpressSanitization.sanitizationEngine (ExpressSanitization.closure st'))) = reject /\
      (ExpressSanitization.hasViolations st' = true -> strict && reject = false)
  | ExpressSanitization.Caught st' =>
      SanitizationEngine.strictMode
        (SanitizationEngine.config
           (ExpressSanitization.sanitizationEngine (ExpressSanitization.closure st'))) = strict /\
      strict = true /\ reject = true
  end.
Proof.
  intros Hs Hr Hv. unfold ExpressSanitization.sanitizePart.
  destruct (afterCall_switches (ExpressSanitization.closure st) data) as [H1 H2].
  cbn zeta in H1, H2.
  pose proof (sanitize_cases
                (ExpressSanitization.sanitizationEngine (ExpressSanitization.closure st))
                data (ExpressSanitization.rulesArgument (ExpressSanitization.closure st)))
    as Hcases.
  destruct (SanitizationEngine.result _) as [r | thrown];
    cbn [ExpressSanitization.closure ExpressSanitization.hasViolations].
  - rewrite H1, H2, Hs, Hr. destruct Hcases as (Hnone & _). rewrite Hs, Hr in Hnone.
    repeat split.
    destruct (SanitizationEngine.violations r) as [ | x l ]; cbn [List.length Nat.eqb negb].
    + exact Hv.
    + intros _. destruct (strict && reject); [ now specialize (Hnone eq_refl) | reflexivity ].
  - rewrite H1, Hs. destruct Hcases as (H3 & H4 & _). rewrite Hs in H3. rewrite Hr in H4.
    now repeat split.
Qed.

Lemma step_switches (strict reject : bool) (step : ExpressSanitization.Progress -> ExpressSanitization.Try) st :
  step ∈ [ ExpressSanitization.bodyStep; ExpressSanitization.queryStep;
           ExpressSanitization.paramsStep; ExpressSanitization.headersStep ] ->
  SanitizationEngine.strictMode
    (SanitizationEngine.config
       (ExpressSanitization.sanitizationEngine (ExpressSanitization.closure st))) = strict ->
  SanitizationEngine.rejectOnViolation
    (SanitizationEngine.config
       (ExpressSanitization.sanitizationEngine (ExpressSanitization.closure st))) = reject ->
  (ExpressSanitization.hasViolations st = true -> strict && reject = false) ->
  match step st with
  | ExpressSanitization.Going st' =>
      SanitizationEngine.strictMode
        (SanitizationEngine.config
           (ExpressSanitization.sanitizationEngine (ExpressSanitization.closure st'))) = strict /\
      SanitizationEngine.rejectOnViolation
        (SanitizationEngine.config
           (ExpressSanitization.sanitizationEngine (ExpressSanitization.closure st'))) = reject /\
      (ExpressSanitization.hasViolations st' = true -> strict && reject = false)
  | ExpressSanitization.Caught st' =>
      SanitizationEngine.strictMode
        (SanitizationEngine.config
           (ExpressSanitization.sanitizationEngine (ExpressSanitization.closure st'))) = strict /\
      strict = true /\ reject = true
  end.
Proof.
  intros Hstep Hs Hr Hv.
  repeat (apply elem_of_cons in Hstep as [-> | Hstep]);
    [ unfold ExpressSanitization.bodyStep | unfold ExpressSanitization.queryStep
    | unfold ExpressSanitization.paramsStep | unfold ExpressSanitization.headersStep
    | now apply elem_of_nil in Hstep ];
    match goal with
    | |- context [if ?b then _ else _] => destruct b
    end; first [ now apply sanitizePart_switches | now repeat split ].
Qed.

(** The same for the four steps in a row. *)
Lemma steps_switches (strict reject : bool) steps : forall t,
  Forall (fun step => step ∈ [ ExpressSanitization.bodyStep; ExpressSanitization.queryStep;
                               ExpressSanitization.paramsStep;
                               ExpressSanitization.headersStep ]) steps ->
  match t with
  | ExpressSanitization.Going st =>
      SanitizationEngine.strictMode
        (SanitizationEngine.config
           (ExpressSanitization.sanitizationEngine (ExpressSanitization.closure st))) = strict /\
      SanitizationEngine.rejectOnViolation
        (SanitizationEngine.config
           (ExpressSanitization.sanitizationEngine (ExpressSanitization.closure st))) = reject /\
      (ExpressSanitization.hasViolations st = true -> strict && reject = false)
  | ExpressSanitization.Caught st =>
      SanitizationEngine.strictMode
        (SanitizationEngine.config
           (ExpressSanitization.sanitizationEngine (ExpressSanitization.closure st))) = strict /\
      strict = true /\ reject = true
  end ->
  match fold_left ExpressSanitization.andThen steps t with
  | ExpressSanitization.Going st =>
      SanitizationEngine.strictMode
        (SanitizationEngine.config
           (ExpressSanitization.sanitizationEngine (ExpressSanitization.closure st))) = strict /\
      SanitizationEngine.rejectOnViolation
        (SanitizationEngine.config
           (ExpressSanitization.sanitizationEngine (ExpressSanitization.closure st))) = reject /\
      (ExpressSanitization.hasViolations st = true -> strict && reject = false)
  | ExpressSanitization.Caught st =>
      SanitizationEngine.strictMode
        (SanitizationEngine.config
           (ExpressSanitization.sanitizationEngine (ExpressSanitization.closure st))) = strict /\
      strict = true /\ reject = true
  end.
Proof.
  induction steps as [ | step steps IH ]; intros t Hall Ht; [ exact Ht | ].
  apply Forall_cons in Hall as [Hstep Hall]. cbn [fold_left]. apply IH; [ exact Hall | ].
  destruct t as [st | st]; cbn [ExpressSanitization.andThen]; [ | exact Ht ].
  destruct Ht as (Hs & Hr & Hv). now apply step_switches.
Qed.

(** ** The headers *)

Lemma assoc_assign_ne (props : list (string * value)) k key v :
  k <> key -> assoc key (assign props k v) = assoc key props.
Proof.
  intros Hne. induction props as [ | [k0 w] props IH ]; cbn [assign assoc].
  - apply String.eqb_neq in Hne. now rewrite Hne.
  - destruct (String.eqb_spec k0 k) as [-> | Hk]; cbn [assoc].
    + apply String.eqb_neq in Hne. now rewrite Hne.
    + now rewrite IH.
Qed.

Lemma assoc_setProperty_ne (props : list (string * value)) k key v :
  k <> key -> assoc key (setProperty props k v) = assoc key props.
Proof.
  intros Hne. unfold setProperty. destruct (String.eqb k "__proto__"); [ reflexivity | ].
  now apply assoc_assign_ne.
Qed.

Lemma setProperty_keys (props : list (string * value)) key v k :
  k ∈ map fst (setProperty props key v) -> k ∈ map fst props \/ k = key.
Proof.
  unfold setProperty. destruct (String.eqb key "__proto__"); [ now left | ].
  rewrite assign_keys. destruct (existsb _ _); [ now left | ].
  rewrite elem_of_app, list_elem_of_singleton. tauto.
Qed.

(** The object that the traversal builds has no key that the input has
    not. *)
Lemma sanitizeValue_keys purifier compiled props fieldPath acc :
  exists o,
    (SanitizationEngine.sanitizeValue purifier (VObj props) compiled fieldPath acc).1 = VObj o /\
    forall k, k ∈ map fst o -> k ∈ map fst props.
Proof.
  cbn [SanitizationEngine.sanitizeValue].
  match goal with
  | |- context [fold_left ?f props ([], acc)] =>
      assert (Hfold : forall built acc0 k,
                 k ∈ map fst (fold_left f props (built, acc0)).1 ->
                 k ∈ map fst built \/ k ∈ map fst props)
  end.
  { induction props as [ | [key val] props IH ]; intros built acc0 k; cbn [fold_left].
    - now left.
    - destruct (SanitizationEngine.sanitizeValue purifier val compiled _ acc0) as [val' acc1].
      intros Hk. apply IH in Hk as [Hk | Hk].
      + apply setProperty_keys in Hk as [Hk | ->]; [ now left | right; now left ].
      + right. now right. }
  specialize (Hfold [] acc).
  destruct (fold_left _ props ([], acc)) as [o acc']. cbn [fst] in *.
  exists o. split; [ reflexivity | ].
  intros k Hk. apply Hfold in Hk as [Hk | Hk]; [ now apply elem_of_nil in Hk | exact Hk ].
Qed.

Lemma objectAssign_other target o key :
  key ∉ map fst o ->
  assoc key (ExpressSanitization.objectAssign target (VObj o)) = assoc key target.
Proof.
  unfold ExpressSanitization.objectAssign. revert target.
  induction o as [ | [k v] o IH ]; intros target Hkey; [ reflexivity | ].
  cbn [fold_left map fst] in *. apply not_elem_of_cons in Hkey as [Hne Hkey].
  rewrite IH by exact Hkey. apply assoc_setProperty_ne. congruence.
Qed.

Lemma filter_sanitizable_keys (props : list (string * value)) key :
  key ∈ map fst (List.filter (fun '(k, _) => ExpressSanitization.sanitizable k) props) ->
  ExpressSanitization.sanitizable key = true.
Proof.
  intros Hin. apply list_elem_of_fmap in Hin as ([k v] & -> & Hin).
  apply list_elem_of_In, filter_In in Hin as [_ Hin]. exact Hin.
Qed.

(** A step leaves alone the headers that are not to be sanitized. *)
Lemma sanitizePart_headers key (store : ExpressSanitization.Request -> value -> ExpressSanitization.Request) data st :
  (forall req v,
      (exists compiled fieldPath acc purifier,
          v = (SanitizationEngine.sanitizeValue purifier data compiled fieldPath acc).1) ->
      assoc key (ExpressSanitization.headers (store req v))
      = assoc key (ExpressSanitization.headers req)) ->
  match ExpressSanitization.sanitizePart data store st with
  | ExpressSanitization.Going st' | ExpressSanitization.Caught st' =>
      assoc key (ExpressSanitization.headers (ExpressSanitization.request st'))
      = assoc key (ExpressSanitization.headers (ExpressSanitization.request st))
  end.
Proof.
  intros Hstore. unfold ExpressSanitization.sanitizePart.
  pose proof (sanitize_cases
                (ExpressSanitization.sanitizationEngine (ExpressSanitization.closure st))
                data (ExpressSanitization.rulesArgument (ExpressSanitization.closure st)))
    as Hcases.
  destruct (SanitizationEngine.result _) as [r | thrown];
    cbn [ExpressSanitization.request]; [ | reflexivity ].
  destruct Hcases as (_ & _ & compiled & -> & _). apply Hstore. eauto.
Qed.

Lemma step_headers key (step : ExpressSanitization.Progress -> ExpressSanitization.Try) st :
  ExpressSanitization.sanitizable key = false ->
  step ∈ [ ExpressSanitization.bodyStep; ExpressSanitization.queryStep;
           ExpressSanitization.paramsStep; ExpressSanitization.headersStep ] ->
  match step st with
  | ExpressSanitization.Going st' | ExpressSanitization.Caught st' =>
      assoc key (ExpressSanitization.headers (ExpressSanitization.request st'))
      = assoc key (ExpressSanitization.headers (ExpressSanitization.request st))
  end.
Proof.
  intros Hkey Hstep.
  repeat (apply elem_of_cons in Hstep as [-> | Hstep]);
    [ unfold ExpressSanitization.bodyStep | unfold ExpressSanitization.queryStep
    | unfold ExpressSanitization.paramsStep | unfold ExpressSanitization.headersStep
    | now apply elem_of_nil in Hstep ];
    match goal with
    | |- context [if ?b then _ else _] => destruct b
    end; try reflexivity; apply sanitizePart_headers; try (intros; reflexivity).
  intros req v (compiled & fieldPath & acc & purifier & ->).
  unfold ExpressSanitization.headersToSanitize.
  destruct (sanitizeValue_keys purifier compiled
              (List.filter (fun '(k, _) => ExpressSanitization.sanitizable k)
                           (ExpressSanitization.headers (ExpressSanitization.request st)))
              fieldPath acc) as (o & -> & Hkeys).
  cbn [ExpressSanitization.storeHeaders ExpressSanitization.headers].
  apply objectAssign_other. intros Hin. apply Hkeys, filter_sanitizable_keys in Hin. congruence.
Qed.

Lemma steps_headers key req steps : forall t,
  ExpressSanitization.sanitizable key = false ->
  Forall (fun step => step ∈ [ ExpressSanitization.bodyStep; ExpressSanitization.queryStep;
                               ExpressSanitization.paramsStep;
                               ExpressSanitization.headersStep ]) steps ->
  match t with
  | ExpressSanitization.Going st | ExpressSanitization.Caught st =>
      assoc key (ExpressSanitization.headers (ExpressSanitization.request st))
      = assoc key (ExpressSanitization.headers req)
  end ->
  match fold_left ExpressSanitization.andThen steps t with
  | ExpressSanitization.Going st | ExpressSanitization.Caught st =>
      assoc key (ExpressSanitization.headers (ExpressSanitization.request st))
      = assoc key (ExpressSanitization.headers req)
  end.
Proof.
  intros t Hkey Hall. revert t.
  induction Hall as [ | step steps Hstep _ IH ]; intros t Ht; [ exact Ht | ].
  cbn [fold_left]. apply IH.
  destruct t as [st | st]; cbn [ExpressSanitization.andThen]; [ | exact Ht ].
  pose proof (step_headers key step st Hkey Hstep) as H1.
  destruct (step st); congruence.
Qed.

End AdapterFacts.

(* ===================================================================== *)
(** ** Properties of the traversal ([sanitizeValue], [sanitizeString]) *)
(* ===================================================================== *)

Module TraversalProperties.
Import JsString Rules SanitizationEngine Notions Shapes Samples.
Import ValueFacts SanitizationFacts StabilityFacts TraversalFacts.

(** X1.  Every violation that a traversal records has, as its [field], the
    path of a text of the input: paths are built with [[index]] under an
    array and with [.key] (or the bare key at the top) under an object, and
    nothing is reported at a path where the input holds no text. *)
Theorem violations_point_at_texts purifier compiled data fieldPath :
  Forall (fun v => field v ∈ textPaths data fieldPath)
         (found (sanitizeValue purifier data compiled fieldPath nothing).2).
Proof.
  apply (sanitizeValue_fieldsIn purifier compiled data fieldPath nothing
           (textPaths data fieldPath)); [ auto | constructor ].
Qed.

(** X2.  On a value whose objects list distinct keys other than
    ["__proto__"], the traversal returns the input with every text replaced
    by what the loop of [sanitizeString] makes of it: [null], [undefined],
    numbers, booleans, the keys and their order, and the lengths of the
    arrays are as in the input, and the new text depends on neither the
    path nor what was collected before. *)
Theorem traversal_rewrites_the_texts_only purifier compiled data fieldPath acc :
  plain data ->
  (sanitizeValue purifier data compiled fieldPath acc).1
  = mapTexts (pipeline purifier compiled) data.
Proof. intros Hplain. now apply sanitizeValue_texts. Qed.

Lemma traversal_rewrites_the_texts_only_witness :
  plain profile /\
  (sanitizeValue mockPurify profile [ Rules.trim ] "" nothing).1 = profileTrimmed.
Proof.
  assert (Hplain : plain profile) by (unfold profile; plain_value).
  split; [ exact Hplain | ].
  rewrite (traversal_rewrites_the_texts_only mockPurify [ Rules.trim ] profile "" nothing Hplain).
  reflexivity.
Defined.

(** X3.  Whatever the input, every object in the value that the traversal
    returns lists distinct keys, and none of them is ["__proto__"]: a
    property of that name in the input is not copied. *)
Theorem traversal_builds_plain_objects purifier compiled data fieldPath acc :
  plain (sanitizeValue purifier data compiled fieldPath acc).1.
Proof. apply sanitizeValue_plain. Qed.

(** X4.  A traversal names compiled rules only: the rule of every
    violation is a compiled rule that has a [validate], and every entry of
    [appliedRules] is a compiled rule that has a [transform]; so a rule that
    only detects ([sql], [url-validate], [path-traversal]) is never listed as
    applied. *)
Theorem traversal_names_compiled_rules purifier compiled data fieldPath :
  Forall (fun v => rule v ∈ validating compiled)
         (found (sanitizeValue purifier data compiled fieldPath nothing).2) /\
  Forall (fun ruleName => ruleName ∈ transforming compiled)
         (applied (sanitizeValue purifier data compiled fieldPath nothing).2).
Proof.
  apply (sanitizeValue_namedIn purifier compiled data fieldPath nothing).
  split; constructor.
Qed.

(** X5.  [appliedRules] is a complete record of changes: when a traversal
    that does not run the rule [html] (the only one followed by the external
    sanitizer) lists no applied rule, the value it returns is the input. *)
Theorem no_applied_rule_no_change purifier compiled data fieldPath :
  Forall (fun r => name r <> "html") compiled ->
  plain data ->
  applied (sanitizeValue purifier data compiled fieldPath nothing).2 = [] ->
  (sanitizeValue purifier data compiled fieldPath nothing).1 = data.
Proof.
  intros Hhtml Hplain Happlied.
  apply sanitizeValue_unchanged; [ exact Hhtml | exact Hplain | ].
  unfold count. now rewrite Happlied.
Qed.

Lemma no_applied_rule_no_change_witness :
  (sanitizeValue mockPurify search [ Rules.sql; Rules.trim ] "" nothing).1 = search /\
  List.length (found (sanitizeValue mockPurify search [ Rules.sql; Rules.trim ] "" nothing).2)
  = 1%nat.
Proof.
  split; [ | vm_compute; reflexivity ].
  apply (no_applied_rule_no_change mockPurify [ Rules.sql; Rules.trim ] search "").
  - repeat constructor; discriminate.
  - unfold search. plain_value.
  - vm_compute. reflexivity.
Defined.

(** X6.  A traversal records at most one violation for each text of the
    input and each compiled rule that has a [validate]. *)
Theorem violations_are_bounded purifier compiled data fieldPath :
  (List.length (found (sanitizeValue purifier data compiled fieldPath nothing).2)
   <= List.length (textPaths data fieldPath) * List.length (validating compiled))%nat.
Proof. apply (sanitizeValue_bounded purifier compiled data fieldPath nothing). Qed.

End TraversalProperties.

(* ===================================================================== *)
(** ** Properties of the engine ([sanitize], the registry) *)
(* ===================================================================== *)

Module EngineProperties.
Import JsString Rules SanitizationEngine Notions Shapes Samples Examples.
Import ValueFacts SanitizationFacts StabilityFacts TraversalFacts EngineFacts.

(** X7.  On an engine whose registry and cache hold built-in rules only
    (their functions return), [sanitize] throws only to reject: when it
    throws, [strictMode] and [rejectOnViolation] are both on, a violation
    was found, the error lists the violation types and nothing went to
    [console.warn]; when it returns with both switches on, the result has no
    violation; and it warns only with [logViolations] on and a violation in
    the result. *)
Theorem sanitize_throws_only_to_reject e data rulesArg :
  builtinRegistry e -> builtinCache e ->
  match result (sanitize e data rulesArg) with
  | Throws thrown =>
      strictMode (config e) = true /\ rejectOnViolation (config e) = true /\
      warned (sanitize e data rulesArg) = None /\
      exists vs, vs <> [] /\ thrown = rejection vs
  | Returns r =>
      (strictMode (config e) && rejectOnViolation (config e) = true -> violations r = []) /\
      (warned (sanitize e data rulesArg) <> None ->
       logViolations (config e) = true /\ violations r <> [])
  end.
Proof.
  intros _ _.
  pose proof (sanitize_cases e data rulesArg) as H.
  destruct (result (sanitize e data rulesArg)); [ | exact H ].
  destruct H as (H1 & H2 & _). now split.
Qed.

Lemma sanitize_throws_only_to_reject_witness :
  match result (sanitize (strictEngine true) comment (Array [ "html" ])) with
  | Throws thrown =>
      strictMode (config (strictEngine true)) = true /\
      rejectOnViolation (config (strictEngine true)) = true /\
      warned (sanitize (strictEngine true) comment (Array [ "html" ])) = None /\
      exists vs, vs <> [] /\ thrown = rejection vs
  | Returns r =>
      (strictMode (config (strictEngine true))
       && rejectOnViolation (config (strictEngine true)) = true -> violations r = []) /\
      (warned (sanitize (strictEngine true) comment (Array [ "html" ])) <> None ->
       logViolations (config (strictEngine true)) = true /\ violations r <> [])
  end.
Proof.
  apply (sanitize_throws_only_to_reject (strictEngine true) comment (Array [ "html" ])).
  - now apply create_builtinRegistry.
  - apply create_builtinCache.
Defined.


(** X9.  Names that the registry does not know select no rule: with such
    names only (or with no name at all) [sanitize] returns a plain value as
    it is, with no violation and no applied rule, and does not throw even
    in strict mode. *)
Theorem unknown_rules_change_nothing e data names :
  plain data ->
  (forall ruleName, ruleName ∈ names -> rulesCache e !! ruleName = None) ->
  cacheAgrees e names ->
  result (sanitize e data (Array names))
  = Returns {| sanitized := data; violations := []; appliedRules := [] |}.
Proof.
  intros Hplain Hnone Hagree.
  destruct (sanitize_agreeing_cache e data names Hagree) as (_ & _ & _ & _ & _ & Hrun).
  rewrite resolve_unknown in Hrun.
  - unfold runCompiled in Hrun. rewrite (sanitizeValue_no_rules _ _ Hplain) in Hrun.
    cbn [found nothing List.length Nat.eqb negb andb applied map] in Hrun.
    rewrite andb_false_r in Hrun. cbn [andb] in Hrun. now injection Hrun.
  - intros n Hn. apply Hnone.
    now rewrite <- (sort_permutation names).
Qed.

Lemma unknown_rules_change_nothing_witness :
  result (sanitize (strictEngine true) comment (Array [ "no-such-rule" ]))
  = Returns {| sanitized := comment; violations := []; appliedRules := [] |}.
Proof.
  apply (unknown_rules_change_nothing (strictEngine true) comment [ "no-such-rule" ]).
  - unfold comment. plain_value.
  - intros ruleName Hin. apply list_elem_of_singleton in Hin. subst ruleName.
    vm_compute. reflexivity.
  - vm_compute. exact I.
Defined.

(** X10.  The registry of a new engine: under a name it holds the last
    custom rule of that name, and otherwise the built-in rule of that name;
    so a custom rule replaces the built-in rule whose name it takes. *)
Theorem registry_of_a_new_engine c purifier ruleName :
  rulesCache (create c purifier) !! ruleName
  = match lastNamed ruleName (customRules c) with
    | Some r => Some r
    | None => lastNamed ruleName DEFAULT_SANITIZATION_RULES
    end.
Proof.
  unfold create, initializeRules. cbn [rulesCache].
  rewrite !register_all, lookup_empty.
  now destruct (lastNamed ruleName DEFAULT_SANITIZATION_RULES).
Qed.

(** X11.  A change of the registry takes effect at once: after
    [addCustomRule] or [removeRule] the next call of [sanitize] runs what the
    new registry resolves the sorted names to, whatever had been compiled
    and cached for these names before. *)
Theorem registry_changes_take_effect e data names :
  (forall r,
      result (sanitize (addCustomRule e r) data (Array names))
      = (runCompiled (config e) (purify e)
           (resolve (<[name r := r]> (rulesCache e)) (JsString.sort names)) data).2) /\
  (forall ruleName,
      result (sanitize (removeRule e ruleName) data (Array names))
      = (runCompiled (config e) (purify e)
           (resolve (delete ruleName (rulesCache e)) (JsString.sort names)) data).2).
Proof.
  split.
  - intros r.
    destruct (sanitize_agreeing_cache (addCustomRule e r) data names)
      as (_ & _ & _ & _ & _ & Hrun).
    + unfold cacheAgrees, addCustomRule. cbn [compiledRulesCache]. now rewrite lookup_empty.
    + cbn [addCustomRule config purify rulesCache] in Hrun. now rewrite <- Hrun.
  - intros ruleName.
    destruct (sanitize_agreeing_cache (removeRule e ruleName) data names)
      as (_ & _ & _ & _ & _ & Hrun).
    + unfold cacheAgrees, removeRule. cbn [compiledRulesCache]. now rewrite lookup_empty.
    + cbn [removeRule config purify rulesCache] in Hrun. now rewrite <- Hrun.
Qed.

(** X12.  After [removeRule], built-in or not, the rule is gone for
    [validateConfig] too: a configuration that lists its name is refused,
    with an error. *)
Theorem removed_rule_is_refused e ruleName c :
  ruleName ∈ rules c ->
  exists text, validateConfig (removeRule e ruleName) c = Throws (JsError text).
Proof.
  intros Hin. unfold validateConfig.
  assert (Hsome : ruleName ∈ List.filter (fun r => negb (available (removeRule e ruleName) r))
                                         (rules c)).
  { apply list_elem_of_In, filter_In. split; [ now apply list_elem_of_In | ].
    unfold available, removeRule. cbn [rulesCache]. now rewrite lookup_delete_eq. }
  destruct (List.filter _ (rules c)) as [ | x l ]; [ now apply elem_of_nil in Hsome | ].
  cbn [List.length Nat.eqb negb]. eauto.
Qed.

Lemma removed_rule_is_refused_witness :
  exists text,
    validateConfig (removeRule (strictEngine false) "html") (sanitizationConfig true false)
    = Throws (JsError text).
Proof.
  apply (removed_rule_is_refused (strictEngine false) "html" (sanitizationConfig true false)).
  apply (bool_decide_unpack _). vm_compute. exact I.
Defined.

(** X13.  [sanitize] never evicts or replaces an entry of the cache of
    compiled rule sets: every entry that is there before a call is there,
    unchanged, after it. *)
Theorem cache_entries_are_kept e data rulesArg :
  compiledRulesCache e ⊆ compiledRulesCache (engine (sanitize e data rulesArg)).
Proof.
  apply map_subseteq_spec. intros key cached. apply sanitize_cache.
Qed.

End EngineProperties.

(* ===================================================================== *)
(** ** Properties of the built-in rules *)
(* ===================================================================== *)

Module RuleProperties.
Import JsString Regex Rules Shapes.
Import StringFacts RegexFacts TextFacts RuleFacts.

(** X14.  The four rules that delete what their pattern matches ([html],
    [script], [xss], [command-injection]) change a text only when they also
    flag it: on a text that passes [validate], [transform] returns the
    text. *)
Theorem valid_text_is_left_alone r s :
  r ∈ deletingRules -> passes r s = true -> changeOf r s = s.
Proof.
  intros Hr. unfold deletingRules in Hr.
  repeat (apply elem_of_cons in Hr as [-> | Hr]); [ .. | now apply elem_of_nil in Hr ];
    unfold passes, changeOf; cbn [validate transform html script xss command_injection];
    intros Hpass; apply negb_true_iff in Hpass; now apply replaceAll_no_match.
Qed.

Lemma valid_text_is_left_alone_witness : changeOf html "1 < 2" = "1 < 2".
Proof.
  apply (valid_text_is_left_alone html "1 < 2").
  - apply list_elem_of_here.
  - vm_compute. reflexivity.
Defined.

(** X15.  What [transform] of the rule [html] or of the rule
    [command-injection] returns passes the rule's own [validate]: no tag, and
    no command character, is left or formed by the deletions. *)
Theorem deleting_leaves_nothing_to_delete r s :
  r ∈ [ html; command_injection ] -> passes r (changeOf r s) = true.
Proof.
  intros Hr. repeat (apply elem_of_cons in Hr as [-> | Hr]); [ .. | now apply elem_of_nil in Hr ];
    unfold passes, changeOf; cbn [validate transform html command_injection];
    apply negb_true_iff.
  - apply html_clean.
  - unfold commandPattern. rewrite replaceAll_Class. apply test_Class_false, allOf_without_self.
Qed.

Lemma deleting_leaves_nothing_to_delete_witness :
  passes html (changeOf html "<<b>i>x</b>") = true.
Proof.
  apply (deleting_leaves_nothing_to_delete html "<<b>i>x</b>").
  apply list_elem_of_here.
Defined.

(** X16.  The [transform] of [html], [trim], [email-normalize],
    [phone-normalize] and [command-injection] is idempotent: applied to its
    own result it changes nothing. *)
Theorem transform_is_idempotent r s :
  r ∈ idempotentRules -> changeOf r (changeOf r s) = changeOf r s.
Proof.
  intros Hr. unfold idempotentRules in Hr.
  repeat (apply elem_of_cons in Hr as [-> | Hr]); [ .. | now apply elem_of_nil in Hr ];
    unfold changeOf;
    cbn [transform html Rules.trim email_normalize phone_normalize command_injection].
  - apply replaceAll_no_match, html_clean.
  - apply trim_idempotent.
  - rewrite (toLowerCase_fixed (JsString.trim (toLowerCase s))).
    + apply trim_idempotent.
    + apply allOf_trim, toLowerCase_lowered.
  - rewrite !replaceAll_Class. apply without_fixed, allOf_without_self.
  - unfold commandPattern. rewrite !replaceAll_Class. apply without_fixed, allOf_without_self.
Qed.

Lemma transform_is_idempotent_witness :
  changeOf email_normalize (changeOf email_normalize " Ann@Example.COM ")
  = changeOf email_normalize " Ann@Example.COM ".
Proof.
  apply (transform_is_idempotent email_normalize " Ann@Example.COM ").
  do 2 apply list_elem_of_further. apply list_elem_of_here.
Defined.

End RuleProperties.

(* ===================================================================== *)
(** ** Properties of the error responses and of the pagination *)
(* ===================================================================== *)

Module ErrorProperties.
Import JsString NormalizationEngine Shapes Samples Examples.
Import ValueFacts DetailsFacts.

(** X17.  In the details of an error response every property with a
    sensitive name holds the marker, at every depth and whatever the input:
    no other value is ever returned under such a name. *)
Theorem details_are_redacted host config thrown context codeArg detailsArg r d :
  normalizeError host config thrown context codeArg detailsArg = Returns r ->
  details (error r) = Some d ->
  redacted d.
Proof.
  unfold normalizeError, normalizeErrorWith, applyErrorFormatting.
  destruct (createMetadata host config context 0) as [meta tick].
  destruct (errorFormat config);
    destruct thrown as [nm msg st | [ | | b | n | s | items | props ]];
    cbn [code error];
    try match goal with
        | |- context [match ?c with _ => _ end = Returns _ -> _] => destruct c
        end;
    try discriminate;
    intros [= <-]; cbn [details error]; try discriminate;
    intros [= <-]; apply sanitizeErrorDetails_redacted.
Qed.

Lemma details_are_redacted_witness :
  redacted
    (VObj [ ("user", VObj [ ("apiKey", VStr "[REDACTED]"); ("id", VNum 7) ]);
            ("Password", VStr "[REDACTED]") ]).
Proof.
  refine (details_are_redacted testHost (configOf FormatStandard ErrorStandard)
            (Plain (VStr "boom")) testContext None
            (VObj [ ("user", VObj [ ("apiKey", VStr "k-1"); ("id", VNum 7) ]);
                    ("Password", VStr "hunter2") ])
            _ _ eq_refl _).
  vm_compute. reflexivity.
Defined.

(** X18.  [sanitizeErrorDetails] is idempotent: details that were redacted
    once are returned as they are by a second pass. *)
Theorem sanitizeErrorDetails_is_idempotent d :
  sanitizeErrorDetails (sanitizeErrorDetails d) = sanitizeErrorDetails d.
Proof. apply sanitizeErrorDetails_idempotent. Qed.

(** X19.  An error response carries a stack only when [includeDebugInfo] is
    on, the format is not [simple], and the error is an instance of [Error]
    with a stack that is not empty; the stack is then that of the error. *)
Theorem stack_only_with_debug_info host config thrown context codeArg detailsArg r text :
  normalizeError host config thrown context codeArg detailsArg = Returns r ->
  stack (error r) = Some text ->
  includeDebugInfo config = true /\ errorFormat config <> ErrorSimple /\ text <> "" /\
  exists name msg, thrown = ErrorObject name msg (Some text).
Proof.
  unfold normalizeError, normalizeErrorWith, applyErrorFormatting.
  destruct (createMetadata host config context 0) as [meta tick].
  destruct (errorFormat config) eqn:Hformat;
    destruct thrown as [nm msg st | [ | | b | n | s | items | props ]];
    cbn [code error];
    try match goal with
        | |- context [match ?c with _ => _ end = Returns _ -> _] => destruct c
        end;
    try discriminate;
    intros [= <-]; cbn [stack error]; try discriminate;
    destruct (includeDebugInfo config); try discriminate;
    destruct st as [ trace | ]; try discriminate;
    destruct (String.eqb_spec trace ""); try discriminate;
    intros [= <-]; repeat split; try discriminate; try assumption; eauto.
Qed.

Lemma stack_only_with_debug_info_witness :
  includeDebugInfo (debugConfig ErrorStandard) = true /\
  errorFormat (debugConfig ErrorStandard) <> ErrorSimple /\
  "Error: boom at handler" <> "" /\
  exists name msg,
    ErrorObject "Error" "boom" (Some "Error: boom at handler")
    = ErrorObject name msg (Some "Error: boom at handler").
Proof.
  refine (stack_only_with_debug_info testHost (debugConfig ErrorStandard)
            (ErrorObject "Error" "boom" (Some "Error: boom at handler"))
            testContext None VUndefined _ "Error: boom at handler" eq_refl _).
  vm_compute. reflexivity.
Defined.

(** X20.  [normalizeError] throws in two cases only, both under the
    format [detailed]: the code that is passed is truthy and not a string
    (whatever the error is); or no truthy code is passed, the error is
    neither an instance of [Error] nor a string, and its [code] is truthy
    and not a string.  In every other case it returns a response. *)
Theorem normalizeError_throws_exactly_when host config thrown context code detailsArg :
  (exists thrownError,
      normalizeErrorWith host config thrown context code detailsArg = Throws thrownError) <->
  errorFormat config = ErrorDetailed /\
  ((truthy code = true /\ forall text, code <> VStr text) \/
   (truthy code = false /\
    exists other,
      thrown = Plain other /\
      (forall text, other <> VStr text) /\
      truthy (optionalGet other "code") = true /\
      (forall text, optionalGet other "code" <> VStr text))).
Proof.
  unfold normalizeErrorWith, applyErrorFormatting.
  destruct (createMetadata host config context 0) as [meta tick].
  destruct (errorFormat config) eqn:Hformat.
  1, 2: split; [ intros [x Hx]; destruct thrown as [nm msg st | [ | | b | n | s | items | props ]];
                 discriminate
               | intros [Hf _]; discriminate ].
  destruct (truthy code) eqn:Hc.
  - (* the code that is passed is the code of the response *)
    assert (Hor : forall fallback, js_or code fallback = code)
      by (intros fallback; unfold js_or; now rewrite Hc).
    destruct thrown as [nm msg st | [ | | b | n | s | items | props ]];
      cbv beta iota zeta; cbn [NormalizationEngine.code error]; rewrite Hor;
      (destruct code as [ | | cb | cn | cs | citems | cprops ];
       (split;
        [ intros [x Hx]; first [ discriminate Hx
                               | split; [ reflexivity | left; split; [ reflexivity | discriminate ] ] ]
        | intros (_ & [ [_ Hn] | [Hfalse _] ]);
          first [ discriminate Hfalse | now contradiction (Hn cs) | eexists; reflexivity ] ])).
  - assert (Hor : forall fallback, js_or code fallback = fallback)
      by (intros fallback; unfold js_or; now rewrite Hc).
    destruct thrown as [nm msg st | other]; cbv beta iota zeta.
    + cbn [NormalizationEngine.code error]. rewrite Hor. unfold js_or.
      split.
      * intros [x Hx]. destruct (truthy (VStr nm)); discriminate.
      * intros (_ & [ [Htrue _] | (_ & other & Heq & _) ]); discriminate.
    + destruct other as [ | | b | n | s | items | props ]; cbv beta iota zeta;
        cbn [NormalizationEngine.code error]; rewrite Hor.
      5: { split.
           - intros [x Hx]. discriminate.
           - intros (_ & [ [Htrue _] | (_ & other & [= <-] & Hs & _) ]);
               [ discriminate | now contradiction (Hs s) ]. }
      all: match goal with
           | |- context [optionalGet ?o "code"] =>
               remember (optionalGet o "code") as get eqn:Hget
           end.
      all: unfold js_or.
      all: destruct (truthy get) eqn:Hg;
        [ | split;
            [ intros [x Hx]; discriminate
            | intros (_ & [ [Htrue _] | (_ & other & [= <-] & _ & Ht & _) ]);
              [ discriminate | rewrite <- Hget in Ht; congruence ] ] ].
      all: destruct get as [ | | gb | gn | gs | gitems | gprops ];
        try (split;
             [ intros _; split; [ reflexivity | ]; right; split; [ reflexivity | ];
               eexists; split; [ reflexivity | ];
               rewrite <- Hget; repeat split; try discriminate; assumption
             | intros _; eexists; reflexivity ]).
      all: split;
        [ intros [x Hx]; discriminate
        | intros (_ & [ [Htrue _] | (_ & other & [= <-] & _ & _ & Hn) ]);
          [ discriminate | rewrite <- Hget in Hn; now contradiction (Hn gs) ] ].
Qed.

(** X21.  [normalizePagination] on integer fields below 2^53 in size (on
    which the division of the code is exact): [totalPages] is at least 1
    when the limit is not 0; with a limit of 0, which is itself clamped to
    1, the division by the limit as given makes [totalPages] infinite when
    the total is positive and NaN when it is 0, and [hasNext] is then true
    exactly when the total is positive. *)
Theorem normalizePagination_total_pages config p pg lm tt :
  page p = Int pg -> limit p = Int lm -> total p = Int tt ->
  (Z.abs pg < 2 ^ 53)%Z -> (Z.abs lm < 2 ^ 53)%Z -> (Z.abs tt < 2 ^ 53)%Z ->
  let q := normalizePagination config p in
  limit q = Int (Z.max 1 (Z.min 100 lm)) /\
  totalPages q
  = (if (lm =? 0)%Z
     then if (0 <? tt)%Z then PosInf else if (tt <? 0)%Z then Int 1 else NaN
     else Int (Z.max 1 (- (- tt / lm)))) /\
  hasNext q = (if (lm =? 0)%Z then (0 <? tt)%Z else (pg <? - (- tt / lm))%Z).
Proof.
  intros Hp Hl Ht _ _ _. cbn zeta. unfold normalizePagination.
  cbn [limit totalPages hasNext]. rewrite Hp, Hl, Ht.
  unfold JsMath.ceilDiv. cbn [JsMath.min JsMath.max].
  destruct (lm =? 0)%Z; [ | repeat split ].
  destruct (0 <? tt)%Z; [ repeat split | ].
  destruct (tt <? 0)%Z; repeat split.
Qed.

Lemma normalizePagination_total_pages_witness :
  limit (normalizePagination (configOf FormatStandard ErrorStandard) pagination_1_0_5) = Int 1 /\
  totalPages (normalizePagination (configOf FormatStandard ErrorStandard) pagination_1_0_5)
  = PosInf /\
  hasNext (normalizePagination (configOf FormatStandard ErrorStandard) pagination_1_0_5) = true.
Proof.
  exact (normalizePagination_total_pages (configOf FormatStandard ErrorStandard)
           pagination_1_0_5 1 0 5 eq_refl eq_refl eq_refl eq_refl eq_refl eq_refl).
Defined.

(** X22.  A property name is sensitive as soon as a part of it is: the
    test looks for the eleven words anywhere in the lower-cased name, so a
    name that contains a sensitive name is redacted too. *)
Theorem sensitive_names_extend fieldName before after :
  isSensitiveField fieldName = true ->
  isSensitiveField (before +:+ fieldName +:+ after) = true.
Proof.
  unfold isSensitiveField. intros Hsome.
  apply existsb_exists in Hsome as (word & Hin & Hword).
  apply existsb_exists. exists word. split; [ exact Hin | ].
  rewrite !toLowerCase_app. now apply includes_app_l, includes_app_r.
Qed.

Lemma sensitive_names_extend_witness : isSensitiveField "monkeys" = true.
Proof.
  exact (sensitive_names_extend "key" "mon" "s" eq_refl).
Defined.

End ErrorProperties.

(* ===================================================================== *)
(** ** Properties of the NestJS pipe ([SanitizationPipe.transform]) *)
(* ===================================================================== *)

Module PipeProperties.
Import JsString Notions Shapes Samples Examples.
Import SanitizationFacts StabilityFacts EngineFacts.
Import SanitizationPipe.

(** X23.  A pipe that shares the configuration of its engine, whose
    engine holds built-in rules only (their functions return), and that is
    not in strict mode never rejects: [transform] resolves, whatever the
    value and the rules. *)
Theorem pipe_resolves_when_not_strict p v :
  config p = EngineConfig ->
  SanitizationEngine.strictMode (configOf p) = false ->
  builtinRegistry (sanitizationEngine p) -> builtinCache (sanitizationEngine p) ->
  exists v', (transform p v).2 = Resolved v'.
Proof.
  intros Hshared Hstrict _ _. unfold transform.
  destruct (negb (SanitizationEngine.enabled (configOf p))); [ now eexists | ].
  pose proof (sanitize_cases (sanitizationEngine p) v (rulesArgument p)) as Hcases.
  unfold configOf in *. rewrite Hshared in *.
  destruct v; try (now eexists); cbn [snd];
    (destruct (SanitizationEngine.result _) as [r | thrown];
     [ rewrite Hstrict; cbn [andb]; now eexists
     | destruct Hcases as (Hs & _); congruence ]).
Qed.

Lemma pipe_resolves_when_not_strict_witness :
  exists v', (transform (pipeOf false false) comment).2 = Resolved v'.
Proof.
  apply (pipe_resolves_when_not_strict (pipeOf false false) comment);
    [ reflexivity | reflexivity | now apply create_builtinRegistry
    | apply create_builtinCache ].
Defined.

(** X24.  A pipe in strict mode that shares the configuration of its
    engine, an engine that holds built-in rules only (their functions
    return), rejects with one of two bodies.  With [rejectOnViolation] off the
    body has the code [SANITIZATION_VIOLATION] and lists the violations,
    which are not empty; with [rejectOnViolation] on it is the engine that
    throws, and the body has the code [SANITIZATION_ERROR], the message of
    the engine as [error], and no list of violations. *)
Theorem pipe_rejection_bodies p v body :
  config p = EngineConfig ->
  SanitizationEngine.strictMode (configOf p) = true ->
  builtinRegistry (sanitizationEngine p) -> builtinCache (sanitizationEngine p) ->
  (transform p v).2 = BadRequestException body ->
  if SanitizationEngine.rejectOnViolation (configOf p)
  then code body = "SANITIZATION_ERROR" /\ message body = "Input sanitization failed" /\
       violations body = None /\
       exists vs, vs <> [] /\
                  error body = Some (messageOf (SanitizationEngine.rejection vs))
  else code body = "SANITIZATION_VIOLATION" /\ message body = "Input validation failed" /\
       error body = None /\
       exists vs, vs <> [] /\ violations body = Some vs.
Proof.
  intros Hshared Hstrict _ _. unfold transform.
  destruct (negb (SanitizationEngine.enabled (configOf p))); [ discriminate | ].
  pose proof (sanitize_cases (sanitizationEngine p) v (rulesArgument p)) as Hcases.
  unfold configOf in *. rewrite Hshared in *.
  destruct v; try discriminate; cbn [snd];
    (destruct (SanitizationEngine.result _) as [r | thrown];
     [ destruct Hcases as (Hnone & _); rewrite Hstrict in *; cbn [andb] in *;
       destruct (SanitizationEngine.violations r) as [ | x l ] eqn:Hvs;
       cbn [List.length Nat.eqb negb]; [ discriminate | ];
       intros [= <-]; cbn [code message error violations];
       destruct (SanitizationEngine.rejectOnViolation _);
       [ now specialize (Hnone eq_refl) | ];
       repeat split; eexists; split; [ | reflexivity ]; discriminate
     | destruct Hcases as (_ & Hreject & _ & vs & Hvs & ->); rewrite Hreject;
       intros [= <-]; cbn [code message error violations];
       repeat split; eauto ]).
Qed.

Lemma pipe_rejection_bodies_witness :
  exists body,
    (transform (pipeOf true false) comment).2 = BadRequestException body /\
    code body = "SANITIZATION_VIOLATION" /\ message body = "Input validation failed" /\
    error body = None /\
    exists vs, vs <> [] /\ violations body = Some vs.
Proof.
  eexists. split; [ vm_compute; reflexivity | ].
  refine (pipe_rejection_bodies (pipeOf true false) comment _ eq_refl eq_refl _ _ _).
  - now apply create_builtinRegistry.
  - apply create_builtinCache.
  - vm_compute. reflexivity.
Defined.

End PipeProperties.

(* ===================================================================== *)
(** ** Properties of the Express middleware *)
(* ===================================================================== *)

Module MiddlewareProperties.
Import JsString Notions Shapes Samples Examples.
Import SanitizationFacts StabilityFacts EngineFacts AdapterFacts.
Import ExpressSanitization.

(** X25.  A middleware whose engine holds built-in rules only (their
    functions return) never sends its 400 response.  When it answers
    instead of calling [next()], [strictMode] and [rejectOnViolation] are
    both on, the status is 500, the code is [SANITIZATION_ERROR], the body
    lists no violation and [onViolation] has not been called: with both
    switches on, the engine throws at the first violation, before the
    middleware can collect it.  (The continuation [next] and the callback
    [onViolation] are taken to return.) *)
Theorem middleware_rejects_with_500_only m stamp req :
  builtinRegistry (sanitizationEngine m) -> builtinCache (sanitizationEngine m) ->
  match reply (handle m stamp req) with
  | Next => True
  | Json status json =>
      status = 500%Z /\
      SanitizationEngine.strictMode (SanitizationEngine.config (sanitizationEngine m)) = true /\
      SanitizationEngine.rejectOnViolation (SanitizationEngine.config (sanitizationEngine m))
      = true /\
      success json = false /\
      code (error json) = "SANITIZATION_ERROR" /\
      violations (error json) = None /\
      notified (handle m stamp req) = None
  end.
Proof.
  intros _ _. unfold handle.
  destruct (negb (SanitizationEngine.enabled _)); [ exact I | ].
  set (start := {| closure := m; request := req; hasViolations := false; allViolations := [] |}).
  pose proof (steps_switches
                (SanitizationEngine.strictMode (SanitizationEngine.config (sanitizationEngine m)))
                (SanitizationEngine.rejectOnViolation
                   (SanitizationEngine.config (sanitizationEngine m)))
                [ bodyStep; queryStep; paramsStep; headersStep ] (Going start)) as Hsteps.
  cbn [fold_left] in Hsteps.
  destruct (Going start >>> bodyStep >>> queryStep >>> paramsStep >>> headersStep)
    as [st | st]; cbn [reply notified].
  - destruct Hsteps as (Hs & Hr & Hv).
    + apply Forall_forall. auto.
    + subst start. cbn. repeat split. discriminate.
    + rewrite Hs, Hr. destruct (hasViolations st); [ | exact I ].
      rewrite (Hv eq_refl). exact I.
  - destruct Hsteps as (Hs & Hstrict & Hreject).
    + apply Forall_forall. auto.
    + subst start. cbn. repeat split. discriminate.
    + rewrite Hs, Hstrict. now repeat split.
Qed.

Lemma middleware_rejects_with_500_only_witness :
  exists json,
    reply (handle (middlewareOf true true) "2025-01-01T00:00:00.000Z" post) = Json 500 json /\
    code (error json) = "SANITIZATION_ERROR" /\
    violations (error json) = None /\
    notified (handle (middlewareOf true true) "2025-01-01T00:00:00.000Z" post) = None.
Proof.
  pose proof (middleware_rejects_with_500_only (middlewareOf true true)
                "2025-01-01T00:00:00.000Z" post
                (create_builtinRegistry (sanitizationConfig true true)
                   SanitizationEngine.mockPurify eq_refl)
                (create_builtinCache (sanitizationConfig true true)
                   SanitizationEngine.mockPurify)) as H.
  destruct (reply (handle (middlewareOf true true) "2025-01-01T00:00:00.000Z" post))
    as [ | status json ] eqn:Hreply; [ vm_compute in Hreply; discriminate | ].
  destruct H as (-> & _ & _ & _ & Hcode & Hnone & Hnotified).
  exists json. now repeat split.
Defined.

(** X26.  The middleware leaves the sensitive headers alone: a header
    whose lower-cased name is [authorization], [cookie] or [set-cookie] has,
    after the call, the value it had before, whatever the options and the
    answer. *)
Theorem sensitive_headers_are_left_alone m stamp req key :
  sanitizable key = false ->
  assoc key (headers (requestAfter (handle m stamp req))) = assoc key (headers req).
Proof.
  intros Hkey. unfold handle.
  destruct (negb (SanitizationEngine.enabled _)); [ reflexivity | ].
  set (start := {| closure := m; request := req; hasViolations := false; allViolations := [] |}).
  pose proof (steps_headers key req [ bodyStep; queryStep; paramsStep; headersStep ]
                (Going start) Hkey) as Hsteps.
  cbn [fold_left] in Hsteps.
  destruct (Going start >>> bodyStep >>> queryStep >>> paramsStep >>> headersStep)
    as [st | st]; cbn [requestAfter]; apply Hsteps; try reflexivity; apply Forall_forall; auto.
Qed.

Lemma sensitive_headers_are_left_alone_witness :
  assoc "Authorization" (headers (requestAfter (handle (middlewareOf false false) "now" post)))
  = Some (VStr "Bearer <b>x</b>") /\
  assoc "x-note" (headers (requestAfter (handle (middlewareOf false false) "now" post)))
  = Some (VStr "hi").
Proof.
  split; [ | vm_compute; reflexivity ].
  rewrite (sensitive_headers_are_left_alone (middlewareOf false false) "now" post
             "Authorization" eq_refl).
  reflexivity.
Defined.

End MiddlewareProperties.

(* ===================================================================== *)
(** ** Properties of the test for a normalized envelope *)
(* ===================================================================== *)

Module EnvelopeProperties.
Import JsString.
Import Envelope.

(** X27.  [isAlreadyNormalized] says yes exactly for an object that has
    the keys [success] and [metadata] and whose [metadata] is an object with
    the key [requestId]; the values of [success] and of [requestId], and the
    other keys, play no part. *)
Theorem isAlreadyNormalized_accepts_exactly data :
  isAlreadyNormalized data = Returns (VBool true) <->
  exists props meta,
    data = VObj props /\ assoc "success" props <> None /\
    assoc "metadata" props = Some (VObj meta) /\ assoc "requestId" meta <> None.
Proof.
  split.
  - destruct data as [ | | b | n | s | items | props ];
      [ cbn; intros [=] | cbn; intros [=] | destruct b; cbn; intros [=]
      | unfold isAlreadyNormalized; cbn; destruct (n =? 0)%Z; cbn; intros [=]
      | unfold isAlreadyNormalized; cbn; destruct (String.eqb s ""); cbn; intros [=]
      | cbn; intros [=] | ].
    cbn. destruct (assoc "success" props) as [ v | ] eqn:Hs; [ | intros [=] ].
    destruct (assoc "metadata" props) as [ m | ] eqn:Hm; [ | intros [=] ].
    unfold js_or. destruct (truthy m) eqn:Ht; [ | cbn; intros [=] ].
    destruct m as [ | | b | n | s | items | meta ]; try (cbn; intros [=]; fail).
    cbn. destruct (assoc "requestId" meta) eqn:Hr; [ | intros [=] ].
    intros _. exists props, meta. rewrite Hs, Hr.
    repeat split; first [ assumption | discriminate ].
  - intros (props & meta & -> & Hs & Hm & Hr). cbn.
    destruct (assoc "success" props); [ | congruence ]. rewrite Hm. cbn.
    destruct (assoc "requestId" meta); [ reflexivity | congruence ].
Qed.

(** X28.  [isAlreadyNormalized] throws a [TypeError] exactly for an object
    that has the keys [success] and [metadata] and whose [metadata] is a
    truthy value that is neither an object nor an array (a non-empty
    string, a number other than 0, or [true]): the operator [in] is then
    applied to a primitive. *)
Theorem isAlreadyNormalized_throws_exactly data :
  (exists thrown, isAlreadyNormalized data = Throws thrown) <->
  exists props meta,
    data = VObj props /\ assoc "success" props <> None /\
    assoc "metadata" props = Some meta /\ truthy meta = true /\
    (forall items, meta <> VArr items) /\ (forall fields, meta <> VObj fields).
Proof.
  split.
  - intros [thrown H]. revert H.
    destruct data as [ | | b | n | s | items | props ];
      [ cbn; intros [=] | cbn; intros [=] | destruct b; cbn; intros [=]
      | unfold isAlreadyNormalized; cbn; destruct (n =? 0)%Z; cbn; intros [=]
      | unfold isAlreadyNormalized; cbn; destruct (String.eqb s ""); cbn; intros [=]
      | cbn; intros [=] | ].
    cbn. destruct (assoc "success" props) as [ v | ] eqn:Hs; [ | intros [=] ].
    destruct (assoc "metadata" props) as [ m | ] eqn:Hm; [ | intros [=] ].
    unfold js_or. destruct (truthy m) eqn:Ht; [ | cbn; intros [=] ].
    destruct m as [ | | b | n | s | items | meta ]; cbn; try discriminate;
      try (intros [=]; fail);
      try (destruct (assoc "requestId" meta); intros [=]; fail);
      intros _; exists props; eexists; rewrite Hs;
      (split; [ reflexivity | split; [ discriminate | split; [ exact Hm | ] ] ]);
      repeat split; try assumption; discriminate.
  - intros (props & meta & -> & Hs & Hm & Ht & Harr & Hobj). cbn.
    destruct (assoc "success" props); [ | congruence ]. rewrite Hm. cbn.
    unfold js_or. rewrite Ht.
    destruct meta as [ | | b | n | s | items | fields ]; cbn; try (eexists; reflexivity);
      try discriminate.
    + now contradiction (Harr items).
    + now contradiction (Hobj fields).
Qed.

End EnvelopeProperties.
